(** * natstat_manager: the live-game delta-tracking subsystem

    A shallow embedding of [app/common/utils.py], [app/common/types.py],
    [app/background/live_games/{converter,storage,manager,runtimes}.py] and the
    live-game functions of [app/db/db_client.py], followed by the properties of
    the in-memory store, the change detector, the polling cycle, the update of
    future games and the rows prepared for the datastore.

    Conventions of the embedding.
    - A Python value read from the provider's JSON is a [json]; [JNull] is
      Python's [None].  JSON numbers are integers (floats are not modelled) and
      strings are ASCII.
    - A call that may raise returns a [res]: [Ok v] or [Raise e].
    - A naive [datetime] is the number of microseconds since 0001-01-01 00:00.
    - The wall clock, the timezone database and the HTTP client are inputs:
      a [Clock], the section variable [ny_to_utc] and the section variables
      [fetch_game] and [fetch_games_in_range].
    - The datastore is an input too: what a query returns is a section
      variable ([get_games_in_date_range], [stored_ids]), and what the code
      asks it to write is returned as a list of calls, which are taken to
      return. *)

From Stdlib Require Import ZArith Ascii String List Bool Lia.
From stdpp Require Import base tactics option list gmap strings pretty.

Set Warnings "-register-all".
Local Open Scope Z_scope.

(** ** Python exceptions and results *)

Inductive exn : Set :=
| KeyError | TypeError | ValueError | AttributeError | IndexError
| OverflowError | ValidationError | TimeoutError.

Inductive res (A : Type) : Type :=
| Ok (a : A)
| Raise (e : exn).
Arguments Ok {A} a.
Arguments Raise {A} e.

#[global] Instance res_ret : MRet res := fun A a => Ok a.
#[global] Instance res_bind : MBind res := fun A B f m =>
  match m with Ok a => f a | Raise e => Raise e end.

(** ** JSON documents as Python values *)

Inductive json : Type :=
| JNull
| JBool (b : bool)
| JNum (n : Z)
| JStr (s : string)
| JArr (items : list json)
| JObj (fields : list (string * json)).

(** [d.get(k)] on the fields of a dict. *)
Fixpoint dict_get (k : string) (d : list (string * json)) : option json :=
  match d with
  | [] => None
  | (k', v) :: d' => if String.eqb k' k then Some v else dict_get k d'
  end.

(** [list(d.values())] *)
Definition dict_values (d : list (string * json)) : list json := map snd d.

Definition is_none (v : json) : bool :=
  match v with JNull => true | _ => false end.

(** [isinstance(v, dict)] *)
Definition is_dict (v : json) : bool :=
  match v with JObj _ => true | _ => false end.

(** [v == s] for a string literal [s]. *)
Definition eq_str (v : json) (s : string) : bool :=
  match v with JStr s' => String.eqb s' s | _ => false end.

(** [v[k]] for a string key: only a dict can be indexed by a string. *)
Definition py_getitem (v : json) (k : string) : res json :=
  match v with
  | JObj d => match dict_get k d with Some x => Ok x | None => Raise KeyError end
  | _ => Raise TypeError
  end.

(** [needle in s] on strings. *)
Fixpoint is_substring (needle s : string) : bool :=
  String.prefix needle s ||
  match s with
  | EmptyString => false
  | String _ s' => is_substring needle s'
  end.

(** [k in v] for a string [k]: key membership on a dict, element membership
    on a list, substring test on a string. *)
Definition py_contains (k : string) (v : json) : res bool :=
  match v with
  | JObj d => Ok (bool_decide (is_Some (dict_get k d)))
  | JArr l => Ok (existsb (fun x => eq_str x k) l)
  | JStr s => Ok (is_substring k s)
  | _ => Raise TypeError
  end.

(** [len(v)] *)
Definition py_len (v : json) : res Z :=
  match v with
  | JObj d => Ok (Z.of_nat (List.length d))
  | JArr l => Ok (Z.of_nat (List.length l))
  | JStr s => Ok (Z.of_nat (String.length s))
  | _ => Raise TypeError
  end.

(** [v.values()], as a list. *)
Definition py_values (v : json) : res (list json) :=
  match v with
  | JObj d => Ok (dict_values d)
  | _ => Raise AttributeError
  end.

(** *** [jmespath.search] for dotted field paths *)

(** Splits ["score.visitor"] into its identifiers. *)
Fixpoint split_dots (acc : string) (s : string) : list string :=
  match s with
  | EmptyString => [acc]
  | String c s' =>
      if Ascii.eqb c "."%char then acc :: split_dots EmptyString s'
      else split_dots (acc +:+ String c EmptyString) s'
  end.

(** A field of a value: [value.get(name)], and [None] on anything that is
    not a dict. *)
Definition jp_field (v : json) (name : string) : json :=
  match v with
  | JObj d => default JNull (dict_get name d)
  | _ => JNull
  end.

Definition jmespath_search (path : string) (data : json) : json :=
  fold_left jp_field (split_dots EmptyString path) data.

(** *** [int(v)] and [str(v)] *)

Definition digit_val (c : ascii) : option Z :=
  let n := Z.of_nat (nat_of_ascii c) in
  if (48 <=? n) && (n <=? 57) then Some (n - 48) else None.

(** Python's whitespace among the ASCII characters. *)
Definition is_space (c : ascii) : bool :=
  let n := Z.of_nat (nat_of_ascii c) in
  ((9 <=? n) && (n <=? 13)) || ((28 <=? n) && (n <=? 32)).

Fixpoint lstrip (s : string) : string :=
  match s with
  | String c s' => if is_space c then lstrip s' else s
  | EmptyString => EmptyString
  end.

Fixpoint all_space (s : string) : bool :=
  match s with
  | String c s' => is_space c && all_space s'
  | EmptyString => true
  end.

(** Digits of an integer literal after its sign: a digit, then digits each
    optionally preceded by one underscore, then only whitespace.
    [prev] tells whether the last character read was a digit. *)
Fixpoint int_digits (acc : Z) (prev : bool) (s : string) : option Z :=
  match s with
  | EmptyString => if prev then Some acc else None
  | String c s' =>
      match digit_val c with
      | Some d => int_digits (10 * acc + d) true s'
      | None =>
          if Ascii.eqb c "_"%char then
            if prev then
              match s' with
              | String c' _ =>
                  if bool_decide (is_Some (digit_val c')) then int_digits acc false s'
                  else None
              | EmptyString => None
              end
            else None
          else if prev && all_space s then Some acc else None
      end
  end.

(** [int(s)] for a string, base 10. *)
Definition int_of_string (s : string) : res Z :=
  let body := lstrip s in
  let parsed :=
    match body with
    | String c s' =>
        if Ascii.eqb c "-"%char then Z.opp <$> int_digits 0 false s'
        else if Ascii.eqb c "+"%char then int_digits 0 false s'
        else int_digits 0 false body
    | EmptyString => None
    end in
  match parsed with Some n => Ok n | None => Raise ValueError end.

Definition py_int (v : json) : res Z :=
  match v with
  | JStr s => int_of_string s
  | JNum n => Ok n
  | JBool b => Ok (if b then 1 else 0)
  | _ => Raise TypeError
  end.

Definition squote : ascii := ascii_of_nat 39.
Definition dquote : ascii := ascii_of_nat 34.
Definition backslash : ascii := ascii_of_nat 92.

Fixpoint has_char (c : ascii) (s : string) : bool :=
  match s with
  | EmptyString => false
  | String c' s' => Ascii.eqb c c' || has_char c s'
  end.

Definition hex_digit (n : nat) : ascii :=
  ascii_of_nat (if Nat.ltb n 10 then 48 + n else 87 + n).

Fixpoint repr_chars (q : ascii) (s : string) : string :=
  match s with
  | EmptyString => EmptyString
  | String c s' =>
      let n := nat_of_ascii c in
      let esc :=
        if Ascii.eqb c backslash then String backslash (String backslash EmptyString)
        else if Ascii.eqb c q then String backslash (String q EmptyString)
        else if Nat.eqb n 10 then String backslash "n"
        else if Nat.eqb n 13 then String backslash "r"
        else if Nat.eqb n 9 then String backslash "t"
        else if Nat.ltb n 32 || Nat.eqb n 127 then
          String backslash
            (String "x" (String (hex_digit (Nat.div n 16))
               (String (hex_digit (Nat.modulo n 16)) EmptyString)))
        else String c EmptyString in
      esc +:+ repr_chars q s'
  end.

(** [repr(s)] of a string: single quotes, unless it holds one and no double
    quote. *)
Definition repr_string (s : string) : string :=
  let q := if has_char squote s && negb (has_char dquote s) then dquote else squote in
  String q (repr_chars q s) +:+ String q EmptyString.

Definition join_comma (l : list string) : string :=
  match l with
  | [] => EmptyString
  | x :: l' => fold_left (fun acc y => acc +:+ ", " +:+ y) l' x
  end.

Fixpoint py_repr (v : json) : string :=
  match v with
  | JNull => "None"
  | JBool b => if b then "True" else "False"
  | JNum n => pretty n
  | JStr s => repr_string s
  | JArr l => "[" +:+ join_comma (map py_repr l) +:+ "]"
  | JObj d =>
      "{" +:+ join_comma (map (fun kv => repr_string (fst kv) +:+ ": " +:+ py_repr (snd kv)) d)
      +:+ "}"
  end.

(** [str(v)] *)
Definition py_str (v : json) : res string :=
  match v with
  | JStr s => Ok s
  | _ => Ok (py_repr v)
  end.

(** ** Naive datetimes *)

(** Microseconds since 0001-01-01 00:00:00. *)
Definition datetime : Type := Z.

Definition usec_per_minute : Z := 60 * 1000000.
Definition usec_per_hour : Z := 60 * usec_per_minute.
Definition usec_per_day : Z := 24 * usec_per_hour.

(** [timedelta(hours=h)] *)
Definition timedelta_hours (h : Z) : Z := h * usec_per_hour.

(** [timedelta(hours=h, minutes=m)] *)
Definition timedelta_hm (h m : Z) : Z := h * usec_per_hour + m * usec_per_minute.

Definition is_leap (y : Z) : bool :=
  ((y mod 4 =? 0) && negb (y mod 100 =? 0)) || (y mod 400 =? 0).

Definition days_in_month (y m : Z) : Z :=
  if m =? 2 then (if is_leap y then 29 else 28)
  else if (m =? 4) || (m =? 6) || (m =? 9) || (m =? 11) then 30
  else 31.

Definition days_before_year (y : Z) : Z :=
  let p := y - 1 in p * 365 + p / 4 - p / 100 + p / 400.

Fixpoint days_before_month_from (y : Z) (m : nat) : Z :=
  match m with
  | O => 0
  | S m' => days_before_month_from y m' + days_in_month y (Z.of_nat m)
  end.

(** Days of the year before the first of month [m]. *)
Definition days_before_month (y m : Z) : Z :=
  days_before_month_from y (Z.to_nat (m - 1)).

(** [date(y, m, d).toordinal()]: 0001-01-01 is day 1. *)
Definition ymd_to_ord (y m d : Z) : Z :=
  days_before_year y + days_before_month y m + d.

(** [datetime(y, m, d, H, M)] *)
Definition mk_datetime (y m d H M : Z) : datetime :=
  (ymd_to_ord y m d - 1) * usec_per_day + H * usec_per_hour + M * usec_per_minute.

(** [dt.replace(hour=0, minute=0, second=0, microsecond=0)] *)
Definition day_start (t : datetime) : datetime := t - t mod usec_per_day.

(** [dt.replace(hour=23, minute=59, second=59, microsecond=999999)] *)
Definition day_end (t : datetime) : datetime := day_start t + usec_per_day - 1.

(** *** [datetime.strptime] for the two formats of the repository

    [_strptime] turns the format into a regular expression, matches it
    against the start of the string with backtracking, refuses a string
    with characters left over, and then builds the date, which refuses a
    day the month does not have and the year 0.  The matchers below are in
    continuation-passing style: an alternative is tried in the order of the
    regular expression, and the next one only when the rest fails. *)

Section Regex.
Context {A : Type}.

Definition alt (x y : option A) : option A :=
  match x with Some a => Some a | None => y end.

(** One character equal to [c]. *)
Definition re_lit (c : ascii) (s : string) (k : string -> option A) : option A :=
  match s with
  | String c' s' => if Ascii.eqb c' c then k s' else None
  | EmptyString => None
  end.

(** One digit accepted by [p]. *)
Definition re_one (p : Z -> bool) (s : string) (k : Z -> string -> option A) : option A :=
  match s with
  | String a s' =>
      match digit_val a with
      | Some a => if p a then k a s' else None
      | None => None
      end
  | EmptyString => None
  end.

(** Two digits accepted by [p]. *)
Definition re_two (p : Z -> Z -> bool) (s : string) (k : Z -> string -> option A) : option A :=
  match s with
  | String a (String b s') =>
      match digit_val a, digit_val b with
      | Some a, Some b => if p a b then k (10 * a + b) s' else None
      | _, _ => None
      end
  | _ => None
  end.

(** [(?P<Y>\d\d\d\d)] *)
Definition re_Y (s : string) (k : Z -> string -> option A) : option A :=
  match s with
  | String a (String b (String c (String d s'))) =>
      match digit_val a, digit_val b, digit_val c, digit_val d with
      | Some a, Some b, Some c, Some d => k (1000 * a + 100 * b + 10 * c + d) s'
      | _, _, _, _ => None
      end
  | _ => None
  end.

(** [(?P<m>1[0-2]|0[1-9]|[1-9])] *)
Definition re_m (s : string) (k : Z -> string -> option A) : option A :=
  alt (re_two (fun a b => (a =? 1) && (b <=? 2)) s k)
 (alt (re_two (fun a b => (a =? 0) && (1 <=? b)) s k)
      (re_one (fun a => 1 <=? a) s k)).

(** [(?P<d>3[01]|[12]\d|0[1-9]|[1-9]| [1-9])] *)
Definition re_d (s : string) (k : Z -> string -> option A) : option A :=
  alt (re_two (fun a b => (a =? 3) && (b <=? 1)) s k)
 (alt (re_two (fun a b => (1 <=? a) && (a <=? 2)) s k)
 (alt (re_two (fun a b => (a =? 0) && (1 <=? b)) s k)
 (alt (re_one (fun a => 1 <=? a) s k)
      (re_lit " " s (fun s' => re_one (fun a => 1 <=? a) s' k))))).

(** [(?P<H>2[0-3]|[0-1]\d|\d)] *)
Definition re_H (s : string) (k : Z -> string -> option A) : option A :=
  alt (re_two (fun a b => (a =? 2) && (b <=? 3)) s k)
 (alt (re_two (fun a b => a <=? 1) s k)
      (re_one (fun a => true) s k)).

(** [(?P<M>[0-5]\d|\d)] *)
Definition re_M (s : string) (k : Z -> string -> option A) : option A :=
  alt (re_two (fun a b => a <=? 5) s k)
      (re_one (fun a => true) s k).

(** [\s+], greedy. *)
Fixpoint re_spaces (s : string) (k : string -> option A) : option A :=
  match s with
  | String c s' => if is_space c then alt (re_spaces s' k) (k s') else None
  | EmptyString => None
  end.

End Regex.

(** The date a match stands for, or [ValueError]. *)
Definition checked_datetime (y m d H M : Z) : res datetime :=
  if (1 <=? y) && (d <=? days_in_month y m) then Ok (mk_datetime y m d H M)
  else Raise ValueError.

(** [datetime.strptime(s, "%Y-%m-%d")] *)
Definition strptime_date (s : string) : res datetime :=
  match re_Y s (fun y s => re_lit "-" s (fun s => re_m s (fun m s =>
        re_lit "-" s (fun s => re_d s (fun d s => Some (y, m, d, s)))))) with
  | Some (y, m, d, EmptyString) => checked_datetime y m d 0 0
  | _ => Raise ValueError
  end.

(** [datetime.strptime(s, "%Y-%m-%d %H:%M")] *)
Definition strptime_datetime (s : string) : res datetime :=
  match re_Y s (fun y s => re_lit "-" s (fun s => re_m s (fun m s =>
        re_lit "-" s (fun s => re_d s (fun d s => re_spaces s (fun s =>
        re_H s (fun H s => re_lit ":" s (fun s => re_M s (fun M s =>
        Some (y, m, d, H, M, s)))))))))) with
  | Some (y, m, d, H, M, EmptyString) => checked_datetime y m d H M
  | _ => Raise ValueError
  end.

(** [s.endswith(suffix)] *)
Definition endswith (s suffix : string) : bool :=
  let n := String.length s in
  let k := String.length suffix in
  Nat.leb k n && String.eqb (String.substring (n - k) k s) suffix.

(** [s.replace("-00", "-01")]: every occurrence, left to right. *)
Fixpoint replace_00_01 (s : string) : string :=
  match s with
  | String c t =>
      match t with
      | String c2 (String c3 s') =>
          if Ascii.eqb c "-" && Ascii.eqb c2 "0" && Ascii.eqb c3 "0"
          then String "-" (String "0" (String "1" (replace_00_01 s')))
          else String c (replace_00_01 t)
      | _ => String c (replace_00_01 t)
      end
  | EmptyString => EmptyString
  end.

(** *** The US Eastern rules in force since 2007

    A concrete timezone conversion for the examples: daylight time (UTC-4)
    from 03:00 on the second Sunday of March until 01:00 on the first Sunday
    of November, standard time (UTC-5) otherwise.  It agrees with
    [ny_tz.localize(dt).astimezone(utc)] for wall-clock years 2007 to 2037. *)

(** [date.weekday()] of an ordinal: Monday is 0. *)
Definition weekday (ord : Z) : Z := (ord + 6) mod 7.

(** Ordinal of the first Sunday on or after the ordinal [ord]. *)
Definition next_sunday (ord : Z) : Z := ord + (6 - weekday ord).

Definition year_of_count (fuel : nat) (days : Z) : Z :=
  (fix go (fuel : nat) (y : Z) : Z :=
     match fuel with
     | O => y
     | S f => if days_before_year (y + 1) <? days then go f (y + 1) else y
     end) fuel (days * 400 / 146097 - 1).

(** The year a datetime falls in. *)
Definition year_of (t : datetime) : Z :=
  year_of_count 4 (t / usec_per_day + 1).

Definition eastern_since_2007 (t : datetime) : res datetime :=
  let y := year_of t in
  let dst_start := (next_sunday (ymd_to_ord y 3 8) - 1) * usec_per_day + 3 * usec_per_hour in
  let dst_end := (next_sunday (ymd_to_ord y 11 1) - 1) * usec_per_day + 1 * usec_per_hour in
  if (dst_start <=? t) && (t <? dst_end) then Ok (t + timedelta_hours 4)
  else Ok (t + timedelta_hours 5).

(** ** The wall clock *)

(** What the process reads from its host: the current UTC time and the
    offset of the host's local timezone (microseconds east of UTC). *)
Record Clock : Type := { utc_now : datetime; utc_offset : Z }.

(** [app.common.utils.get_utc_now]: the current UTC time, naive. *)
Definition get_utc_now (clock : Clock) : datetime := utc_now clock.

(** [datetime.now()]: the current local time of the host, naive. *)
Definition datetime_now (clock : Clock) : datetime := utc_now clock + utc_offset clock.

(** ** [app/common/types.py] *)

Inductive GameType : Set := today | early | live | early_final.

#[global] Instance GameType_eq_dec : EqDecision GameType.
Proof. solve_decision. Defined.

Module GameShort.
Record t : Type := { game_id : Z; sport_code : string }.

(** The [key] property: [f"{self.sport_code}_{self.game_id}"] *)
Definition key (g : t) : string := sport_code g +:+ "_" +:+ pretty (game_id g).
End GameShort.

Module GameLastInfo.
Record t : Type := {
  game_short : GameShort.t;
  gamedatetime : datetime;
  status : string;
  score_visitor : option Z;
  score_home : option Z;
  score_overtime : option string;
  playbyplay_ids : option (gset Z)
}.

Definition set_status (v : string) (i : t) : t :=
  {| game_short := game_short i; gamedatetime := gamedatetime i; status := v;
     score_visitor := score_visitor i; score_home := score_home i;
     score_overtime := score_overtime i; playbyplay_ids := playbyplay_ids i |}.

Definition set_gamedatetime (v : datetime) (i : t) : t :=
  {| game_short := game_short i; gamedatetime := v; status := status i;
     score_visitor := score_visitor i; score_home := score_home i;
     score_overtime := score_overtime i; playbyplay_ids := playbyplay_ids i |}.

Definition set_score_visitor (v : Z) (i : t) : t :=
  {| game_short := game_short i; gamedatetime := gamedatetime i; status := status i;
     score_visitor := Some v; score_home := score_home i;
     score_overtime := score_overtime i; playbyplay_ids := playbyplay_ids i |}.

Definition set_score_home (v : Z) (i : t) : t :=
  {| game_short := game_short i; gamedatetime := gamedatetime i; status := status i;
     score_visitor := score_visitor i; score_home := Some v;
     score_overtime := score_overtime i; playbyplay_ids := playbyplay_ids i |}.

Definition set_score_overtime (v : string) (i : t) : t :=
  {| game_short := game_short i; gamedatetime := gamedatetime i; status := status i;
     score_visitor := score_visitor i; score_home := score_home i;
     score_overtime := Some v; playbyplay_ids := playbyplay_ids i |}.

Definition set_playbyplay_ids (v : gset Z) (i : t) : t :=
  {| game_short := game_short i; gamedatetime := gamedatetime i; status := status i;
     score_visitor := score_visitor i; score_home := score_home i;
     score_overtime := score_overtime i; playbyplay_ids := Some v |}.
End GameLastInfo.

Module GameChanges.
Record t : Type := {
  game_short : GameShort.t;
  status : option string;
  gamedatetime : option datetime;
  score_visitor : option Z;
  score_home : option Z;
  score_overtime : option string;
  playbyplay_changes : option (list json);
  game_data : json
}.
End GameChanges.

(** The columns of [app.db.database.Game] that the store reads. *)
Module Game.
Record t : Type := {
  id : Z;
  sport_code : string;
  gamedatetime : datetime;
  status : string;
  score_visitor : option Z;
  score_home : option Z;
  score_overtime : option string
}.
End Game.

(** Validation of a [str | None] field by the model class (pydantic 2: a
    value that is neither a string nor [None] is refused). *)
Definition validate_opt_str (v : json) : res (option string) :=
  match v with
  | JNull => Ok None
  | JStr s => Ok (Some s)
  | _ => Raise ValidationError
  end.

(** Validation of a [str] field by the model class. *)
Definition validate_str (v : json) : res string :=
  match v with
  | JStr s => Ok s
  | _ => Raise ValidationError
  end.

(** ** [app/common/utils.py] *)

Section Utils.
(** [ny_tz.localize(dt).astimezone(utc).replace(tzinfo=None)], as the
    timezone database gives it. *)
Context (ny_to_utc : datetime -> res datetime).

Definition get_game_datetime (game_data : json) : res datetime :=
  gameday ← py_getitem game_data "gameday";
  match gameday with
  | JStr datetime_str =>
      (* edge case when gameday may be 2014-10-00 *)
      let datetime_str :=
        if endswith datetime_str "-00" then replace_00_01 datetime_str
        else datetime_str in
      starttime ← py_getitem game_data "starttime";
      gamedatetime ←
        (if is_dict starttime then strptime_date datetime_str
         else match starttime with
              | JStr hm => strptime_datetime (datetime_str +:+ " " +:+ hm)
              | _ => Raise TypeError
              end);
      ny_to_utc gamedatetime
  | _ => Raise AttributeError
  end.

End Utils.

Definition get_natstat_value {A : Type} (data : json) (path : string)
    (value_type : json -> res A) : res (option A) :=
  let value := jmespath_search path data in
  if is_dict value then Ok None
  else if negb (is_none value) then (v ← value_type value; Ok (Some v))
  else Ok None.

(** [get_natstat_value] with [ValueError] caught. *)
Definition get_stat_value {A : Type} (item : json) (key : string)
    (value_type : json -> res A) : res (option A) :=
  match get_natstat_value item key value_type with
  | Raise ValueError => Ok None
  | r => r
  end.

Definition ascii_lower (c : ascii) : ascii :=
  let n := nat_of_ascii c in
  if Nat.leb 65 n && Nat.leb n 90 then ascii_of_nat (n + 32) else c.

(** [s.lower()] *)
Fixpoint lower (s : string) : string :=
  match s with
  | EmptyString => EmptyString
  | String c s' => String (ascii_lower c) (lower s')
  end.

Definition is_game_final (game_status : string) : bool :=
  is_substring "final" (lower game_status).

(** [int(item["id"])] of a play-by-play record. *)
Definition event_id (item : json) : res Z :=
  v ← py_getitem item "id"; py_int v.

(** [[item for item in items if int(item["id"]) in ids]] *)
Fixpoint filter_by_id (ids : gset Z) (items : list json) : res (list json) :=
  match items with
  | [] => Ok []
  | item :: items' =>
      i ← event_id item;
      rest ← filter_by_id ids items';
      Ok (if decide (i ∈ ids) then item :: rest else rest)
  end.

(** ** [app/background/live_games/converter.py] *)

Module GameChangeConvertor.
Section Convertor.
Context (ny_to_utc : datetime -> res datetime).

Definition get_changed_status (last_info : option GameLastInfo.t) (game_data : json)
    : res json :=
  changed ←
    match last_info with
    | None => Ok true
    | Some last_info =>
        status ← py_getitem game_data "status";
        Ok (negb (eq_str status (GameLastInfo.status last_info)))
    end;
  if changed : bool then py_getitem game_data "status" (* new game *)
  else Ok JNull.

Definition get_changed_gamedatetime (last_info : option GameLastInfo.t) (game_data : json)
    : res (option datetime) :=
  new_gamedt ← get_game_datetime ny_to_utc game_data;
  match last_info with
  | None => Ok (Some new_gamedt)
  | Some last_info =>
      if bool_decide (new_gamedt ≠ GameLastInfo.gamedatetime last_info)
      then Ok (Some new_gamedt)
      else Ok None
  end.

Definition get_changed_score_visitor (last_info : option GameLastInfo.t) (game_data : json)
    : res (option Z) :=
  score_visitor ← get_natstat_value game_data "score.visitor" py_int;
  match last_info with
  | None => Ok score_visitor
  | Some last_info =>
      if bool_decide (GameLastInfo.score_visitor last_info ≠ score_visitor)
      then Ok score_visitor (* new game *)
      else Ok None
  end.

Definition get_changed_score_home (last_info : option GameLastInfo.t) (game_data : json)
    : res (option Z) :=
  score_home ← get_natstat_value game_data "score.home" py_int;
  match last_info with
  | None => Ok score_home
  | Some last_info =>
      if bool_decide (GameLastInfo.score_home last_info ≠ score_home)
      then Ok score_home (* new game *)
      else Ok None
  end.

Definition get_changed_score_overtime (last_info : option GameLastInfo.t) (game_data : json)
    : res (option string) :=
  score_overtime ← get_natstat_value game_data "score.overtime" py_str;
  match last_info with
  | None => Ok score_overtime
  | Some last_info =>
      if bool_decide (GameLastInfo.score_overtime last_info ≠ score_overtime)
      then Ok score_overtime (* new game *)
      else Ok None
  end.

Definition get_play_by_play_changes (last_info : option GameLastInfo.t) (game_data : json)
    : res (option (list json)) :=
  let pbps := jmespath_search "stats.playbyplay" game_data in
  if is_none pbps then Ok None
  else
    pbps ← py_values pbps;
    ids ← mapM event_id pbps;
    let online_pbps_ids : gset Z := list_to_set ids in
    let new_pbps_ids :=
      match last_info with
      | None => online_pbps_ids (* new game *)
      | Some last_info =>
          match GameLastInfo.playbyplay_ids last_info with
          | None => online_pbps_ids (* no previous playbyplay *)
          | Some known => online_pbps_ids ∖ known
          end
      end in
    new_pbps ← filter_by_id new_pbps_ids pbps;
    Ok (Some new_pbps).

Definition get_game_changes (game_short : GameShort.t) (game_data : json)
    (last_info : option GameLastInfo.t) : res GameChanges.t :=
  status ← get_changed_status last_info game_data;
  gamedatetime ← get_changed_gamedatetime last_info game_data;
  score_visitor ← get_changed_score_visitor last_info game_data;
  score_home ← get_changed_score_home last_info game_data;
  score_overtime ← get_changed_score_overtime last_info game_data;
  playbyplay_changes ← get_play_by_play_changes last_info game_data;
  status ← validate_opt_str status;
  Ok {| GameChanges.game_short := game_short;
        GameChanges.game_data := game_data;
        GameChanges.status := status;
        GameChanges.gamedatetime := gamedatetime;
        GameChanges.score_visitor := score_visitor;
        GameChanges.score_home := score_home;
        GameChanges.score_overtime := score_overtime;
        GameChanges.playbyplay_changes := playbyplay_changes |}.

End Convertor.
End GameChangeConvertor.

(** ** [app/background/live_games/storage.py] *)

Module InmemoryStorage.

(** [self._storage : dict[str, GameLastInfo]] *)
Abbreviation storage := (gmap string GameLastInfo.t).

Inductive attr : Set :=
| a_status | a_gamedatetime | a_score_visitor | a_score_home | a_score_overtime.

Definition generic_keys : list attr :=
  [a_status; a_gamedatetime; a_score_visitor; a_score_home; a_score_overtime].

(** [val = getattr(game_changes, key)], then
    [if val is not None: setattr(last_info, key, val)]. *)
Definition copy_attr (game_changes : GameChanges.t) (last_info : GameLastInfo.t)
    (key : attr) : GameLastInfo.t :=
  match key with
  | a_status =>
      match GameChanges.status game_changes with
      | Some val => GameLastInfo.set_status val last_info
      | None => last_info
      end
  | a_gamedatetime =>
      match GameChanges.gamedatetime game_changes with
      | Some val => GameLastInfo.set_gamedatetime val last_info
      | None => last_info
      end
  | a_score_visitor =>
      match GameChanges.score_visitor game_changes with
      | Some val => GameLastInfo.set_score_visitor val last_info
      | None => last_info
      end
  | a_score_home =>
      match GameChanges.score_home game_changes with
      | Some val => GameLastInfo.set_score_home val last_info
      | None => last_info
      end
  | a_score_overtime =>
      match GameChanges.score_overtime game_changes with
      | Some val => GameLastInfo.set_score_overtime val last_info
      | None => last_info
      end
  end.


Definition clean_old_records (clock : Clock) (st : storage) : storage :=
  let threshold_time := datetime_now clock - timedelta_hours 5 in
  filter (fun kv => threshold_time <= GameLastInfo.gamedatetime kv.2) st.

(** [self._storage.values()], in the order of the map's keys (the order of
    insertion is not kept). *)
Definition values (st : storage) : list GameLastInfo.t := (map_to_list st).*2.

Definition get_games_by_type (clock : Clock) (game_type : GameType) (st : storage)
    : list GameShort.t :=
  let current_time := get_utc_now clock in
  let three_hours_ago := current_time - timedelta_hours 3 in
  let five_hours_future := current_time + timedelta_hours 3 in
  let today_start := day_start current_time in
  let today_end := day_end current_time in
  foldl (fun games_short game_last_info =>
    let gamedatetime := GameLastInfo.gamedatetime game_last_info in
    if bool_decide (game_type = early_final)
       && is_game_final (GameLastInfo.status game_last_info)
    then games_short ++ [GameLastInfo.game_short game_last_info]
    else if bool_decide (game_type = live)
       && (((current_time <=? gamedatetime) && (gamedatetime <? five_hours_future))
           || (negb (String.eqb (GameLastInfo.status game_last_info) "Scheduled")
               && ((three_hours_ago <=? gamedatetime) && (gamedatetime <? current_time))))
    then games_short ++ [GameLastInfo.game_short game_last_info]
    else if bool_decide (game_type = early)
       && ((current_time <? gamedatetime) && (gamedatetime <=? current_time))
    then games_short ++ [GameLastInfo.game_short game_last_info]
    else if bool_decide (game_type = today)
       && ((today_start <=? gamedatetime) && (gamedatetime <=? today_end))
    then games_short ++ [GameLastInfo.game_short game_last_info]
    else games_short) [] (values st).

Definition get_last_info (st : storage) (key : string) : option GameLastInfo.t :=
  st !! key.

Definition get_game_current_status (st : storage) (key : string) : res string :=
  match st !! key with
  | Some info => Ok (GameLastInfo.status info)
  | None => Raise KeyError
  end.

Section Update.
Context (ny_to_utc : datetime -> res datetime).

(** The entry a delta is applied to: the stored one, or a new one built
    from the delta's payload and stored under its key. *)
Definition last_info_for (st : storage) (game_changes : GameChanges.t)
    : res (storage * GameLastInfo.t) :=
  match get_last_info st (GameShort.key (GameChanges.game_short game_changes)) with
  | Some last_info => Ok (st, last_info)
  | None =>
      gamedatetime ← get_game_datetime ny_to_utc (GameChanges.game_data game_changes);
      status ← py_getitem (GameChanges.game_data game_changes) "status";
      status ← validate_str status;
      let last_info :=
        {| GameLastInfo.game_short := GameChanges.game_short game_changes;
           GameLastInfo.gamedatetime := gamedatetime;
           GameLastInfo.status := status;
           GameLastInfo.score_visitor := None;
           GameLastInfo.score_home := None;
           GameLastInfo.score_overtime := None;
           GameLastInfo.playbyplay_ids := None |} in
      Ok (<[GameShort.key (GameLastInfo.game_short last_info) := last_info]> st, last_info)
  end.

(** The body of the loop of [update_games_list] for one delta.  The entry
    is an object of the store, found (or stored) under the delta's key, and
    the body mutates it in place: each mutation is written back under that
    key, and an exception leaves the store as mutated so far. *)
Definition update_game (st : storage) (game_changes : GameChanges.t)
    : storage * res unit :=
  let k := GameShort.key (GameChanges.game_short game_changes) in
  match last_info_for st game_changes with
  | Raise e => (st, Raise e)
  | Ok (st, last_info) =>
      let last_info := foldl (copy_attr game_changes) last_info generic_keys in
      let st : storage := <[k := last_info]> st in
      match GameChanges.playbyplay_changes game_changes with
      | Some (item :: items) =>
          match mapM event_id (item :: items) with
          | Raise e => (st, Raise e)
          | Ok ids =>
              let playbyplay_ids : gset Z := list_to_set ids in
              let last_info :=
                match GameLastInfo.playbyplay_ids last_info with
                | None => GameLastInfo.set_playbyplay_ids playbyplay_ids last_info
                | Some known =>
                    GameLastInfo.set_playbyplay_ids (known ∪ playbyplay_ids) last_info
                end in
              (<[k := last_info]> st, Ok tt)
          end
      | _ => (st, Ok tt)
      end
  end.

Fixpoint update_games_list (st : storage) (games_changes : list GameChanges.t)
    : storage * res unit :=
  match games_changes with
  | [] => (st, Ok tt)
  | game_changes :: rest =>
      match update_game st game_changes with
      | (st, Ok _) => update_games_list st rest
      | (st, Raise e) => (st, Raise e)
      end
  end.

End Update.
End InmemoryStorage.

(** ** [app/background/live_games/manager.py] *)

Module GameUpdateManager.
Import InmemoryStorage.

(** What a cycle hands to the datastore. *)
Inductive DbCall : Type :=
| upsert_live_games (changes : list GameChanges.t)
| save_final_games (changes : list GameChanges.t).

Definition forwarded (c : DbCall) : list GameChanges.t :=
  match c with upsert_live_games l => l | save_final_games l => l end.

Definition response_to_game_data (raw_response : json) : res json :=
  bad ←
    (if is_none raw_response then Ok true
     else
       success ← py_getitem raw_response "success";
       if eq_str success "0" then Ok true
       else
         has_games ← py_contains "games" raw_response;
         if negb has_games then Ok true
         else
           games ← py_getitem raw_response "games";
           n ← py_len games;
           Ok (1 <? n));
  if bad : bool then Ok JNull (* got bad response *)
  else
    games ← py_getitem raw_response "games";
    games ← py_values games;
    match games with
    | game :: _ => Ok game
    | [] => Raise IndexError
    end.

Section Manager.
Context (ny_to_utc : datetime -> res datetime).
(** [self.client.fetch_game(sport_code, game_id)] within one cycle. *)
Context (fetch_game : string -> Z -> res json).

Definition get_game_changes (st : storage) (game_short : GameShort.t)
    : res (option GameChanges.t) :=
  response ← fetch_game (GameShort.sport_code game_short) (GameShort.game_id game_short);
  game_data ← response_to_game_data response;
  if is_none game_data then Ok None
  else
    let game_last_info := get_last_info st (GameShort.key game_short) in
    game_changes ←
      GameChangeConvertor.get_game_changes ny_to_utc game_short game_data game_last_info;
    Ok (Some game_changes).

(** [[change for change in changes if change is not None]] *)
Definition not_none (changes : list (option GameChanges.t)) : list GameChanges.t :=
  omap id changes.

Definition game_details_update (clock : Clock) (game_type : GameType) (st : storage)
    : storage * res DbCall :=
  let games_short := get_games_by_type clock game_type st in
  match mapM (get_game_changes st) games_short with
  | Raise e => (st, Raise e)
  | Ok changes =>
      let changes := not_none changes in
      match update_games_list ny_to_utc st changes with
      | (st, Raise e) => (st, Raise e)
      | (st, Ok _) =>
          if bool_decide (game_type = early_final)
          then (st, Ok (save_final_games changes))
          else (st, Ok (upsert_live_games changes))
      end
  end.

End Manager.
End GameUpdateManager.

(** ** Observations used by the properties *)

(** The event ids the store knows for the game stored under [k]. *)
Definition known_event_ids (st : gmap string GameLastInfo.t) (k : string) : gset Z :=
  match st !! k with
  | Some info => default ∅ (GameLastInfo.playbyplay_ids info)
  | None => ∅
  end.

(** A delta that changes nothing: its five fields are absent and it
    carries no new event. *)
Definition is_noop (d : GameChanges.t) : bool :=
  bool_decide (GameChanges.status d = None)
  && bool_decide (GameChanges.gamedatetime d = None)
  && bool_decide (GameChanges.score_visitor d = None)
  && bool_decide (GameChanges.score_home d = None)
  && bool_decide (GameChanges.score_overtime d = None)
  && match GameChanges.playbyplay_changes d with
     | None | Some [] => true
     | Some (_ :: _) => false
     end.


(** The ids a delta brings: those of its new events when there are any
    and all of them can be read. *)
Definition incoming_ids (gc : GameChanges.t) : option (gset Z) :=
  match GameChanges.playbyplay_changes gc with
  | Some (item :: items) =>
      match mapM event_id (item :: items) with
      | Ok ids => Some (list_to_set ids)
      | Raise _ => None
      end
  | _ => None
  end.

(** A stored entry after a delta: the five fields copied where the delta
    carries them, and the known ids extended by the delta's. *)
Definition with_incoming (gc : GameChanges.t) (li : GameLastInfo.t) : GameLastInfo.t :=
  let li1 := foldl (InmemoryStorage.copy_attr gc) li InmemoryStorage.generic_keys in
  match incoming_ids gc with
  | Some new =>
      GameLastInfo.set_playbyplay_ids (default ∅ (GameLastInfo.playbyplay_ids li1) ∪ new) li1
  | None => li1
  end.

(** The ids that a list of deltas brings for the game stored under [k]. *)
Definition incoming_for (k : string) (changes : list GameChanges.t) : gset Z :=
  ⋃ ((fun gc =>
        if decide (GameShort.key (GameChanges.game_short gc) = k)
        then default ∅ (incoming_ids gc) else ∅) <$> changes).

(** ** The documented shapes of [gameday] and [starttime] *)

Definition digit_char (v : Z) : ascii := ascii_of_nat (48 + Z.to_nat v).

(** ["YYYY-MM-DD"] *)
Definition fmt_gameday (y m d : Z) : string :=
  String (digit_char (y / 1000)) (String (digit_char (y / 100 mod 10))
  (String (digit_char (y / 10 mod 10)) (String (digit_char (y mod 10))
  (String "-" (String (digit_char (m / 10)) (String (digit_char (m mod 10))
  (String "-" (String (digit_char (d / 10)) (String (digit_char (d mod 10))
   EmptyString))))))))).

(** ["HH:MM"] *)
Definition fmt_starttime (H M : Z) : string :=
  String (digit_char (H / 10)) (String (digit_char (H mod 10))
  (String ":" (String (digit_char (M / 10)) (String (digit_char (M mod 10))
   EmptyString)))).

(** ** Example data

    The game of the test fixture: Lakers at Nuggets, tip-off 19:30 in New
    York on 2023-10-24 (23:30 UTC), final score 107 to 119. *)

Module Examples.

Definition play (i : string) : json := JObj [("id", JStr i); ("text", JStr "play")].

Definition score_107_119 : json :=
  JObj [("visitor", JStr "107"); ("home", JStr "119"); ("overtime", JStr "N")].

Definition payload_with (status score : json) : json :=
  JObj [("id", JStr "1077408"); ("gameday", JStr "2023-10-24");
        ("starttime", JStr "19:30"); ("status", status); ("score", score);
        ("stats", JObj [("playbyplay",
           JObj [("1", play "1"); ("2", play "2"); ("3", play "3")])])].

Definition final_payload : json := payload_with (JStr "Final") score_107_119.

(** The same game before tip-off: the provider sends [{}] for the score. *)
Definition scheduled_payload : json := payload_with (JStr "Scheduled") (JObj []).

Definition nba_game : GameShort.t :=
  {| GameShort.game_id := 1077408; GameShort.sport_code := "NBA" |}.

Definition tipoff : datetime := mk_datetime 2023 10 24 23 30.

Definition scheduled_info : GameLastInfo.t :=
  {| GameLastInfo.game_short := nba_game;
     GameLastInfo.gamedatetime := tipoff;
     GameLastInfo.status := "Scheduled";
     GameLastInfo.score_visitor := None;
     GameLastInfo.score_home := None;
     GameLastInfo.score_overtime := None;
     GameLastInfo.playbyplay_ids := Some {[1; 2]} |}.

Definition final_info : GameLastInfo.t :=
  {| GameLastInfo.game_short := nba_game;
     GameLastInfo.gamedatetime := tipoff;
     GameLastInfo.status := "Final";
     GameLastInfo.score_visitor := Some 107;
     GameLastInfo.score_home := Some 119;
     GameLastInfo.score_overtime := Some "N";
     GameLastInfo.playbyplay_ids := Some {[1; 2; 3]} |}.

Definition store_of (info : GameLastInfo.t) : gmap string GameLastInfo.t :=
  {[GameShort.key (GameLastInfo.game_short info) := info]}.

(** The provider's envelope around one game. *)
Definition envelope (game : json) : json :=
  JObj [("success", JStr "1"); ("games", JObj [("1077408", game)])].

Definition fetch_final (sport_code : string) (game_id : Z) : res json :=
  Ok (envelope final_payload).

(** A client that has no data for any game. *)
Definition fetch_nothing (sport_code : string) (game_id : Z) : res json := Ok JNull.

(** One hour before tip-off, on a host whose local time is UTC. *)
Definition clock_before_tipoff : Clock :=
  {| utc_now := tipoff - timedelta_hours 1; utc_offset := 0 |}.

(** The delta of a fetch that brought nothing new. *)
Definition unchanged_delta : GameChanges.t :=
  {| GameChanges.game_short := nba_game;
     GameChanges.game_data := final_payload;
     GameChanges.status := None;
     GameChanges.gamedatetime := None;
     GameChanges.score_visitor := None;
     GameChanges.score_home := None;
     GameChanges.score_overtime := None;
     GameChanges.playbyplay_changes := Some [] |}.

(** The delta of the first fetch of the game before tip-off. *)
Definition scheduled_delta : GameChanges.t :=
  {| GameChanges.game_short := nba_game;
     GameChanges.game_data := scheduled_payload;
     GameChanges.status := Some "Scheduled";
     GameChanges.gamedatetime := Some tipoff;
     GameChanges.score_visitor := None;
     GameChanges.score_home := None;
     GameChanges.score_overtime := None;
     GameChanges.playbyplay_changes := Some [play "1"; play "2"; play "3"] |}.

(** The delta from [scheduled_info] to the final payload. *)
Definition final_delta : GameChanges.t :=
  {| GameChanges.game_short := nba_game;
     GameChanges.game_data := final_payload;
     GameChanges.status := Some "Final";
     GameChanges.gamedatetime := None;
     GameChanges.score_visitor := Some 107;
     GameChanges.score_home := Some 119;
     GameChanges.score_overtime := Some "N";
     GameChanges.playbyplay_changes := Some [play "3"] |}.

(** The delta from nothing to the final payload. *)
Definition first_final_delta : GameChanges.t :=
  {| GameChanges.game_short := nba_game;
     GameChanges.game_data := final_payload;
     GameChanges.status := Some "Final";
     GameChanges.gamedatetime := Some tipoff;
     GameChanges.score_visitor := Some 107;
     GameChanges.score_home := Some 119;
     GameChanges.score_overtime := Some "N";
     GameChanges.playbyplay_changes := Some [play "1"; play "2"; play "3"] |}.

Definition in_progress_info : GameLastInfo.t :=
  {| GameLastInfo.game_short := nba_game;
     GameLastInfo.gamedatetime := tipoff;
     GameLastInfo.status := "InProgress";
     GameLastInfo.score_visitor := Some 54;
     GameLastInfo.score_home := Some 63;
     GameLastInfo.score_overtime := Some "N";
     GameLastInfo.playbyplay_ids := Some {[1; 2]} |}.

Definition clock_2h59_before_tipoff : Clock :=
  {| utc_now := tipoff - timedelta_hm 2 59; utc_offset := 0 |}.

Definition clock_2h59_after_tipoff : Clock :=
  {| utc_now := tipoff + timedelta_hm 2 59; utc_offset := 0 |}.

(** Four hours after tip-off, on a host two hours ahead of UTC. *)
Definition clock_4h_after_tipoff_utc_plus_2 : Clock :=
  {| utc_now := tipoff + timedelta_hours 4; utc_offset := timedelta_hours 2 |}.

(** An envelope with two games for a single-game query. *)
Definition two_games_envelope : json :=
  JObj [("success", JStr "1");
        ("games", JObj [("1077408", final_payload); ("1077409", final_payload)])].

Definition fetch_two_games (sport_code : string) (game_id : Z) : res json :=
  Ok two_games_envelope.

(** The final payload with a visitor score that is no number. *)
Definition garbled_score_payload : json :=
  payload_with (JStr "Final")
    (JObj [("visitor", JStr "n/a"); ("home", JStr "119"); ("overtime", JStr "N")]).


(** A payload without a status. *)
Definition payload_without_status : json :=
  JObj [("id", JStr "1077408"); ("gameday", JStr "2023-10-24");
        ("starttime", JStr "19:30"); ("score", score_107_119)].

(** A body without the "success" field and without "games". *)
Definition error_body : json := JObj [("error", JStr "unavailable")].

Definition fetch_error_body (sport_code : string) (game_id : Z) : res json :=
  Ok error_body.

End Examples.

(** ** The invariant of the store's keys *)

(** Every entry is stored under the key of its own game. *)
Definition keyed (st : gmap string GameLastInfo.t) : Prop :=
  map_Forall (fun k info => k = GameShort.key (GameLastInfo.game_short info)) st.


(** ** [app/background/live_games/runtimes.py]: the update of future games *)

(** [range(start, stop, step)] for a positive step, by a count of steps
    that [stop] bounds. *)
Fixpoint range_from (fuel start stop step : nat) : list nat :=
  match fuel with
  | O => []
  | S fuel' =>
      if Nat.ltb start stop then start :: range_from fuel' (start + step) stop step
      else []
  end.

(** [range(0, stop, step)]: a zero step is refused, and a negative step
    counts down from 0, which gives nothing. *)
Definition py_range (stop : nat) (step : Z) : res (list nat) :=
  if step =? 0 then Raise ValueError
  else if step <? 0 then Ok []
  else Ok (range_from stop 0 stop (Z.to_nat step)).

Module FutureGamesUpdateRuntime.

(** [FetchedGamesResult] *)
Record FetchedGamesResult : Type := {
  is_successful : bool;
  games_data : list json
}.

(** Validation of [games_data: list[dict]] by the model class. *)
Definition validate_games_data (games : list json) : res (list json) :=
  if forallb is_dict games then Ok games else Raise ValidationError.

Definition parse_games_response (raw_response : json) : res FetchedGamesResult :=
  bad ←
    (if is_none raw_response then Ok true
     else
       success ← py_getitem raw_response "success";
       Ok (eq_str success "0"));
  if bad : bool then
    (* got bad response *)
    Ok {| is_successful := false; games_data := [] |}
  else
    games ← py_getitem raw_response "games";
    games ← py_values games;
    games ← validate_games_data games;
    Ok {| is_successful := true; games_data := games |}.

(** The calls of this runtime to the datastore; [game_ids] is built from a
    set, so its order is not fixed. *)
Inductive DbCall : Type :=
| mark_games_as_removed (sport_code : string) (game_ids : gset Z)
| upsert_games (sport_code : string) (games : list json).

Definition default_batch_size : Z := 500.

(** The batches are handed to [db_client.upsert_games] one after the
    other; [range] is evaluated before the first of them. *)
Definition upsert_games_in_batches (sport_code : string) (games : list json)
    (batch_size : Z) : res (list DbCall) :=
  starts ← py_range (length games) batch_size;
  Ok (map (fun start =>
             let batch := take (Z.to_nat batch_size) (drop start games) in
             upsert_games sport_code batch) starts).

Section Runtime.
(** The ids of [db_client.get_games_in_date_range(sport_code,
    reference_dt, reference_dt + 10 days)]. *)
Context (get_games_in_date_range : string -> list Z).
(** [self.client.fetch_games_in_range(sport_code, start, end)] for the
    runtime's reference day and the day 100 days later. *)
Context (fetch_games_in_range : string -> res json).

Definition mark_removed_games (sport_code : string) (fetched_games : list json)
    : res (list DbCall) :=
  let existing_game_ids : gset Z := list_to_set (get_games_in_date_range sport_code) in
  fetched ← mapM event_id fetched_games;
  let fetched_game_ids : gset Z := list_to_set fetched in
  let game_ids_to_remove := existing_game_ids ∖ fetched_game_ids in
  if bool_decide (game_ids_to_remove ≠ ∅)
  then Ok [mark_games_as_removed sport_code game_ids_to_remove]
  else Ok [].

(** The loop over [zip(sports, fetched_games_results)]: the calls made,
    and how the loop ended. *)
Fixpoint upsert_future_games (sports : list string)
    (fetched_games_results : list FetchedGamesResult) : list DbCall * res unit :=
  match sports, fetched_games_results with
  | sport :: sports', fetched_games_result :: results' =>
      if negb (is_successful fetched_games_result)
      then upsert_future_games sports' results'
      else
        let games := games_data fetched_games_result in
        match mark_removed_games sport games with
        | Raise e => ([], Raise e)
        | Ok marked =>
            match upsert_games_in_batches sport games default_batch_size with
            | Raise e => (marked, Raise e)
            | Ok upserted =>
                let (calls, r) := upsert_future_games sports' results' in
                (marked ++ upserted ++ calls, r)
            end
        end
  | _, _ => ([], Ok tt)
  end.

Definition get_future_games_by_sport (sport_code : string) : res FetchedGamesResult :=
  response ← fetch_games_in_range sport_code;
  parse_games_response response.

(** [async_run] for the sport codes that [get_basketball_sports] returns. *)
Definition async_run (sports : list string) : list DbCall * res unit :=
  match mapM get_future_games_by_sport sports with
  | Raise e => ([], Raise e)
  | Ok fetched_games_results => upsert_future_games sports fetched_games_results
  end.

End Runtime.
End FutureGamesUpdateRuntime.

(** The games that a log of calls upserts for a sport, in order. *)
Definition upserted_for (sport_code : string)
    (calls : list FutureGamesUpdateRuntime.DbCall) : list json :=
  mjoin (omap (fun call =>
    match call with
    | FutureGamesUpdateRuntime.upsert_games s games =>
        if String.eqb s sport_code then Some games else None
    | _ => None
    end) calls).

(** The sport a call is made for. *)
Definition sport_code_of (call : FutureGamesUpdateRuntime.DbCall) : string :=
  match call with
  | FutureGamesUpdateRuntime.mark_games_as_removed s _ => s
  | FutureGamesUpdateRuntime.upsert_games s _ => s
  end.

(** ** More of [app/common/utils.py] *)

(** [bool(v)], as [if v:] tests it. *)
Definition py_truthy (v : json) : bool :=
  match v with
  | JNull => false
  | JBool b => b
  | JNum n => negb (n =? 0)
  | JStr s => negb (String.eqb s EmptyString)
  | JArr l => match l with [] => false | _ :: _ => true end
  | JObj d => match d with [] => false | _ :: _ => true end
  end.

(** [s.split(sep)] for a separator of one character; [acc] is the piece
    read so far. *)
Fixpoint split_on (sep : ascii) (acc : string) (s : string) : list string :=
  match s with
  | EmptyString => [acc]
  | String c s' =>
      if Ascii.eqb c sep then acc :: split_on sep EmptyString s'
      else split_on sep (acc +:+ String c EmptyString) s'
  end.

(** Only a string has [split]. *)
Definition transform_sequence (sequence_str : json) : res json :=
  if py_truthy sequence_str then
    match sequence_str with
    | JStr s => Ok (JStr (List.last (split_on "-" EmptyString s) EmptyString))
    | _ => Raise AttributeError
    end
  else Ok JNull.

(** ** [app/db/db_client.py]: the row of a live game *)



(** ** [app/db/db_client.py]: the play-by-play rows of a live game *)

(** [v.get(k)]: only a dict has [get]. *)
Definition py_get (v : json) (k : string) : res json :=
  match v with
  | JObj d => Ok (default JNull (dict_get k d))
  | _ => Raise AttributeError
  end.

(** [isinstance(v, str)] *)
Definition is_str (v : json) : bool :=
  match v with JStr _ => true | _ => false end.

(** The columns of [app.db.database.GameStatPlayByPlay], with the values
    as [prepare_playbyplay_entries] passes them to the constructor. *)
Module GameStatPlayByPlay.
Record t : Type := {
  id : Z;
  game_id : Z;
  sport_code : string;
  event : json;
  period : option string;
  sequence : json;
  explanation : json;
  team_id : option Z;
  team_code : json;
  scoringplay : json;
  tags : json;
  thediff : json;
  player_primary_id : option Z;
  player_secondary_id : option Z;
  player_pitcher_id : option Z;
  distance : option Z;
  created_at : datetime
}.
End GameStatPlayByPlay.

Section PlayByPlayEntries.
(** The ids of the rows stored for the game ([game_id], [sport_code]):
    the query of [prepare_playbyplay_entries] selects, among them, the ids
    it is asked about. *)
Context (stored_ids : gset Z).

(** The constructor call of the loop's body; the arguments are evaluated
    in the order they are written. *)
Definition playbyplay_entry (play_data : json) (play_id game_id : Z)
    (sport_code : string) (created_at : datetime) : res GameStatPlayByPlay.t :=
  event ← py_get play_data "event";
  period ← get_natstat_value play_data "period" py_str;
  sequence ← py_get play_data "sequence";
  sequence ← transform_sequence sequence;
  explanation ← py_get play_data "explanation";
  explanation ←
    (if negb (is_dict explanation) then py_get play_data "explanation" else Ok JNull);
  team_id ← get_natstat_value play_data "team.id" py_int;
  team ← py_getitem play_data "team";
  has_code ← py_contains "code" team;
  team_code ←
    (if has_code : bool then
       team ← py_getitem play_data "team";
       code ← py_getitem team "code";
       if is_str code then
         team ← py_getitem play_data "team";
         py_getitem team "code"
       else Ok JNull
     else Ok JNull);
  scoringplay ← py_get play_data "scoringplay";
  tags ← py_get play_data "tags";
  thediff ← py_get play_data "thediff";
  player_primary_id ← get_natstat_value play_data "players.primary.id" py_int;
  player_secondary_id ← get_natstat_value play_data "players.secondary.id" py_int;
  player_pitcher_id ← get_natstat_value play_data "players.pitcher.id" py_int;
  distance ← get_natstat_value play_data "distance" py_int;
  Ok {| GameStatPlayByPlay.id := play_id;
        GameStatPlayByPlay.game_id := game_id;
        GameStatPlayByPlay.sport_code := sport_code;
        GameStatPlayByPlay.event := event;
        GameStatPlayByPlay.period := period;
        GameStatPlayByPlay.sequence := sequence;
        GameStatPlayByPlay.explanation := explanation;
        GameStatPlayByPlay.team_id := team_id;
        GameStatPlayByPlay.team_code := team_code;
        GameStatPlayByPlay.scoringplay := scoringplay;
        GameStatPlayByPlay.tags := tags;
        GameStatPlayByPlay.thediff := thediff;
        GameStatPlayByPlay.player_primary_id := player_primary_id;
        GameStatPlayByPlay.player_secondary_id := player_secondary_id;
        GameStatPlayByPlay.player_pitcher_id := player_pitcher_id;
        GameStatPlayByPlay.distance := distance;
        GameStatPlayByPlay.created_at := created_at |}.

(** The loop over [playbyplay_changes]. *)
Fixpoint playbyplay_entries (existing_pbp : gset Z) (playbyplay_changes : list json)
    (game_id : Z) (sport_code : string) (created_at : datetime)
    : res (list GameStatPlayByPlay.t) :=
  match playbyplay_changes with
  | [] => Ok []
  | play_data :: rest =>
      play_id ← event_id play_data;
      if decide (play_id ∈ existing_pbp)
      then playbyplay_entries existing_pbp rest game_id sport_code created_at
      else
        pbp ← playbyplay_entry play_data play_id game_id sport_code created_at;
        to_add ← playbyplay_entries existing_pbp rest game_id sport_code created_at;
        Ok (pbp :: to_add)
  end.

Definition prepare_playbyplay_entries (game_changes : GameChanges.t) (game_id : Z)
    (sport_code : string) (created_at : datetime) : res (list GameStatPlayByPlay.t) :=
  match GameChanges.playbyplay_changes game_changes with
  | None | Some [] => Ok []
  | Some playbyplay_changes =>
      asked ← mapM event_id playbyplay_changes;
      let existing_pbp : gset Z := stored_ids ∩ list_to_set asked in
      playbyplay_entries existing_pbp playbyplay_changes game_id sport_code created_at
  end.

End PlayByPlayEntries.

(** ** Example data for the update of future games *)

Module FutureExamples.

(** A game of a range response. *)
Definition future_game (i : string) : json :=
  JObj [("id", JStr i); ("gameday", JStr "2023-10-24"); ("starttime", JStr "19:30")].

Definition nba_range_response : json :=
  JObj [("success", JStr "1");
        ("games", JObj [("11", future_game "11"); ("12", future_game "12")])].

(** The provider answers for the NBA and has nothing for any other sport. *)
Definition fetch_by_sport (sport_code : string) : res json :=
  if String.eqb sport_code "NBA" then Ok nba_range_response else Ok JNull.

(** The datastore holds the games 11 and 13 of the NBA in the window, and
    the game 21 of any other sport. *)
Definition rows_in_window (sport_code : string) : list Z :=
  if String.eqb sport_code "NBA" then [11; 13] else [21].

(** A play-by-play record with a team. *)
Definition play_of_team (i : string) : json :=
  JObj [("id", JStr i); ("event", JStr "Shot"); ("sequence", JStr "2-14");
        ("team", JObj [("id", JStr "7"); ("code", JStr "LAL")])].

Definition delta_with_team : GameChanges.t :=
  {| GameChanges.game_short := Examples.nba_game;
     GameChanges.game_data := Examples.final_payload;
     GameChanges.status := None;
     GameChanges.gamedatetime := None;
     GameChanges.score_visitor := None;
     GameChanges.score_home := None;
     GameChanges.score_overtime := None;
     GameChanges.playbyplay_changes := Some [play_of_team "3"; play_of_team "4"] |}.

(** A payload with the gameday and a placeholder start time only. *)
Definition gameday_payload (gameday : string) : json :=
  JObj [("gameday", JStr gameday); ("starttime", JObj [])].

End FutureExamples.

(** * Properties *)

(** ** Results *)

Lemma bind_Ok {A B} (m : res A) (f : A -> res B) (b : B) :
  m ≫= f = Ok b <-> exists a, m = Ok a /\ f a = Ok b.
Proof.
  destruct m as [a|e]; simpl.
  - split; [intros H; exists a; auto | intros (a' & Ha & H); congruence].
  - split; [discriminate | intros (a' & Ha & _); discriminate].
Qed.

(** Splits a successful chain of binds into its steps. *)
Ltac res_inv H :=
  repeat match type of H with
  | _ ≫= _ = Ok _ =>
      let a := fresh "a" in let Ha := fresh "Ha" in
      apply bind_Ok in H as (a & Ha & H)
  | Ok _ = Ok _ => injection H as H
  | Raise _ = Ok _ => discriminate H
  end.

(** ** The store: classification *)

Section Classification.
Import InmemoryStorage.
Context (clock : Clock).

Lemma elem_of_values (st : storage) (info : GameLastInfo.t) :
  info ∈ values st <-> exists k, st !! k = Some info.
Proof.
  unfold values. rewrite list_elem_of_fmap. split.
  - intros ([k x] & -> & Hin). exists k. by apply elem_of_map_to_list.
  - intros (k & Hk). exists (k, info). split; [done|]. by apply elem_of_map_to_list.
Qed.

(** A loop that appends [f x] for the [x] that pass [p]. *)
Lemma elem_of_foldl_append {X Y} (p : X -> bool) (f : X -> Y) (l : list X) (acc : list Y) (y : Y) :
  y ∈ foldl (fun acc x => if p x then acc ++ [f x] else acc) acc l
  <-> y ∈ acc \/ exists x, x ∈ l /\ p x = true /\ f x = y.
Proof.
  revert acc. induction l as [|x l IH]; intros acc; simpl.
  - split; [auto | intros [H | (x & Hx & _)]; [done | by apply elem_of_nil in Hx]].
  - rewrite IH. destruct (p x) eqn:Hp.
    + rewrite elem_of_app, list_elem_of_singleton. split.
      * intros [[H | ->] | (x' & Hx' & Hp' & Hf)]; [by left | |].
        -- right. exists x. split; [apply list_elem_of_here | done].
        -- right. exists x'. split; [by apply list_elem_of_further | done].
      * intros [H | (x' & Hx' & Hp' & Hf)]; [by left; left |].
        apply elem_of_cons in Hx' as [-> | Hx'].
        -- left. right. done.
        -- right. exists x'. done.
    + split.
      * intros [H | (x' & Hx' & Hp' & Hf)]; [by left |].
        right. exists x'. split; [by apply list_elem_of_further | done].
      * intros [H | (x' & Hx' & Hp' & Hf)]; [by left |].
        apply elem_of_cons in Hx' as [-> | Hx']; [congruence |].
        right. exists x'. done.
Qed.

(** The condition of the [live] branch, as the loop evaluates it. *)
Lemma live_condition (info : GameLastInfo.t) :
  let now := get_utc_now clock in
  let t := GameLastInfo.gamedatetime info in
  ((now <=? t) && (t <? now + timedelta_hours 3))
  || (negb (String.eqb (GameLastInfo.status info) "Scheduled")
      && ((now - timedelta_hours 3 <=? t) && (t <? now))) = true
  <-> (now <= t < now + timedelta_hours 3)
      \/ (GameLastInfo.status info ≠ "Scheduled"
          /\ now - timedelta_hours 3 <= t < now).
Proof.
  intros now t. rewrite orb_true_iff, !andb_true_iff, negb_true_iff.
  rewrite String.eqb_neq, !Z.leb_le, !Z.ltb_lt. tauto.
Qed.

Lemma elem_of_live_games (st : storage) (g : GameShort.t) :
  g ∈ get_games_by_type clock live st
  <-> exists k info,
        st !! k = Some info /\ GameLastInfo.game_short info = g
        /\ ((get_utc_now clock <= GameLastInfo.gamedatetime info
               < get_utc_now clock + timedelta_hours 3)
            \/ (GameLastInfo.status info ≠ "Scheduled"
                /\ get_utc_now clock - timedelta_hours 3
                   <= GameLastInfo.gamedatetime info < get_utc_now clock)).
Proof.
  unfold get_games_by_type. simpl.
  rewrite (elem_of_foldl_append
    (fun info =>
       ((get_utc_now clock <=? GameLastInfo.gamedatetime info)
          && (GameLastInfo.gamedatetime info <? get_utc_now clock + timedelta_hours 3))
       || (negb (String.eqb (GameLastInfo.status info) "Scheduled")
           && ((get_utc_now clock - timedelta_hours 3 <=? GameLastInfo.gamedatetime info)
               && (GameLastInfo.gamedatetime info <? get_utc_now clock))))
    GameLastInfo.game_short).
  split.
  - intros [H | (info & Hin & Hp & Hg)]; [by apply elem_of_nil in H |].
    apply elem_of_values in Hin as (k & Hk). exists k, info.
    split; [done|]. split; [done|]. by apply (live_condition info).
  - intros (k & info & Hk & Hg & Hc). right. exists info.
    split; [apply elem_of_values; eauto |]. split; [|done].
    by apply (live_condition info).
Qed.

End Classification.

Section Buckets.
Import InmemoryStorage.
Context (clock : Clock).

Lemma foldl_unchanged {X Y} (f : Y -> X -> Y) (l : list X) (acc : Y) :
  (forall acc x, f acc x = acc) -> foldl f acc l = acc.
Proof.
  intros Hf. induction l as [|x l IH]; simpl; [done|]. by rewrite Hf.
Qed.

(** C6: the [early] bucket is empty for every store and every current
    time, because no time lies in [now < t <= now]. *)
Theorem early_bucket_always_empty (st : storage) :
  get_games_by_type clock early st = [].
Proof.
  unfold get_games_by_type. apply foldl_unchanged. intros acc info. simpl.
  destruct (get_utc_now clock <? GameLastInfo.gamedatetime info) eqn:Hlt; [|done].
  destruct (GameLastInfo.gamedatetime info <=? get_utc_now clock) eqn:Hle; [|done].
  apply Z.ltb_lt in Hlt. apply Z.leb_le in Hle. lia.
Qed.

(** C5: a stored game is in the [live] bucket exactly when its scheduled
    time is in [now, now+3h), or its status differs from "Scheduled" and
    its scheduled time is in [now-3h, now).  So a game scheduled at
    now + 2h59m with status "Scheduled" is live, one scheduled at
    now - 2h59m with status "InProgress" is live, and one scheduled at
    now - 2h59m with status "Scheduled" is not. *)
Theorem live_bucket_classification (st : storage) :
  (forall g,
     g ∈ get_games_by_type clock live st
     <-> exists k info,
           st !! k = Some info /\ GameLastInfo.game_short info = g
           /\ ((get_utc_now clock <= GameLastInfo.gamedatetime info
                  < get_utc_now clock + timedelta_hours 3)
               \/ (GameLastInfo.status info ≠ "Scheduled"
                   /\ get_utc_now clock - timedelta_hours 3
                      <= GameLastInfo.gamedatetime info < get_utc_now clock)))
  /\ (forall k info,
        st !! k = Some info ->
        GameLastInfo.gamedatetime info = get_utc_now clock + timedelta_hm 2 59 ->
        GameLastInfo.status info = "Scheduled" ->
        GameLastInfo.game_short info ∈ get_games_by_type clock live st)
  /\ (forall k info,
        st !! k = Some info ->
        GameLastInfo.gamedatetime info = get_utc_now clock - timedelta_hm 2 59 ->
        GameLastInfo.status info = "InProgress" ->
        GameLastInfo.game_short info ∈ get_games_by_type clock live st)
  /\ (forall g,
        (forall k info,
           st !! k = Some info -> GameLastInfo.game_short info = g ->
           GameLastInfo.gamedatetime info = get_utc_now clock - timedelta_hm 2 59
           /\ GameLastInfo.status info = "Scheduled") ->
        g ∉ get_games_by_type clock live st).
Proof.
  split; [apply elem_of_live_games |]. split; [|split].
  - intros k info Hk Ht Hs. apply elem_of_live_games. exists k, info.
    split; [done|]. split; [done|]. left. rewrite Ht.
    unfold timedelta_hm, timedelta_hours, usec_per_hour, usec_per_minute. lia.
  - intros k info Hk Ht Hs. apply elem_of_live_games. exists k, info.
    split; [done|]. split; [done|]. right. rewrite Ht, Hs. split; [done|].
    unfold timedelta_hm, timedelta_hours, usec_per_hour, usec_per_minute. lia.
  - intros g Hall Hin. apply elem_of_live_games in Hin as (k & info & Hk & Hg & Hc).
    destruct (Hall k info Hk Hg) as [Ht Hs]. rewrite Ht in Hc.
    unfold timedelta_hm, timedelta_hours, usec_per_hour, usec_per_minute in Hc.
    destruct Hc as [Hc | [Hne _]]; [lia | done].
Qed.

End Buckets.

(** ** The store: eviction *)

Section Eviction.
Import InmemoryStorage.

(** What [clean_old_records] keeps, against the clock it reads: the host's
    local time. *)
Lemma clean_old_records_lookup (clock : Clock) (st : storage) (k : string)
    (info : GameLastInfo.t) :
  clean_old_records clock st !! k = Some info
  <-> st !! k = Some info
      /\ datetime_now clock - timedelta_hours 5 <= GameLastInfo.gamedatetime info.
Proof. unfold clean_old_records. by rewrite map_lookup_filter_Some. Qed.

Lemma clean_old_records_removed (clock : Clock) (st : storage) (k : string)
    (info : GameLastInfo.t) :
  st !! k = Some info ->
  GameLastInfo.gamedatetime info < datetime_now clock - timedelta_hours 5 ->
  clean_old_records clock st !! k = None.
Proof.
  intros Hk Hold. unfold clean_old_records. apply map_lookup_filter_None.
  right. intros x Hx. simpl. rewrite Hk in Hx. injection Hx as <-. lia.
Qed.

(** C4: on a host whose local time is two hours ahead of UTC, a game
    scheduled four hours before the current UTC time is removed, although
    it is younger than five hours. *)
Theorem clean_old_records_on_host_ahead_of_utc (clock : Clock) (st : storage)
    (k : string) (info : GameLastInfo.t) :
  utc_offset clock = timedelta_hours 2 ->
  st !! k = Some info ->
  GameLastInfo.gamedatetime info = get_utc_now clock - timedelta_hours 4 ->
  clean_old_records clock st !! k = None.
Proof.
  intros Hoff Hk Ht. apply (clean_old_records_removed clock st k info Hk).
  rewrite Ht. unfold datetime_now, get_utc_now. rewrite Hoff.
  unfold timedelta_hours, usec_per_hour, usec_per_minute. lia.
Qed.

(** On a host whose local time is UTC, eviction is by the UTC clock:
    exactly the entries scheduled before now - 5h go, the others stay as
    they are. *)
Theorem clean_old_records_on_utc_host (clock : Clock) (st : storage) (k : string) :
  utc_offset clock = 0 ->
  clean_old_records clock st !! k =
    match st !! k with
    | Some info =>
        if bool_decide (GameLastInfo.gamedatetime info
                        < get_utc_now clock - timedelta_hours 5)
        then None else Some info
    | None => None
    end.
Proof.
  intros Hoff. unfold clean_old_records, datetime_now, get_utc_now.
  rewrite Hoff, Z.add_0_r. destruct (st !! k) as [info|] eqn:Hk.
  - case_bool_decide as Hlt.
    + apply map_lookup_filter_None. right. intros x Hx. simpl.
      rewrite Hk in Hx. injection Hx as <-. lia.
    + apply map_lookup_filter_Some. split; [done|]. simpl. lia.
  - apply map_lookup_filter_None. by left.
Qed.

End Eviction.

(** ** The store: applying deltas *)

Section Apply.
Import InmemoryStorage.
Context (ny_to_utc : datetime -> res datetime).

(** The five fields after the loop over [generic_keys]. *)
Lemma copy_attrs_fields (gc : GameChanges.t) (li : GameLastInfo.t) :
  let li' := foldl (copy_attr gc) li generic_keys in
  GameLastInfo.game_short li' = GameLastInfo.game_short li
  /\ GameLastInfo.status li' = default (GameLastInfo.status li) (GameChanges.status gc)
  /\ GameLastInfo.gamedatetime li'
     = default (GameLastInfo.gamedatetime li) (GameChanges.gamedatetime gc)
  /\ GameLastInfo.score_visitor li'
     = match GameChanges.score_visitor gc with
       | Some v => Some v
       | None => GameLastInfo.score_visitor li
       end
  /\ GameLastInfo.score_home li'
     = match GameChanges.score_home gc with
       | Some v => Some v
       | None => GameLastInfo.score_home li
       end
  /\ GameLastInfo.score_overtime li'
     = match GameChanges.score_overtime gc with
       | Some v => Some v
       | None => GameLastInfo.score_overtime li
       end
  /\ GameLastInfo.playbyplay_ids li' = GameLastInfo.playbyplay_ids li.
Proof.
  destruct gc as [g s t sv sh so pb gd]; simpl.
  destruct s, t, sv, sh, so; simpl; repeat split; reflexivity.
Qed.

End Apply.

Section ApplyDeltas.
Import InmemoryStorage.
Context (ny_to_utc : datetime -> res datetime).

Lemma last_info_for_cases (st st0 : storage) (gc : GameChanges.t) (li : GameLastInfo.t) :
  last_info_for ny_to_utc st gc = Ok (st0, li) ->
  (st !! GameShort.key (GameChanges.game_short gc) = Some li /\ st0 = st)
  \/ (st !! GameShort.key (GameChanges.game_short gc) = None
      /\ st0 = <[GameShort.key (GameChanges.game_short gc) := li]> st
      /\ GameLastInfo.playbyplay_ids li = None
      /\ GameLastInfo.game_short li = GameChanges.game_short gc).
Proof.
  unfold last_info_for, get_last_info.
  destruct (st !! GameShort.key (GameChanges.game_short gc)) as [li0|] eqn:Hk.
  - intros H. simplify_eq. by left.
  - intros H. res_inv H. simplify_eq. right. done.
Qed.

Lemma update_game_after (st st0 : storage) (gc : GameChanges.t) (li : GameLastInfo.t) :
  last_info_for ny_to_utc st gc = Ok (st0, li) ->
  (update_game ny_to_utc st gc).1
  = <[GameShort.key (GameChanges.game_short gc) := with_incoming gc li]> st0.
Proof.
  intros Hli. unfold update_game, with_incoming, incoming_ids. rewrite Hli.
  cbv beta iota zeta.
  generalize (foldl (copy_attr gc) li generic_keys). intros li1.
  destruct (GameChanges.playbyplay_changes gc) as [[|item items]|]; [done | | done].
  destruct (mapM event_id (item :: items)) as [ids|e]; [|done].
  simpl. rewrite insert_insert_eq.
  destruct (GameLastInfo.playbyplay_ids li1) as [known|]; simpl; [done|].
  by rewrite (left_id_L ∅ (∪)).
Qed.

Lemma update_game_raise (st : storage) (gc : GameChanges.t) (e : exn) :
  last_info_for ny_to_utc st gc = Raise e ->
  update_game ny_to_utc st gc = (st, Raise e).
Proof. intros Hli. unfold update_game. by rewrite Hli. Qed.

(** A delta touches no entry but the one under its key. *)
Lemma update_game_frame (st : storage) (gc : GameChanges.t) (k : string) :
  k ≠ GameShort.key (GameChanges.game_short gc) ->
  (update_game ny_to_utc st gc).1 !! k = st !! k.
Proof.
  intros Hne. destruct (last_info_for ny_to_utc st gc) as [[st0 li]|e] eqn:Hli.
  - rewrite (update_game_after _ _ _ _ Hli), lookup_insert_ne by done.
    apply last_info_for_cases in Hli as [[_ ->] | (_ & -> & _)]; [done|].
    by rewrite lookup_insert_ne.
  - by rewrite (update_game_raise _ _ _ Hli).
Qed.

Lemma with_incoming_ids (gc : GameChanges.t) (li : GameLastInfo.t) :
  default ∅ (GameLastInfo.playbyplay_ids (with_incoming gc li))
  = default ∅ (GameLastInfo.playbyplay_ids li) ∪ default ∅ (incoming_ids gc).
Proof.
  unfold with_incoming.
  destruct (copy_attrs_fields gc li) as (_ & _ & _ & _ & _ & _ & Hids).
  revert Hids. generalize (foldl (copy_attr gc) li generic_keys). intros li1 Hids.
  destruct (incoming_ids gc) as [new|]; simpl.
  - by rewrite Hids.
  - rewrite Hids. by rewrite (right_id_L ∅ (∪)).
Qed.

(** The ids known for the delta's game after it was applied. *)
Lemma update_game_known_ids (st st0 : storage) (gc : GameChanges.t) (li : GameLastInfo.t) :
  last_info_for ny_to_utc st gc = Ok (st0, li) ->
  known_event_ids (update_game ny_to_utc st gc).1 (GameShort.key (GameChanges.game_short gc))
  = known_event_ids st (GameShort.key (GameChanges.game_short gc))
    ∪ default ∅ (incoming_ids gc).
Proof.
  intros Hli. rewrite (update_game_after _ _ _ _ Hli). unfold known_event_ids.
  rewrite lookup_insert_eq, with_incoming_ids.
  apply last_info_for_cases in Hli as [[-> _] | (-> & _ & -> & _)]; done.
Qed.

Lemma update_game_monotone (st : storage) (gc : GameChanges.t) (k : string) :
  known_event_ids st k ⊆ known_event_ids (update_game ny_to_utc st gc).1 k.
Proof.
  destruct (decide (k = GameShort.key (GameChanges.game_short gc))) as [->|Hne].
  - destruct (last_info_for ny_to_utc st gc) as [[st0 li]|e] eqn:Hli.
    + rewrite (update_game_known_ids _ _ _ _ Hli). set_solver.
    + by rewrite (update_game_raise _ _ _ Hli).
  - unfold known_event_ids. by rewrite update_game_frame.
Qed.

Lemma update_games_list_monotone (changes : list GameChanges.t) (st : storage) (k : string) :
  known_event_ids st k ⊆ known_event_ids (update_games_list ny_to_utc st changes).1 k.
Proof.
  revert st. induction changes as [|gc changes IH]; intros st; simpl; [done|].
  pose proof (update_game_monotone st gc k) as Hstep.
  destruct (update_game ny_to_utc st gc) as [st1 [u|e]]; simpl in *; [|done].
  etrans; [exact Hstep | apply IH].
Qed.

Lemma update_games_list_single (st : storage) (gc : GameChanges.t) :
  update_games_list ny_to_utc st [gc] = update_game ny_to_utc st gc.
Proof.
  simpl. by destruct (update_game ny_to_utc st gc) as [st1 [[]|e]].
Qed.

(** C9: a delta applied to a stored game overwrites exactly the fields it
    carries: each of status, gamedatetime, score_visitor, score_home and
    score_overtime takes the delta's value when it is present and keeps the
    stored value when it is absent; the entry keeps its key, and every other
    entry of the store is unchanged. *)
Theorem update_games_list_overwrites_present_fields (st : storage) (gc : GameChanges.t)
    (li : GameLastInfo.t) :
  st !! GameShort.key (GameChanges.game_short gc) = Some li ->
  let st' := (update_games_list ny_to_utc st [gc]).1 in
  (exists li',
     st' !! GameShort.key (GameChanges.game_short gc) = Some li'
     /\ GameLastInfo.game_short li' = GameLastInfo.game_short li
     /\ GameLastInfo.status li'
        = match GameChanges.status gc with
          | Some v => v
          | None => GameLastInfo.status li
          end
     /\ GameLastInfo.gamedatetime li'
        = match GameChanges.gamedatetime gc with
          | Some v => v
          | None => GameLastInfo.gamedatetime li
          end
     /\ GameLastInfo.score_visitor li'
        = match GameChanges.score_visitor gc with
          | Some v => Some v
          | None => GameLastInfo.score_visitor li
          end
     /\ GameLastInfo.score_home li'
        = match GameChanges.score_home gc with
          | Some v => Some v
          | None => GameLastInfo.score_home li
          end
     /\ GameLastInfo.score_overtime li'
        = match GameChanges.score_overtime gc with
          | Some v => Some v
          | None => GameLastInfo.score_overtime li
          end)
  /\ (forall k, k ≠ GameShort.key (GameChanges.game_short gc) -> st' !! k = st !! k).
Proof.
  intros Hk st'. subst st'. rewrite update_games_list_single. split.
  - assert (last_info_for ny_to_utc st gc = Ok (st, li)) as Hli.
    { unfold last_info_for, get_last_info. by rewrite Hk. }
    rewrite (update_game_after _ _ _ _ Hli), lookup_insert_eq.
    eexists. split; [reflexivity|]. unfold with_incoming.
    destruct (copy_attrs_fields gc li) as (Hg & Hs & Ht & Hv & Hh & Ho & _).
    revert Hg Hs Ht Hv Hh Ho. generalize (foldl (copy_attr gc) li generic_keys).
    intros li1 Hg Hs Ht Hv Hh Ho.
    destruct (incoming_ids gc); simpl; rewrite ?Hg, ?Hs, ?Ht, ?Hv, ?Hh, ?Ho;
      destruct (GameChanges.status gc), (GameChanges.gamedatetime gc); done.
  - intros k Hne. by apply update_game_frame.
Qed.

End ApplyDeltas.

(** ** Lists of results *)

Section MapM.
Context {X Y : Type} (f : X -> res Y).

Lemma mapM_res_cons (x : X) (l : list X) (r : list Y) :
  mapM f (x :: l) = Ok r <-> exists y r', f x = Ok y /\ mapM f l = Ok r' /\ r = y :: r'.
Proof.
  simpl. split.
  - intros H. res_inv H. injection H as <-. eauto.
  - intros (y & r' & -> & -> & ->). done.
Qed.

Lemma mapM_res_app (l1 l2 : list X) (r : list Y) :
  mapM f (l1 ++ l2) = Ok r
  <-> exists r1 r2, mapM f l1 = Ok r1 /\ mapM f l2 = Ok r2 /\ r = r1 ++ r2.
Proof.
  revert r. induction l1 as [|x l1 IH]; intros r.
  - simpl. split.
    + intros H. exists [], r. repeat split; done.
    + intros (r1 & r2 & H1 & H2 & ->). injection H1 as <-. done.
  - rewrite <- app_comm_cons, mapM_res_cons. split.
    + intros (y & r' & Hy & Hr' & ->). apply IH in Hr' as (r1 & r2 & H1 & H2 & ->).
      exists (y :: r1), r2. split; [|done]. apply mapM_res_cons. eauto.
    + intros (r1 & r2 & H1 & H2 & ->). apply mapM_res_cons in H1 as (y & r' & Hy & Hr' & ->).
      exists y, (r' ++ r2). split; [done|]. split; [|done]. apply IH. eauto.
Qed.

Lemma mapM_res_elem (l : list X) (r : list Y) (y : Y) :
  mapM f l = Ok r -> y ∈ r <-> exists x, x ∈ l /\ f x = Ok y.
Proof.
  revert r. induction l as [|x l IH]; intros r H.
  - simpl in H. injection H as <-. split; [by intros ?%elem_of_nil |].
    by intros (x & ?%elem_of_nil & _).
  - apply mapM_res_cons in H as (y' & r' & Hy' & Hr' & ->).
    rewrite elem_of_cons, (IH r' Hr'). split.
    + intros [-> | (x' & Hx' & Hf)].
      * exists x. split; [apply list_elem_of_here | done].
      * exists x'. split; [by apply list_elem_of_further | done].
    + intros (x' & Hx' & Hf). apply elem_of_cons in Hx' as [-> | Hx'].
      * left. congruence.
      * right. eauto.
Qed.

End MapM.

(** ** The change detector *)

Section Diff.
Import GameChangeConvertor.
Context (ny_to_utc : datetime -> res datetime).

Lemma filter_by_id_elem (ids : gset Z) (items evs : list json) (ev : json) :
  filter_by_id ids items = Ok evs -> ev ∈ evs ->
  ev ∈ items /\ exists i, event_id ev = Ok i /\ i ∈ ids.
Proof.
  revert evs. induction items as [|item items IH]; intros evs H Hin; simpl in H.
  - simplify_eq. by apply elem_of_nil in Hin.
  - res_inv H. rename a into i, a0 into rest. destruct (decide (i ∈ ids)) as [Hi|Hi].
    + subst evs. apply elem_of_cons in Hin as [-> | Hin].
      * split; [apply list_elem_of_here | eauto].
      * destruct (IH rest Ha0 Hin) as [? ?]. split; [by apply list_elem_of_further | done].
    + subst evs. destruct (IH rest Ha0 Hin) as [? ?].
      split; [by apply list_elem_of_further | done].
Qed.

(** When every id can be read, the filter returns: it keeps the records
    whose id is in [ids], in the payload's order. *)
Lemma filter_by_id_total (ids : gset Z) (items : list json) (l : list Z) :
  mapM event_id items = Ok l ->
  exists evs, filter_by_id ids items = Ok evs
    /\ forall ev, ev ∈ evs <-> ev ∈ items /\ exists i, event_id ev = Ok i /\ i ∈ ids.
Proof.
  revert l. induction items as [|item items IH]; intros l H; simpl in H.
  - exists []. split; [done|]. intros ev. split; [by intros ?%elem_of_nil | by intros [?%elem_of_nil _]].
  - res_inv H. rename a into i, a0 into l'. destruct (IH l' Ha0) as (evs & Hevs & Hspec).
    exists (if decide (i ∈ ids) then item :: evs else evs). split.
    + simpl. rewrite Ha. simpl. rewrite Hevs. done.
    + intros ev. destruct (decide (i ∈ ids)) as [Hi|Hi].
      * rewrite !elem_of_cons, Hspec. split.
        -- intros [-> | [? ?]]; [split; [by left | eauto] | split; [by right | done]].
        -- intros [[-> | ?] Hex]; [by left | right; done].
      * rewrite elem_of_cons, Hspec. split.
        -- intros [? ?]. split; [by right | done].
        -- intros [[-> | ?] (i' & Hi' & Hin')]; [|eauto].
           rewrite Ha in Hi'. simplify_eq. done.
Qed.

(** The new events of a delta never carry an id the previous state knows. *)
Lemma new_events_are_unknown (li : GameLastInfo.t) (game_data : json) (known : gset Z)
    (evs : list json) (ev : json) (i : Z) :
  GameLastInfo.playbyplay_ids li = Some known ->
  get_play_by_play_changes (Some li) game_data = Ok (Some evs) ->
  ev ∈ evs -> event_id ev = Ok i -> i ∉ known.
Proof.
  intros Hknown H Hin Hi. unfold get_play_by_play_changes in H.
  destruct (is_none (jmespath_search "stats.playbyplay" game_data)); [done|].
  rewrite Hknown in H. res_inv H. simplify_eq.
  destruct (filter_by_id_elem _ _ _ _ Ha1 Hin) as (_ & i' & Hi' & Hnew).
  rewrite Hi in Hi'. injection Hi' as <-.
  by apply elem_of_difference in Hnew as [_ ?].
Qed.

(** The ids a previous state knows. *)
Lemma get_play_by_play_changes_returns (last_info : option GameLastInfo.t)
    (game_data : json) (d : list (string * json)) (ids : list Z) :
  jmespath_search "stats.playbyplay" game_data = JObj d ->
  mapM event_id (dict_values d) = Ok ids ->
  exists evs,
    get_play_by_play_changes last_info game_data = Ok (Some evs)
    /\ forall ev,
         ev ∈ evs
         <-> ev ∈ dict_values d
             /\ exists i, event_id ev = Ok i
                  /\ i ∉ default ∅ (last_info ≫= GameLastInfo.playbyplay_ids).
Proof.
  intros Hpbps Hids. unfold get_play_by_play_changes. rewrite Hpbps. simpl.
  rewrite Hids. simpl.
  set (new_ids := match last_info with
                  | Some li =>
                      match GameLastInfo.playbyplay_ids li with
                      | Some known => list_to_set ids ∖ known
                      | None => list_to_set ids
                      end
                  | None => list_to_set ids
                  end : gset Z).
  destruct (filter_by_id_total new_ids _ _ Hids) as (evs & Hevs & Hspec).
  exists evs. rewrite Hevs. split; [done|]. intros ev. rewrite Hspec.
  split; intros [Hin (i & Hi & Hmem)]; (split; [done|]); exists i; (split; [done|]).
  - subst new_ids. destruct last_info as [li|]; simpl; [|apply not_elem_of_empty].
    destruct (GameLastInfo.playbyplay_ids li); simpl; [|apply not_elem_of_empty].
    by apply elem_of_difference in Hmem as [_ ?].
  - assert (i ∈ (list_to_set ids : gset Z)) as Hall.
    { apply elem_of_list_to_set. apply (mapM_res_elem event_id _ _ _ Hids). eauto. }
    subst new_ids. destruct last_info as [li|]; simpl in *; [|done].
    destruct (GameLastInfo.playbyplay_ids li); simpl in *; [|done].
    by apply elem_of_difference.
Qed.

End Diff.

(** ** The known event ids over lists of deltas *)

Section Accumulate.
Import InmemoryStorage.
Context (ny_to_utc : datetime -> res datetime).

(** The ids known under any key after one delta was applied. *)
Lemma update_game_ids (st : storage) (gc : GameChanges.t) (k : string) :
  (update_game ny_to_utc st gc).2 = Ok tt ->
  known_event_ids (update_game ny_to_utc st gc).1 k
  = known_event_ids st k ∪ incoming_for k [gc].
Proof.
  intros Hok. unfold incoming_for. simpl. rewrite (right_id_L ∅ (∪)).
  destruct (decide (GameShort.key (GameChanges.game_short gc) = k)) as [<-|Hne].
  - destruct (last_info_for ny_to_utc st gc) as [[st0 li]|e] eqn:Hli.
    + by apply (update_game_known_ids ny_to_utc st st0 gc li).
    + rewrite (update_game_raise ny_to_utc _ _ _ Hli) in Hok. discriminate Hok.
  - unfold known_event_ids. rewrite update_game_frame by done.
    by rewrite (right_id_L ∅ (∪)).
Qed.

(** A delta whose application raises leaves the known ids as they were. *)
Lemma update_game_ids_raise (st : storage) (gc : GameChanges.t) (e : exn) (k : string) :
  (update_game ny_to_utc st gc).2 = Raise e ->
  known_event_ids (update_game ny_to_utc st gc).1 k = known_event_ids st k.
Proof.
  intros Hraise.
  destruct (decide (k = GameShort.key (GameChanges.game_short gc))) as [->|Hne].
  - destruct (last_info_for ny_to_utc st gc) as [[st0 li]|e0] eqn:Hli.
    + rewrite (update_game_known_ids ny_to_utc st st0 gc li Hli).
      assert (incoming_ids gc = None) as ->.
      { unfold update_game in Hraise. rewrite Hli in Hraise. unfold incoming_ids.
        cbv beta iota zeta in Hraise.
        destruct (GameChanges.playbyplay_changes gc) as [[|item items]|]; [done | | done].
        by destruct (mapM event_id (item :: items)). }
      simpl. by rewrite (right_id_L ∅ (∪)).
    + by rewrite (update_game_raise ny_to_utc _ _ _ Hli).
  - unfold known_event_ids. by rewrite update_game_frame.
Qed.

Lemma incoming_for_cons (k : string) (gc : GameChanges.t) (changes : list GameChanges.t) :
  incoming_for k (gc :: changes) = incoming_for k [gc] ∪ incoming_for k changes.
Proof. unfold incoming_for. simpl. by rewrite (right_id_L ∅ (∪)). Qed.

Lemma incoming_for_app (k : string) (l1 l2 : list GameChanges.t) :
  incoming_for k (l1 ++ l2) = incoming_for k l1 ∪ incoming_for k l2.
Proof. unfold incoming_for. by rewrite fmap_app, union_list_app_L. Qed.

(** The ids known after a list of deltas: those known before and those of
    the deltas that were applied, which are all of them when the list
    completes and those before the raising one otherwise. *)
Lemma update_games_list_ids (changes : list GameChanges.t) (st : storage) :
  exists applied rest,
    changes = applied ++ rest
    /\ match (update_games_list ny_to_utc st changes).2 with
       | Ok _ => rest = []
       | Raise _ => rest ≠ []
       end
    /\ forall k,
         known_event_ids (update_games_list ny_to_utc st changes).1 k
         = known_event_ids st k ∪ incoming_for k applied.
Proof.
  revert st. induction changes as [|gc changes IH]; intros st.
  - exists [], []. split; [done|]. split; [done|]. intros k.
    unfold incoming_for. simpl. by rewrite (right_id_L ∅ (∪)).
  - simpl.
    pose proof (update_game_ids st gc) as Hok.
    pose proof (update_game_ids_raise st gc) as Hraise.
    destruct (update_game ny_to_utc st gc) as [st1 [[]|e]]; cbn [fst snd] in *.
    + destruct (IH st1) as (applied & rest & -> & Hrest & Hids).
      exists (gc :: applied), rest. split; [done|]. split; [done|]. intros k.
      rewrite Hids, (Hok k eq_refl), (incoming_for_cons k gc applied).
      by rewrite (assoc_L (∪)).
    + exists [], (gc :: changes). split; [done|]. split; [done|]. intros k.
      rewrite (Hraise e k eq_refl). unfold incoming_for. simpl.
      by rewrite (right_id_L ∅ (∪)).
Qed.

Lemma update_games_list_app (l1 l2 : list GameChanges.t) (st : storage) :
  update_games_list ny_to_utc st (l1 ++ l2)
  = match update_games_list ny_to_utc st l1 with
    | (st1, Ok _) => update_games_list ny_to_utc st1 l2
    | (st1, Raise e) => (st1, Raise e)
    end.
Proof.
  revert st. induction l1 as [|gc l1 IH]; intros st; simpl; [done|].
  destruct (update_game ny_to_utc st gc) as [st1 [[]|e]]; [apply IH | done].
Qed.

(** Batches that complete one after the other are one list of deltas. *)
Lemma update_games_list_batches (batches : list (list GameChanges.t)) (st : storage) :
  (update_games_list ny_to_utc st (concat batches)).2 = Ok tt ->
  foldl (fun st batch => (update_games_list ny_to_utc st batch).1) st batches
  = (update_games_list ny_to_utc st (concat batches)).1.
Proof.
  revert st. induction batches as [|batch batches IH]; intros st; simpl; [done|].
  rewrite update_games_list_app.
  destruct (update_games_list ny_to_utc st batch) as [st1 [[]|e]]; simpl; [|done].
  apply IH.
Qed.

End Accumulate.

(** C3: over every sequence of deltas applied by [update_games_list], the
    set of event ids known for a game only grows, and it grows by a union:
    after a list of deltas the ids known under every key are those known
    before together with the incoming ids of the deltas applied for that
    key, which are all the deltas of the list when it completes and those
    before the raising one otherwise; the same holds over batches applied
    one after the other.  The new events of a delta never carry an id that
    the previous state already knows, and on a payload whose events all
    carry a readable id the diff returns exactly the events whose id is not
    known. *)
Theorem event_ids_accumulate (ny_to_utc : datetime -> res datetime) :
  (forall (batches : list (list GameChanges.t)) (st : gmap string GameLastInfo.t) (k : string),
     known_event_ids st k
     ⊆ known_event_ids
         (foldl (fun st batch => (InmemoryStorage.update_games_list ny_to_utc st batch).1)
                st batches) k)
  /\ (forall (st : gmap string GameLastInfo.t) (gc : GameChanges.t),
        (InmemoryStorage.update_games_list ny_to_utc st [gc]).2 = Ok tt ->
        known_event_ids (InmemoryStorage.update_games_list ny_to_utc st [gc]).1
                        (GameShort.key (GameChanges.game_short gc))
        = known_event_ids st (GameShort.key (GameChanges.game_short gc))
          ∪ default ∅ (incoming_ids gc))
  /\ (forall (li : GameLastInfo.t) (game_data : json) (known : gset Z)
             (evs : list json) (ev : json) (i : Z),
        GameLastInfo.playbyplay_ids li = Some known ->
        GameChangeConvertor.get_play_by_play_changes (Some li) game_data = Ok (Some evs) ->
        ev ∈ evs -> event_id ev = Ok i -> i ∉ known)
  /\ (forall (last_info : option GameLastInfo.t) (game_data : json)
             (d : list (string * json)) (ids : list Z),
        jmespath_search "stats.playbyplay" game_data = JObj d ->
        mapM event_id (dict_values d) = Ok ids ->
        exists evs,
          GameChangeConvertor.get_play_by_play_changes last_info game_data = Ok (Some evs)
          /\ forall ev,
               ev ∈ evs
               <-> ev ∈ dict_values d
                   /\ exists i, event_id ev = Ok i
                        /\ i ∉ default ∅ (last_info ≫= GameLastInfo.playbyplay_ids))
  /\ (forall (st : gmap string GameLastInfo.t) (changes : list GameChanges.t) (k : string),
        (InmemoryStorage.update_games_list ny_to_utc st changes).2 = Ok tt ->
        known_event_ids (InmemoryStorage.update_games_list ny_to_utc st changes).1 k
        = known_event_ids st k ∪ incoming_for k changes)
  /\ (forall (st : gmap string GameLastInfo.t) (changes : list GameChanges.t) (e : exn),
        (InmemoryStorage.update_games_list ny_to_utc st changes).2 = Raise e ->
        exists applied gc rest,
          changes = applied ++ gc :: rest
          /\ forall k,
               known_event_ids (InmemoryStorage.update_games_list ny_to_utc st changes).1 k
               = known_event_ids st k ∪ incoming_for k applied)
  /\ (forall (batches : list (list GameChanges.t)) (st : gmap string GameLastInfo.t)
             (k : string),
        (InmemoryStorage.update_games_list ny_to_utc st (concat batches)).2 = Ok tt ->
        known_event_ids
          (foldl (fun st batch => (InmemoryStorage.update_games_list ny_to_utc st batch).1)
                 st batches) k
        = known_event_ids st k ∪ incoming_for k (concat batches)).
Proof.
  assert (forall (st : gmap string GameLastInfo.t) (changes : list GameChanges.t) (k : string),
            (InmemoryStorage.update_games_list ny_to_utc st changes).2 = Ok tt ->
            known_event_ids (InmemoryStorage.update_games_list ny_to_utc st changes).1 k
            = known_event_ids st k ∪ incoming_for k changes) as Hall.
  { intros st changes k Hok.
    destruct (update_games_list_ids ny_to_utc changes st)
      as (applied & rest & -> & Hrest & Hids).
    rewrite Hok in Hrest. subst rest. rewrite app_nil_r in *. apply Hids. }
  split; [|split; [|split; [|split; [|split; [|split]]]]].
  - intros batches. induction batches as [|batch batches IH]; intros st k; simpl; [done|].
    etrans; [apply (update_games_list_monotone ny_to_utc batch) | apply IH].
  - intros st gc. rewrite update_games_list_single. intros Hok.
    destruct (InmemoryStorage.last_info_for ny_to_utc st gc) as [[st0 li]|e] eqn:Hli.
    + by apply (update_game_known_ids ny_to_utc st st0 gc li).
    + rewrite (update_game_raise ny_to_utc _ _ _ Hli) in Hok. discriminate Hok.
  - apply new_events_are_unknown.
  - apply get_play_by_play_changes_returns.
  - exact Hall.
  - intros st changes e Hraise.
    destruct (update_games_list_ids ny_to_utc changes st)
      as (applied & rest & -> & Hrest & Hids).
    rewrite Hraise in Hrest. destruct rest as [|gc rest]; [done|].
    by exists applied, gc, rest.
  - intros batches st k Hok. rewrite (update_games_list_batches ny_to_utc batches st Hok).
    by apply Hall.
Qed.

Section Snapshot.
Import GameChangeConvertor.
Context (ny_to_utc : datetime -> res datetime).

Lemma jp_field_obj (fields : list (string * json)) (name : string) (v : json) :
  dict_get name fields = Some v -> jp_field (JObj fields) name = v.
Proof. intros H. simpl. by rewrite H. Qed.

(** The paths of the repository, field by field. *)
Lemma search_score_visitor (data : json) :
  jmespath_search "score.visitor" data = jp_field (jp_field data "score") "visitor".
Proof. reflexivity. Qed.

Lemma search_score_home (data : json) :
  jmespath_search "score.home" data = jp_field (jp_field data "score") "home".
Proof. reflexivity. Qed.

Lemma search_score_overtime (data : json) :
  jmespath_search "score.overtime" data = jp_field (jp_field data "score") "overtime".
Proof. reflexivity. Qed.


(** C2 (as the code has it): when the values of a fresh payload can be
    extracted, the diff against an absent previous state returns a delta
    that carries every extracted value: the scheduled time is present, and
    the status and the three score fields are the extracted values, absent
    where the payload carries none; and the diff against a previous state
    whose stored values equal the extracted ones returns a delta with the
    five fields absent. *)
Theorem diff_of_absent_and_of_equal_state (game_short : GameShort.t) (game_data : json)
    (raw_status : json) (t : datetime) (sv sh : option Z) (so : option string) :
  py_getitem game_data "status" = Ok raw_status ->
  get_game_datetime ny_to_utc game_data = Ok t ->
  get_natstat_value game_data "score.visitor" py_int = Ok sv ->
  get_natstat_value game_data "score.home" py_int = Ok sh ->
  get_natstat_value game_data "score.overtime" py_str = Ok so ->
  (forall s pb,
     validate_opt_str raw_status = Ok s ->
     get_play_by_play_changes None game_data = Ok pb ->
     get_game_changes ny_to_utc game_short game_data None
     = Ok {| GameChanges.game_short := game_short;
             GameChanges.game_data := game_data;
             GameChanges.status := s;
             GameChanges.gamedatetime := Some t;
             GameChanges.score_visitor := sv;
             GameChanges.score_home := sh;
             GameChanges.score_overtime := so;
             GameChanges.playbyplay_changes := pb |})
  /\ (forall last_info pb,
        raw_status = JStr (GameLastInfo.status last_info) ->
        GameLastInfo.gamedatetime last_info = t ->
        GameLastInfo.score_visitor last_info = sv ->
        GameLastInfo.score_home last_info = sh ->
        GameLastInfo.score_overtime last_info = so ->
        get_play_by_play_changes (Some last_info) game_data = Ok pb ->
        get_game_changes ny_to_utc game_short game_data (Some last_info)
        = Ok {| GameChanges.game_short := game_short;
                GameChanges.game_data := game_data;
                GameChanges.status := None;
                GameChanges.gamedatetime := None;
                GameChanges.score_visitor := None;
                GameChanges.score_home := None;
                GameChanges.score_overtime := None;
                GameChanges.playbyplay_changes := pb |}).
Proof.
  intros Hstatus Ht Hsv Hsh Hso. split.
  - intros s pb Hs Hpb.
    unfold get_game_changes, get_changed_status, get_changed_gamedatetime,
      get_changed_score_visitor, get_changed_score_home, get_changed_score_overtime.
    rewrite Hpb. simpl. rewrite Hstatus, Ht, Hsv, Hsh, Hso. simpl. by rewrite Hs.
  - intros li pb -> <- <- <- <- Hpb.
    unfold get_game_changes, get_changed_status, get_changed_gamedatetime,
      get_changed_score_visitor, get_changed_score_home, get_changed_score_overtime.
    rewrite Hpb, Hstatus, Ht, Hsv, Hsh, Hso. simpl.
    rewrite String.eqb_refl. simpl.
    rewrite !bool_decide_eq_false_2 by (intros Hne; by apply Hne). done.
Qed.

(** C7: the score object of the fixture is parsed to 107, 119 and "N",
    and the placeholder [{}] in place of the score object leaves the three
    score fields absent; in both cases nothing is raised. *)
Theorem score_extraction (fields : list (string * json)) :
  (dict_get "score" fields
   = Some (JObj [("visitor", JStr "107"); ("home", JStr "119"); ("overtime", JStr "N")]) ->
   get_natstat_value (JObj fields) "score.visitor" py_int = Ok (Some 107)
   /\ get_natstat_value (JObj fields) "score.home" py_int = Ok (Some 119)
   /\ get_natstat_value (JObj fields) "score.overtime" py_str = Ok (Some "N")
   /\ get_changed_score_visitor None (JObj fields) = Ok (Some 107)
   /\ get_changed_score_home None (JObj fields) = Ok (Some 119)
   /\ get_changed_score_overtime None (JObj fields) = Ok (Some "N"))
  /\ (dict_get "score" fields = Some (JObj []) ->
      get_natstat_value (JObj fields) "score.visitor" py_int = Ok None
      /\ get_natstat_value (JObj fields) "score.home" py_int = Ok None
      /\ get_natstat_value (JObj fields) "score.overtime" py_str = Ok None
      /\ get_changed_score_visitor None (JObj fields) = Ok None
      /\ get_changed_score_home None (JObj fields) = Ok None
      /\ get_changed_score_overtime None (JObj fields) = Ok None).
Proof.
  split; intros Hscore;
    unfold get_changed_score_visitor, get_changed_score_home, get_changed_score_overtime,
      get_natstat_value;
    rewrite search_score_visitor, search_score_home, search_score_overtime;
    rewrite (jp_field_obj _ _ _ Hscore); repeat split; reflexivity.
Qed.

End Snapshot.

(** ** The polling cycle *)


Section Cycle.
Import InmemoryStorage GameUpdateManager.
Context (ny_to_utc : datetime -> res datetime).
Context (fetch_game : string -> Z -> res json).

Lemma getitem_contains (raw : json) (k : string) (v : json) :
  py_getitem raw k = Ok v -> py_contains k raw = Ok true.
Proof.
  destruct raw as [| | | | |fields]; simpl; try done.
  destruct (dict_get k fields) as [x|]; [|done]. intros _.
  rewrite bool_decide_eq_true_2; [done | by exists x].
Qed.

Lemma getitem_not_none (raw : json) (k : string) (v : json) :
  py_getitem raw k = Ok v -> is_none raw = false.
Proof. by destruct raw. Qed.

(** A response that [response_to_game_data] rejects: null, or an envelope
    with a "success" field that says "0", has no "games", or has more than
    one game. *)
Lemma rejected_response (raw : json) :
  raw = JNull
  \/ py_getitem raw "success" = Ok (JStr "0")
  \/ (exists s, py_getitem raw "success" = Ok s /\ py_contains "games" raw = Ok false)
  \/ (exists s games n,
        py_getitem raw "success" = Ok s /\ py_getitem raw "games" = Ok games
        /\ py_len games = Ok n /\ 1 < n) ->
  response_to_game_data raw = Ok JNull.
Proof.
  unfold response_to_game_data.
  intros [-> | [Hs | [(s & Hs & Hg) | (s & games & n & Hs & Hg & Hn & Hlt)]]].
  - reflexivity.
  - rewrite (getitem_not_none _ _ _ Hs), Hs. reflexivity.
  - rewrite (getitem_not_none _ _ _ Hs), Hs. simpl.
    destruct (eq_str s "0"); [done|]. rewrite Hg. reflexivity.
  - rewrite (getitem_not_none _ _ _ Hs), Hs. simpl.
    destruct (eq_str s "0"); [done|]. rewrite (getitem_contains _ _ _ Hg). simpl.
    rewrite Hg. simpl. rewrite Hn. simpl.
    apply Z.ltb_lt in Hlt. by rewrite Hlt.
Qed.

Lemma dropped_game_leaves_the_rest (st : storage) (g : GameShort.t)
    (before after : list GameShort.t) (results : list (option GameChanges.t)) :
  get_game_changes ny_to_utc fetch_game st g = Ok None ->
  mapM (get_game_changes ny_to_utc fetch_game st) (before ++ after) = Ok results ->
  exists results',
    mapM (get_game_changes ny_to_utc fetch_game st) (before ++ g :: after) = Ok results'
    /\ not_none results' = not_none results.
Proof.
  intros Hg H. apply mapM_res_app in H as (r1 & r2 & H1 & H2 & ->).
  exists (r1 ++ None :: r2). split.
  - apply mapM_res_app. exists r1, (None :: r2). split; [done|]. split; [|done].
    apply mapM_res_cons. eauto.
  - unfold not_none. by rewrite !omap_app.
Qed.

(** C8 (as the code has it): a fetch result that is null, or that carries
    a "success" field and has the flag "0", no "games" key or more than one
    game, yields no game data and no delta, without raising; the game is
    left out of the cycle's results, and the results of the other games of
    the cycle are what they are without it. *)
Theorem rejected_response_drops_game (raw : json) :
  raw = JNull
  \/ py_getitem raw "success" = Ok (JStr "0")
  \/ (exists s, py_getitem raw "success" = Ok s /\ py_contains "games" raw = Ok false)
  \/ (exists s games n,
        py_getitem raw "success" = Ok s /\ py_getitem raw "games" = Ok games
        /\ py_len games = Ok n /\ 1 < n) ->
  response_to_game_data raw = Ok JNull
  /\ (forall (st : storage) (g : GameShort.t),
        fetch_game (GameShort.sport_code g) (GameShort.game_id g) = Ok raw ->
        get_game_changes ny_to_utc fetch_game st g = Ok None
        /\ (forall before after results,
              mapM (get_game_changes ny_to_utc fetch_game st) (before ++ after) = Ok results ->
              exists results',
                mapM (get_game_changes ny_to_utc fetch_game st) (before ++ g :: after)
                = Ok results'
                /\ not_none results' = not_none results)).
Proof.
  intros Hbad. pose proof (rejected_response raw Hbad) as Hnull. split; [done|].
  intros st g Hfetch.
  assert (get_game_changes ny_to_utc fetch_game st g = Ok None) as Hg.
  { unfold get_game_changes. rewrite Hfetch. simpl. rewrite Hnull. reflexivity. }
  split; [done|]. intros before after results. by apply dropped_game_leaves_the_rest.
Qed.

(** A delta that changes nothing, applied to a stored game, leaves the
    store as it is. *)
Lemma update_game_noop (st : storage) (d : GameChanges.t) (li : GameLastInfo.t) :
  st !! GameShort.key (GameChanges.game_short d) = Some li ->
  is_noop d = true ->
  update_game ny_to_utc st d = (st, Ok tt).
Proof.
  intros Hk Hnoop. unfold is_noop in Hnoop.
  destruct d as [g s t sv sh so pb gd]. simpl in *.
  repeat (apply andb_true_iff in Hnoop as [Hnoop ?]).
  repeat match goal with H : bool_decide _ = true |- _ => apply bool_decide_eq_true in H end.
  subst. unfold update_game, last_info_for, get_last_info. simpl. rewrite Hk. simpl.
  rewrite (insert_id st _ li Hk). by destruct pb as [[|]|].
Qed.

(** C1 (as the code has it): a cycle that completes drops the results that
    are [None] and nothing else.  Every delta that a selected game's fetch
    produced, a delta that changes nothing included, is applied to the store
    and handed to the datastore; applying a delta that changes nothing
    leaves the stored game as it is. *)
Theorem cycle_keeps_every_delta (clock : Clock) (game_type : GameType)
    (st st' : storage) (call : DbCall) :
  game_details_update ny_to_utc fetch_game clock game_type st = (st', Ok call) ->
  (exists results,
     mapM (get_game_changes ny_to_utc fetch_game st) (get_games_by_type clock game_type st)
     = Ok results
     /\ forwarded call = not_none results
     /\ update_games_list ny_to_utc st (forwarded call) = (st', Ok tt))
  /\ (forall d,
        d ∈ forwarded call
        <-> exists g,
              g ∈ get_games_by_type clock game_type st
              /\ get_game_changes ny_to_utc fetch_game st g = Ok (Some d))
  /\ (forall (st0 : storage) d li,
        d ∈ forwarded call -> is_noop d = true ->
        st0 !! GameShort.key (GameChanges.game_short d) = Some li ->
        update_game ny_to_utc st0 d = (st0, Ok tt)).
Proof.
  unfold game_details_update. intros H.
  destruct (mapM (get_game_changes ny_to_utc fetch_game st)
              (get_games_by_type clock game_type st)) as [results|e] eqn:Hres;
    [|discriminate H].
  destruct (update_games_list ny_to_utc st (not_none results)) as [st1 [[]|e]] eqn:Hupd;
    [|discriminate H].
  assert (st1 = st' /\ forwarded call = not_none results) as [-> Hfw].
  { destruct (bool_decide (game_type = early_final)); injection H as <- <-; done. }
  split; [|split].
  - exists results. rewrite Hfw. done.
  - intros d. rewrite Hfw. unfold not_none. rewrite list_elem_of_omap. split.
    + intros (x & Hx & Hid). simpl in Hid. subst x.
      by apply (mapM_res_elem _ _ _ _ Hres).
    + intros Hex. exists (Some d). split; [|done].
      by apply (mapM_res_elem _ _ _ _ Hres).
  - intros st0 d li _ Hnoop Hk. by apply (update_game_noop st0 d li).
Qed.

End Cycle.

(** ** Parsing the scheduled time *)

Section Digits.

Lemma digit_val_spec (c : ascii) (v : Z) :
  digit_val c = Some v -> 0 <= v <= 9 /\ Z.of_nat (nat_of_ascii c) = v + 48.
Proof.
  unfold digit_val.
  destruct ((48 <=? Z.of_nat (nat_of_ascii c)) && (Z.of_nat (nat_of_ascii c) <=? 57)) eqn:E;
    [|discriminate].
  apply andb_true_iff in E as [E1 E2]. apply Z.leb_le in E1, E2.
  intros H. injection H as <-. lia.
Qed.

(** A digit differs from every character that is not one. *)
Lemma digit_differs (c other : ascii) (v : Z) :
  digit_val c = Some v -> digit_val other = None -> Ascii.eqb c other = false.
Proof.
  intros Hc Ho. destruct (Ascii.eqb_spec c other) as [->|]; [congruence | done].
Qed.

Lemma digit_not_space (c : ascii) (v : Z) : digit_val c = Some v -> is_space c = false.
Proof.
  intros [Hv Hn]%digit_val_spec. unfold is_space.
  apply orb_false_iff. split; apply andb_false_iff.
  - right. apply Z.leb_gt. lia.
  - right. apply Z.leb_gt. lia.
Qed.

Lemma digit_char_val (v : Z) : 0 <= v <= 9 -> digit_val (digit_char v) = Some v.
Proof.
  intros Hv. unfold digit_val, digit_char.
  rewrite nat_ascii_embedding by lia.
  replace (Z.of_nat (48 + Z.to_nat v)) with (48 + v) by lia.
  rewrite (proj2 (Z.leb_le 48 (48 + v))) by lia.
  rewrite (proj2 (Z.leb_le (48 + v) 57)) by lia.
  simpl. f_equal. lia.
Qed.

Lemma digit_is_zero (c : ascii) (v : Z) :
  digit_val c = Some v -> Ascii.eqb c "0" = true -> v = 0.
Proof.
  intros Hc Heq. apply Ascii.eqb_eq in Heq. subst c. by injection Hc as <-.
Qed.

End Digits.

Section RegexFacts.
Context {A : Type}.

Lemma alt_None_r (x : option A) : alt x None = x.
Proof. by destruct x. Qed.

Lemma re_Y_digits (a b c d : ascii) (va vb vc vd : Z) (rest : string)
    (k : Z -> string -> option A) :
  digit_val a = Some va -> digit_val b = Some vb ->
  digit_val c = Some vc -> digit_val d = Some vd ->
  re_Y (String a (String b (String c (String d rest)))) k
  = k (1000 * va + 100 * vb + 10 * vc + vd) rest.
Proof. intros Ha Hb Hc Hd. unfold re_Y. by rewrite Ha, Hb, Hc, Hd. Qed.

(** A two-digit month followed by a dash. *)
Lemma re_m_dash (c1 c2 : ascii) (v1 v2 : Z) (rest : string) (k : Z -> string -> option A) :
  digit_val c1 = Some v1 -> digit_val c2 = Some v2 -> 1 <= 10 * v1 + v2 <= 12 ->
  re_m (String c1 (String c2 (String "-" rest))) (fun m s => re_lit "-" s (k m))
  = k (10 * v1 + v2) rest.
Proof.
  intros H1 H2 Hr.
  destruct (digit_val_spec _ _ H1) as [R1 _], (digit_val_spec _ _ H2) as [R2 _].
  unfold re_m, re_two, re_one, re_lit. rewrite H1, H2.
  rewrite (digit_differs c2 "-" v2 H2 eq_refl).
  assert ((v1 = 1 /\ v2 <= 2) \/ (v1 = 0 /\ 1 <= v2)) as [[-> Hv2] | [-> Hv2]] by lia.
  - rewrite (proj2 (Z.leb_le v2 2) Hv2). simpl. apply alt_None_r.
  - rewrite (proj2 (Z.leb_le 1 v2) Hv2). simpl. apply alt_None_r.
Qed.

(** A two-digit day: the one-digit alternative is tried when the rest
    fails after the two digits. *)
Lemma re_d_two (c1 c2 : ascii) (v1 v2 : Z) (rest : string) (k : Z -> string -> option A) :
  digit_val c1 = Some v1 -> digit_val c2 = Some v2 -> 1 <= 10 * v1 + v2 <= 31 ->
  re_d (String c1 (String c2 rest)) k
  = alt (k (10 * v1 + v2) rest)
        (if 1 <=? v1 then k v1 (String c2 rest) else None).
Proof.
  intros H1 H2 Hr.
  destruct (digit_val_spec _ _ H1) as [R1 _], (digit_val_spec _ _ H2) as [R2 _].
  unfold re_d, re_two, re_one, re_lit. rewrite H1, H2.
  rewrite (digit_differs c1 " " v1 H1 eq_refl).
  assert ((v1 = 3 /\ v2 <= 1) \/ (v1 = 1) \/ (v1 = 2) \/ (v1 = 0 /\ 1 <= v2))
    as [[-> Hv2] | [-> | [-> | [-> Hv2]]]] by lia.
  - rewrite (proj2 (Z.leb_le v2 1) Hv2). simpl.
    destruct (k (10 * 3 + v2) rest); simpl; [done|]. apply alt_None_r.
  - simpl. destruct (k (10 * 1 + v2) rest); simpl; [done|]. apply alt_None_r.
  - simpl. destruct (k (10 * 2 + v2) rest); simpl; [done|]. apply alt_None_r.
  - rewrite (proj2 (Z.leb_le 1 v2) Hv2). simpl. by rewrite !alt_None_r.
Qed.

(** A two-digit hour followed by a colon. *)
Lemma re_H_colon (c1 c2 : ascii) (v1 v2 : Z) (rest : string) (k : Z -> string -> option A) :
  digit_val c1 = Some v1 -> digit_val c2 = Some v2 -> 0 <= 10 * v1 + v2 <= 23 ->
  re_H (String c1 (String c2 (String ":" rest))) (fun H s => re_lit ":" s (k H))
  = k (10 * v1 + v2) rest.
Proof.
  intros H1 H2 Hr.
  destruct (digit_val_spec _ _ H1) as [R1 _], (digit_val_spec _ _ H2) as [R2 _].
  unfold re_H, re_two, re_one, re_lit. rewrite H1, H2.
  rewrite (digit_differs c2 ":" v2 H2 eq_refl).
  assert ((v1 = 2 /\ v2 <= 3) \/ (v1 = 0) \/ (v1 = 1)) as [[-> Hv2] | [-> | ->]] by lia.
  - rewrite (proj2 (Z.leb_le v2 3) Hv2). simpl. apply alt_None_r.
  - simpl. apply alt_None_r.
  - simpl. apply alt_None_r.
Qed.

(** Two digits of a minute, when the rest accepts them. *)
Lemma re_M_two (c1 c2 : ascii) (v1 v2 : Z) (rest : string) (k : Z -> string -> option A) (r : A) :
  digit_val c1 = Some v1 -> digit_val c2 = Some v2 -> 0 <= 10 * v1 + v2 <= 59 ->
  k (10 * v1 + v2) rest = Some r ->
  re_M (String c1 (String c2 rest)) k = Some r.
Proof.
  intros H1 H2 Hr Hk.
  destruct (digit_val_spec _ _ H1) as [R1 _], (digit_val_spec _ _ H2) as [R2 _].
  unfold re_M, re_two. rewrite H1, H2.
  rewrite (proj2 (Z.leb_le v1 5)) by lia. by rewrite Hk.
Qed.

(** One space before a digit. *)
Lemma re_spaces_one (c : ascii) (v : Z) (rest : string) (k : string -> option A) :
  digit_val c = Some v ->
  re_spaces (String " " (String c rest)) k = k (String c rest).
Proof.
  intros Hc. simpl. by rewrite (digit_not_space c v Hc).
Qed.

End RegexFacts.

Section Shapes.

Lemma decimal_digits_4 (y : Z) :
  0 <= y <= 9999 ->
  (0 <= y / 1000 <= 9) /\ (0 <= y / 100 mod 10 <= 9)
  /\ (0 <= y / 10 mod 10 <= 9) /\ (0 <= y mod 10 <= 9)
  /\ 1000 * (y / 1000) + 100 * (y / 100 mod 10) + 10 * (y / 10 mod 10) + y mod 10 = y.
Proof. intros Hy. Z.div_mod_to_equations. lia. Qed.

Lemma decimal_digits_2 (n : Z) :
  0 <= n <= 99 ->
  (0 <= n / 10 <= 9) /\ (0 <= n mod 10 <= 9) /\ 10 * (n / 10) + n mod 10 = n.
Proof. intros Hn. Z.div_mod_to_equations. lia. Qed.

Lemma days_in_month_bounds (y m : Z) : 28 <= days_in_month y m <= 31.
Proof.
  unfold days_in_month.
  destruct (m =? 2); [destruct (is_leap y); lia |].
  destruct ((m =? 4) || (m =? 6) || (m =? 9) || (m =? 11)); lia.
Qed.

Lemma checked_datetime_valid (y m d H M : Z) :
  1 <= y -> d <= days_in_month y m ->
  checked_datetime y m d H M = Ok (mk_datetime y m d H M).
Proof.
  intros Hy Hd. unfold checked_datetime.
  rewrite (proj2 (Z.leb_le 1 y) Hy), (proj2 (Z.leb_le d (days_in_month y m)) Hd). done.
Qed.

(** [strptime] reads a well-formed date back. *)
Lemma strptime_date_fmt (y m d : Z) :
  1 <= y <= 9999 -> 1 <= m <= 12 -> 1 <= d <= days_in_month y m ->
  strptime_date (fmt_gameday y m d) = Ok (mk_datetime y m d 0 0).
Proof.
  intros Hy Hm Hd. pose proof (days_in_month_bounds y m) as Hdim.
  destruct (decimal_digits_4 y) as (Y1 & Y2 & Y3 & Y4 & Yeq); [lia|].
  destruct (decimal_digits_2 m) as (M1 & M2 & Meq); [lia|].
  destruct (decimal_digits_2 d) as (D1 & D2 & Deq); [lia|].
  unfold strptime_date, fmt_gameday.
  rewrite (re_Y_digits _ _ _ _ _ _ _ _ _ _
             (digit_char_val _ Y1) (digit_char_val _ Y2)
             (digit_char_val _ Y3) (digit_char_val _ Y4)).
  rewrite Yeq. unfold re_lit at 1. simpl (Ascii.eqb "-" "-").
  rewrite (re_m_dash _ _ _ _ _
             (fun m s => re_d s (fun d s => Some (y, m, d, s)))
             (digit_char_val _ M1) (digit_char_val _ M2)) by lia.
  rewrite Meq.
  rewrite (re_d_two _ _ _ _ _ _ (digit_char_val _ D1) (digit_char_val _ D2)) by lia.
  rewrite Deq. simpl. apply checked_datetime_valid; lia.
Qed.

Lemma gameday_space_starttime (y m d H M : Z) :
  fmt_gameday y m d +:+ " " +:+ fmt_starttime H M
  = String (digit_char (y / 1000)) (String (digit_char (y / 100 mod 10))
    (String (digit_char (y / 10 mod 10)) (String (digit_char (y mod 10))
    (String "-" (String (digit_char (m / 10)) (String (digit_char (m mod 10))
    (String "-" (String (digit_char (d / 10)) (String (digit_char (d mod 10))
    (String " " (fmt_starttime H M))))))))))).
Proof. reflexivity. Qed.

(** [strptime] reads a well-formed date and time back. *)
Lemma strptime_datetime_fmt (y m d H M : Z) :
  1 <= y <= 9999 -> 1 <= m <= 12 -> 1 <= d <= days_in_month y m ->
  0 <= H <= 23 -> 0 <= M <= 59 ->
  strptime_datetime (fmt_gameday y m d +:+ " " +:+ fmt_starttime H M)
  = Ok (mk_datetime y m d H M).
Proof.
  intros Hy Hm Hd HH HM. pose proof (days_in_month_bounds y m) as Hdim.
  destruct (decimal_digits_4 y) as (Y1 & Y2 & Y3 & Y4 & Yeq); [lia|].
  destruct (decimal_digits_2 m) as (M1 & M2 & Meq); [lia|].
  destruct (decimal_digits_2 d) as (D1 & D2 & Deq); [lia|].
  destruct (decimal_digits_2 H) as (H1 & H2 & Heq); [lia|].
  destruct (decimal_digits_2 M) as (N1 & N2 & Neq); [lia|].
  rewrite gameday_space_starttime. unfold strptime_datetime, fmt_starttime.
  rewrite (re_Y_digits _ _ _ _ _ _ _ _ _ _
             (digit_char_val _ Y1) (digit_char_val _ Y2)
             (digit_char_val _ Y3) (digit_char_val _ Y4)).
  rewrite Yeq. unfold re_lit at 1. simpl (Ascii.eqb "-" "-").
  rewrite (re_m_dash _ _ _ _ _
             (fun m s => re_d s (fun d s => re_spaces s (fun s =>
                re_H s (fun H s => re_lit ":" s (fun s => re_M s (fun M s =>
                Some (y, m, d, H, M, s)))))))
             (digit_char_val _ M1) (digit_char_val _ M2)) by lia.
  rewrite Meq.
  rewrite (re_d_two _ _ _ _ _ _ (digit_char_val _ D1) (digit_char_val _ D2)) by lia.
  rewrite Deq.
  rewrite (re_spaces_one _ _ _ _ (digit_char_val _ H1)).
  rewrite (re_H_colon _ _ _ _ _
             (fun H s => re_M s (fun M s => Some (y, m, d, H, M, s)))
             (digit_char_val _ H1) (digit_char_val _ H2)) by lia.
  rewrite Heq.
  rewrite (re_M_two _ _ _ _ _ _ (y, m, d, H, M, EmptyString)
             (digit_char_val _ N1) (digit_char_val _ N2)); [| lia | by rewrite Neq].
  simpl. apply checked_datetime_valid; lia.
Qed.

End Shapes.

Section GameDatetime.
Context (ny_to_utc : datetime -> res datetime).

Lemma replace_after_digit (c : ascii) (v : Z) (t : string) :
  digit_val c = Some v -> replace_00_01 (String c t) = String c (replace_00_01 t).
Proof.
  intros Hc. cbn -[Ascii.eqb]. rewrite (digit_differs c "-" v Hc eq_refl).
  by destruct t as [|c2 [|c3 s']].
Qed.

Lemma replace_after_dash (c2 c3 : ascii) (s : string) :
  Ascii.eqb c2 "0" && Ascii.eqb c3 "0" = false ->
  replace_00_01 (String "-" (String c2 (String c3 s)))
  = String "-" (replace_00_01 (String c2 (String c3 s))).
Proof.
  intros Hne. cbn -[Ascii.eqb]. simpl (Ascii.eqb "-" "-").
  rewrite andb_true_l. cbn -[Ascii.eqb] in Hne. by rewrite Hne.
Qed.

Lemma month_digits_not_00 (m : Z) :
  1 <= m <= 99 ->
  Ascii.eqb (digit_char (m / 10)) "0" && Ascii.eqb (digit_char (m mod 10)) "0" = false.
Proof.
  intros Hm. destruct (decimal_digits_2 m) as (M1 & M2 & Meq); [lia|].
  apply andb_false_iff.
  destruct (Ascii.eqb (digit_char (m / 10)) "0") eqn:E1; [|by left].
  destruct (Ascii.eqb (digit_char (m mod 10)) "0") eqn:E2; [|by right].
  apply (digit_is_zero _ _ (digit_char_val _ M1)) in E1.
  apply (digit_is_zero _ _ (digit_char_val _ M2)) in E2. lia.
Qed.

(** Only the day ["00"] of a well-formed date is replaced. *)
Lemma replace_unknown_day (y m : Z) :
  0 <= y <= 9999 -> 1 <= m <= 12 ->
  replace_00_01 (fmt_gameday y m 0) = fmt_gameday y m 1.
Proof.
  intros Hy Hm.
  destruct (decimal_digits_4 y) as (Y1 & Y2 & Y3 & Y4 & _); [lia|].
  destruct (decimal_digits_2 m) as (M1 & M2 & _); [lia|].
  unfold fmt_gameday.
  rewrite !(replace_after_digit _ _ _ (digit_char_val _ Y1)).
  rewrite !(replace_after_digit _ _ _ (digit_char_val _ Y2)).
  rewrite !(replace_after_digit _ _ _ (digit_char_val _ Y3)).
  rewrite !(replace_after_digit _ _ _ (digit_char_val _ Y4)).
  rewrite replace_after_dash by (apply month_digits_not_00; lia).
  rewrite !(replace_after_digit _ _ _ (digit_char_val _ M1)).
  rewrite !(replace_after_digit _ _ _ (digit_char_val _ M2)).
  reflexivity.
Qed.

Lemma endswith_unknown_day (y m : Z) : endswith (fmt_gameday y m 0) "-00" = true.
Proof. reflexivity. Qed.

Lemma endswith_known_day (y m d : Z) :
  1 <= d <= 99 -> endswith (fmt_gameday y m d) "-00" = false.
Proof.
  intros Hd. unfold endswith, fmt_gameday. cbn -[Ascii.eqb digit_char].
  simpl (Ascii.eqb "-" "-"). cbv iota.
  pose proof (month_digits_not_00 d Hd) as Hne.
  apply andb_false_iff in Hne as [-> | ->]; [done|].
  by destruct (Ascii.eqb (digit_char (d / 10)) "0").
Qed.

(** C10: on the documented shapes the scheduled time is derived without
    an error of its own.  A gameday "YYYY-MM-00" is read as the first day
    of that month; a dict in place of the start time gives midnight of the
    gameday; otherwise the gameday and the "HH:MM" start time are read
    together; and in every case the result is what the New York to UTC
    conversion makes of the date and time read. *)
Theorem get_game_datetime_on_documented_shapes (y m d H M : Z) (game_data : json)
    (placeholder : list (string * json)) :
  1 <= y <= 9999 -> 1 <= m <= 12 -> 1 <= d <= days_in_month y m ->
  0 <= H <= 23 -> 0 <= M <= 59 ->
  (py_getitem game_data "gameday" = Ok (JStr (fmt_gameday y m 0)) ->
     (py_getitem game_data "starttime" = Ok (JObj placeholder) ->
      get_game_datetime ny_to_utc game_data = ny_to_utc (mk_datetime y m 1 0 0))
     /\ (py_getitem game_data "starttime" = Ok (JStr (fmt_starttime H M)) ->
         get_game_datetime ny_to_utc game_data = ny_to_utc (mk_datetime y m 1 H M)))
  /\ (py_getitem game_data "gameday" = Ok (JStr (fmt_gameday y m d)) ->
        (py_getitem game_data "starttime" = Ok (JObj placeholder) ->
         get_game_datetime ny_to_utc game_data = ny_to_utc (mk_datetime y m d 0 0))
        /\ (py_getitem game_data "starttime" = Ok (JStr (fmt_starttime H M)) ->
            get_game_datetime ny_to_utc game_data = ny_to_utc (mk_datetime y m d H M))).
Proof.
  intros Hy Hm Hd HH HM. pose proof (days_in_month_bounds y m) as Hdim.
  split; intros Hday; split; intros Hstart; unfold get_game_datetime;
    rewrite Hday; cbn [mbind res_bind]; rewrite Hstart; cbn [mbind res_bind is_dict].
  - rewrite endswith_unknown_day, replace_unknown_day by lia.
    by rewrite strptime_date_fmt by lia.
  - rewrite endswith_unknown_day, replace_unknown_day by lia.
    by rewrite strptime_datetime_fmt by lia.
  - rewrite endswith_known_day by lia.
    by rewrite strptime_date_fmt by lia.
  - rewrite endswith_known_day by lia.
    by rewrite strptime_datetime_fmt by lia.
Qed.

End GameDatetime.

(** * The properties on the fixture game *)

Section OnTheFixture.
Import Examples InmemoryStorage GameUpdateManager.

(** C1, counterexample: one hour before tip-off the stored game equals
    what the provider sends; the cycle of the live bucket still applies the
    delta, which changes nothing, and hands it to the datastore. *)
Lemma cycle_forwards_unchanged_delta :
  game_details_update eastern_since_2007 fetch_final clock_before_tipoff live
    (store_of final_info)
  = (store_of final_info, Ok (upsert_live_games [unchanged_delta]))
  /\ is_noop unchanged_delta = true.
Proof. split; vm_compute; reflexivity. Qed.

Lemma cycle_keeps_every_delta_witness :
  game_details_update eastern_since_2007 fetch_final clock_before_tipoff live
    (store_of final_info)
  = (store_of final_info, Ok (upsert_live_games [unchanged_delta]))
  /\ (forall d,
        d ∈ [unchanged_delta]
        <-> exists g,
              g ∈ get_games_by_type clock_before_tipoff live (store_of final_info)
              /\ get_game_changes eastern_since_2007 fetch_final (store_of final_info) g
                 = Ok (Some d))
  /\ update_game eastern_since_2007 (store_of final_info) unchanged_delta
     = (store_of final_info, Ok tt).
Proof.
  assert (game_details_update eastern_since_2007 fetch_final clock_before_tipoff live
            (store_of final_info)
          = (store_of final_info, Ok (upsert_live_games [unchanged_delta]))) as Hrun.
  { vm_compute. reflexivity. }
  split; [exact Hrun|].
  destruct (cycle_keeps_every_delta eastern_since_2007 fetch_final clock_before_tipoff
              live (store_of final_info) (store_of final_info)
              (upsert_live_games [unchanged_delta]) Hrun) as (_ & Hmem & Hnoop).
  split; [exact Hmem|].
  apply (Hnoop (store_of final_info) unchanged_delta final_info).
  - apply list_elem_of_here.
  - vm_compute. reflexivity.
  - vm_compute. reflexivity.
Defined.

(** C2, counterexample: before tip-off the provider sends [{}] for the
    score, and the diff against an absent previous state has the three
    score fields absent; and on a payload without a status the diff
    returns no delta at all. *)
Lemma diff_of_absent_state_without_score :
  GameChangeConvertor.get_game_changes eastern_since_2007 nba_game scheduled_payload None
  = Ok scheduled_delta
  /\ GameChanges.score_visitor scheduled_delta = None
  /\ GameChanges.score_home scheduled_delta = None
  /\ GameChanges.score_overtime scheduled_delta = None
  /\ GameChangeConvertor.get_game_changes eastern_since_2007 nba_game
       payload_without_status None
     = Raise KeyError.
Proof. repeat split; vm_compute; reflexivity. Qed.

Lemma diff_of_absent_and_of_equal_state_witness :
  GameChangeConvertor.get_game_changes eastern_since_2007 nba_game final_payload None
  = Ok first_final_delta
  /\ GameChangeConvertor.get_game_changes eastern_since_2007 nba_game final_payload
       (Some final_info)
     = Ok unchanged_delta.
Proof.
  destruct (diff_of_absent_and_of_equal_state eastern_since_2007 nba_game final_payload
              (JStr "Final") tipoff (Some 107) (Some 119) (Some "N"))
    as [Habsent Hequal]; try (vm_compute; reflexivity).
  split.
  - apply (Habsent (Some "Final") (Some [play "1"; play "2"; play "3"]));
      vm_compute; reflexivity.
  - apply (Hequal final_info (Some [])); vm_compute; reflexivity.
Defined.

Lemma event_ids_accumulate_witness :
  known_event_ids (store_of scheduled_info) (GameShort.key nba_game) = {[1; 2]}
  /\ known_event_ids
       (update_games_list eastern_since_2007 (store_of scheduled_info) [final_delta]).1
       (GameShort.key nba_game)
     = {[1; 2]} ∪ {[3]}
  /\ (3 ∉ ({[1; 2]} : gset Z))
  /\ known_event_ids
       (update_games_list eastern_since_2007 (store_of scheduled_info)
          [final_delta; FutureExamples.delta_with_team]).1
       (GameShort.key nba_game)
     = {[1; 2]} ∪ incoming_for (GameShort.key nba_game)
                    [final_delta; FutureExamples.delta_with_team]
  /\ incoming_for (GameShort.key nba_game) [final_delta; FutureExamples.delta_with_team]
     = {[3; 4]}.
Proof.
  destruct (event_ids_accumulate eastern_since_2007) as (_ & Hadd & Hnew & _ & Hall & _).
  split; [vm_compute; reflexivity|]. split; [|split; [|split]].
  - etrans.
    + apply (Hadd (store_of scheduled_info) final_delta). vm_compute. reflexivity.
    + vm_compute. reflexivity.
  - apply (Hnew scheduled_info final_payload {[1; 2]} [play "3"] (play "3") 3).
    + reflexivity.
    + vm_compute. reflexivity.
    + apply list_elem_of_here.
    + vm_compute. reflexivity.
  - etrans.
    + apply (Hall (store_of scheduled_info) [final_delta; FutureExamples.delta_with_team]
               (GameShort.key nba_game)).
      vm_compute. reflexivity.
    + vm_compute. reflexivity.
  - vm_compute. reflexivity.
Defined.

Lemma clean_old_records_on_host_ahead_of_utc_witness :
  utc_offset clock_4h_after_tipoff_utc_plus_2 = timedelta_hours 2
  /\ store_of final_info !! GameShort.key nba_game = Some final_info
  /\ GameLastInfo.gamedatetime final_info
     = get_utc_now clock_4h_after_tipoff_utc_plus_2 - timedelta_hours 4
  /\ clean_old_records clock_4h_after_tipoff_utc_plus_2 (store_of final_info)
       !! GameShort.key nba_game
     = None.
Proof.
  split; [reflexivity|]. split; [vm_compute; reflexivity|].
  split; [vm_compute; reflexivity|].
  apply (clean_old_records_on_host_ahead_of_utc clock_4h_after_tipoff_utc_plus_2
           (store_of final_info) (GameShort.key nba_game) final_info);
    vm_compute; reflexivity.
Defined.

Lemma live_bucket_classification_witness :
  nba_game ∈ get_games_by_type clock_2h59_before_tipoff live (store_of scheduled_info)
  /\ nba_game ∈ get_games_by_type clock_2h59_after_tipoff live (store_of in_progress_info)
  /\ nba_game ∉ get_games_by_type clock_2h59_after_tipoff live (store_of scheduled_info).
Proof.
  split; [|split].
  - apply (proj1 (proj2 (live_bucket_classification clock_2h59_before_tipoff
                           (store_of scheduled_info)))
             (GameShort.key nba_game) scheduled_info); vm_compute; reflexivity.
  - apply (proj1 (proj2 (proj2 (live_bucket_classification clock_2h59_after_tipoff
                                  (store_of in_progress_info))))
             (GameShort.key nba_game) in_progress_info); vm_compute; reflexivity.
  - apply (proj2 (proj2 (proj2 (live_bucket_classification clock_2h59_after_tipoff
                                  (store_of scheduled_info))))).
    intros k info Hk _. unfold store_of in Hk.
    apply lookup_singleton_Some in Hk as [_ <-]. split; vm_compute; reflexivity.
Defined.

Lemma score_extraction_witness :
  get_natstat_value final_payload "score.visitor" py_int = Ok (Some 107)
  /\ get_natstat_value final_payload "score.home" py_int = Ok (Some 119)
  /\ get_natstat_value final_payload "score.overtime" py_str = Ok (Some "N")
  /\ get_natstat_value scheduled_payload "score.visitor" py_int = Ok None
  /\ get_natstat_value scheduled_payload "score.home" py_int = Ok None
  /\ get_natstat_value scheduled_payload "score.overtime" py_str = Ok None.
Proof.
  destruct (proj1 (score_extraction
                     [("id", JStr "1077408"); ("gameday", JStr "2023-10-24");
                      ("starttime", JStr "19:30"); ("status", JStr "Final");
                      ("score", score_107_119);
                      ("stats", JObj [("playbyplay",
                         JObj [("1", play "1"); ("2", play "2"); ("3", play "3")])])])
              eq_refl) as (Hv & Hh & Ho & _).
  destruct (proj2 (score_extraction
                     [("id", JStr "1077408"); ("gameday", JStr "2023-10-24");
                      ("starttime", JStr "19:30"); ("status", JStr "Scheduled");
                      ("score", JObj []);
                      ("stats", JObj [("playbyplay",
                         JObj [("1", play "1"); ("2", play "2"); ("3", play "3")])])])
              eq_refl) as (Hv0 & Hh0 & Ho0 & _).
  repeat split; assumption.
Defined.

(** C8, counterexample: a body that has no "games" key and no "success"
    field is not dropped: reading the flag raises, and the cycle that
    fetched it ends with the exception. *)
Lemma response_without_success_raises :
  py_contains "games" error_body = Ok false
  /\ response_to_game_data error_body = Raise KeyError
  /\ get_game_changes eastern_since_2007 fetch_error_body (store_of final_info) nba_game
     = Raise KeyError
  /\ game_details_update eastern_since_2007 fetch_error_body clock_before_tipoff live
       (store_of final_info)
     = (store_of final_info, Raise KeyError).
Proof. repeat split; vm_compute; reflexivity. Qed.

Lemma rejected_response_drops_game_witness :
  response_to_game_data two_games_envelope = Ok JNull
  /\ get_game_changes eastern_since_2007 fetch_two_games (store_of final_info) nba_game
     = Ok None
  /\ game_details_update eastern_since_2007 fetch_two_games clock_before_tipoff live
       (store_of final_info)
     = (store_of final_info, Ok (upsert_live_games [])).
Proof.
  destruct (rejected_response_drops_game eastern_since_2007 fetch_two_games
              two_games_envelope) as [Hnull Hdrop].
  { right. right. right.
    exists (JStr "1"), (JObj [("1077408", final_payload); ("1077409", final_payload)]), 2.
    repeat split; vm_compute; reflexivity. }
  split; [exact Hnull|]. split.
  - apply (Hdrop (store_of final_info) nba_game). reflexivity.
  - vm_compute. reflexivity.
Defined.

Lemma update_games_list_overwrites_present_fields_witness :
  store_of scheduled_info !! GameShort.key (GameChanges.game_short final_delta)
  = Some scheduled_info
  /\ exists li',
       (update_games_list eastern_since_2007 (store_of scheduled_info) [final_delta]).1
         !! GameShort.key (GameChanges.game_short final_delta) = Some li'
       /\ GameLastInfo.status li' = "Final"
       /\ GameLastInfo.gamedatetime li' = tipoff
       /\ GameLastInfo.score_visitor li' = Some 107
       /\ GameLastInfo.score_home li' = Some 119
       /\ GameLastInfo.score_overtime li' = Some "N".
Proof.
  assert (store_of scheduled_info !! GameShort.key (GameChanges.game_short final_delta)
          = Some scheduled_info) as Hk by (vm_compute; reflexivity).
  split; [exact Hk|].
  destruct (update_games_list_overwrites_present_fields eastern_since_2007
              (store_of scheduled_info) final_delta scheduled_info Hk)
    as [(li' & Hl & _ & Hs & Ht & Hv & Hh & Ho) _].
  exists li'. repeat split; assumption.
Defined.

Lemma get_game_datetime_on_documented_shapes_witness :
  get_game_datetime eastern_since_2007
    (JObj [("gameday", JStr "2014-10-00"); ("starttime", JObj [])])
  = Ok (mk_datetime 2014 10 1 4 0)
  /\ get_game_datetime eastern_since_2007 final_payload = Ok tipoff.
Proof.
  destruct (get_game_datetime_on_documented_shapes eastern_since_2007 2014 10 1 19 30
              (JObj [("gameday", JStr "2014-10-00"); ("starttime", JObj [])]) [])
    as [Hunknown _]; try lia; [cbn; lia|].
  destruct (get_game_datetime_on_documented_shapes eastern_since_2007 2023 10 24 19 30
              final_payload [])
    as [_ Hknown]; try lia; [cbn; lia|].
  split.
  - rewrite (proj1 (Hunknown eq_refl) eq_refl). vm_compute. reflexivity.
  - rewrite (proj2 (Hknown eq_refl) eq_refl). vm_compute. reflexivity.
Defined.

End OnTheFixture.

(** * Further properties of the store and the change detector *)

Section Seeding.
Import InmemoryStorage.





End Seeding.

Section EndToEnd.
Import Examples InmemoryStorage GameUpdateManager.

(** The scenario of the specification: from the state "Scheduled" with
    the events 1 and 2 known, the final payload gives a delta with the new
    status, the three scores and the event 3 alone, the scheduled time being
    unchanged; applied, it updates the stored status and scores and makes
    the known ids 1, 2 and 3. *)
Theorem end_to_end_scenario :
  GameChangeConvertor.get_game_changes eastern_since_2007 nba_game final_payload
    (Some scheduled_info)
  = Ok final_delta
  /\ update_games_list eastern_since_2007 (store_of scheduled_info) [final_delta]
     = (store_of final_info, Ok tt).
Proof. split; vm_compute; reflexivity. Qed.

(** A visitor score that is not an integer literal is not read as absent
    by the change detector: [int] raises [ValueError], which only
    [get_stat_value] catches. *)
Theorem garbled_score_raises :
  get_natstat_value garbled_score_payload "score.visitor" py_int = Raise ValueError
  /\ GameChangeConvertor.get_game_changes eastern_since_2007 nba_game
       garbled_score_payload None
     = Raise ValueError
  /\ get_stat_value garbled_score_payload "score.visitor" py_int = Ok None.
Proof. repeat split; vm_compute; reflexivity. Qed.

(** An envelope that passes the checks with no game in it ends the cycle
    with [IndexError]. *)
Theorem empty_games_raises :
  response_to_game_data (JObj [("success", JStr "1"); ("games", JObj [])])
  = Raise IndexError.
Proof. vm_compute. reflexivity. Qed.

(** An unknown month is rewritten together with the unknown day:
    "2014-00-00" is read as the first of January. *)
Theorem unknown_month_is_january :
  get_game_datetime eastern_since_2007
    (JObj [("gameday", JStr "2014-00-00"); ("starttime", JObj [])])
  = Ok (mk_datetime 2014 1 1 5 0).
Proof. vm_compute. reflexivity. Qed.

Lemma clean_old_records_on_utc_host_witness :
  utc_offset clock_before_tipoff = 0
  /\ clean_old_records clock_before_tipoff (store_of final_info) !! GameShort.key nba_game
     = Some final_info.
Proof.
  split; [reflexivity|].
  rewrite (clean_old_records_on_utc_host clock_before_tipoff (store_of final_info)
             (GameShort.key nba_game) eq_refl).
  vm_compute. reflexivity.
Defined.

End EndToEnd.

(** ** The store: the invariant of its keys *)

Section Keys.
Import InmemoryStorage.
Context (ny_to_utc : datetime -> res datetime).



Lemma with_incoming_game_short (gc : GameChanges.t) (li : GameLastInfo.t) :
  GameLastInfo.game_short (with_incoming gc li) = GameLastInfo.game_short li.
Proof.
  unfold with_incoming.
  destruct (copy_attrs_fields gc li) as (Hg & _).
  revert Hg. generalize (foldl (copy_attr gc) li generic_keys). intros li1 Hg.
  by destruct (incoming_ids gc).
Qed.

Lemma keyed_update_game (st : storage) (gc : GameChanges.t) :
  keyed st -> keyed (update_game ny_to_utc st gc).1.
Proof.
  intros Hst. destruct (last_info_for ny_to_utc st gc) as [[st0 li]|e] eqn:Hli.
  - rewrite (update_game_after _ _ _ _ _ Hli).
    apply last_info_for_cases in Hli as [[Hk ->] | (Hk & -> & _ & Hg)].
    + apply map_Forall_insert_2; [|done].
      rewrite with_incoming_game_short. by apply Hst.
    + apply map_Forall_insert_2; [by rewrite with_incoming_game_short, Hg|].
      apply map_Forall_insert_2; [by rewrite Hg | done].
  - by rewrite (update_game_raise _ _ _ _ Hli).
Qed.

Lemma keyed_update_games_list (changes : list GameChanges.t) (st : storage) :
  keyed st -> keyed (update_games_list ny_to_utc st changes).1.
Proof.
  revert st. induction changes as [|gc changes IH]; intros st Hst; simpl; [done|].
  pose proof (keyed_update_game st gc Hst) as Hstep.
  destruct (update_game ny_to_utc st gc) as [st1 [u|e]]; simpl in *; [|done].
  by apply IH.
Qed.


(** A loop that appends [f x] or nothing at each step returns a sublist
    of the images. *)
Lemma foldl_append_sublist {X Y} (step : list Y -> X -> list Y) (f : X -> Y)
    (l : list X) (acc : list Y) :
  (forall acc x, step acc x = acc \/ step acc x = acc ++ [f x]) ->
  exists r, foldl step acc l = acc ++ r /\ sublist r (f <$> l).
Proof.
  intros Hstep. revert acc. induction l as [|x l IH]; intros acc; simpl.
  - exists []. by rewrite app_nil_r.
  - destruct (Hstep acc x) as [-> | ->].
    + destruct (IH acc) as (r & -> & Hr). exists r. split; [done|].
      by apply sublist_cons.
    + destruct (IH (acc ++ [f x])) as (r & -> & Hr). exists (f x :: r).
      split; [by rewrite <- app_assoc | by apply sublist_skip].
Qed.

Lemma get_games_by_type_sublist (clock : Clock) (game_type : GameType) (st : storage) :
  sublist (get_games_by_type clock game_type st)
          (GameLastInfo.game_short <$> values st).
Proof.
  unfold get_games_by_type. cbv zeta.
  match goal with
  | |- sublist (foldl ?step [] ?l) _ =>
      destruct (foldl_append_sublist step GameLastInfo.game_short l []) as (r & -> & Hr)
  end; [|exact Hr].
  intros acc x. cbv beta.
  repeat (match goal with |- context [if ?b then _ else _] => destruct b end; auto).
Qed.

Lemma keyed_games_NoDup (st : storage) :
  keyed st -> NoDup (GameLastInfo.game_short <$> values st).
Proof.
  intros Hst. apply (NoDup_fmap_1 GameShort.key).
  unfold values. rewrite <- !list_fmap_compose.
  erewrite list_fmap_ext; [apply (NoDup_fst_map_to_list st)|].
  intros i [k info] Hi. simpl. symmetry. apply Hst.
  apply elem_of_map_to_list. by eapply list_elem_of_lookup_2.
Qed.

(** Under the key invariant no game is selected twice by
    [get_games_by_type]: a cycle sends one request for each game. *)
Theorem each_game_polled_once (clock : Clock) (game_type : GameType) (st : storage) :
  keyed st -> NoDup (get_games_by_type clock game_type st).
Proof.
  intros Hst.
  eapply sublist_NoDup; [by apply keyed_games_NoDup|].
  apply get_games_by_type_sublist.
Qed.

End Keys.
(** ** Keys of games *)

Section KeyOfGame.

Lemma string_app_assoc (s1 s2 s3 : string) :
  (s1 +:+ s2) +:+ s3 = s1 +:+ (s2 +:+ s3).
Proof.
  induction s1 as [|c s1 IH]; [done|].
  change (String c ((s1 +:+ s2) +:+ s3) = String c (s1 +:+ (s2 +:+ s3))).
  by rewrite IH.
Qed.

Lemma has_char_app (c : ascii) (s1 s2 : string) :
  has_char c (s1 +:+ s2) = has_char c s1 || has_char c s2.
Proof.
  induction s1 as [|c1 s1 IH]; simpl; [done|].
  by rewrite IH, orb_assoc.
Qed.

(** The decimal digits of a number hold no underscore. *)
Lemma pretty_N_go_no_underscore (x : N) (s : string) :
  exists p, pretty_N_go x s = p +:+ s /\ has_char "_" p = false.
Proof.
  revert s. induction (N.lt_wf_0 x) as [x _ IH]; intros s.
  assert (x = 0 \/ 0 < x)%N as [->|Hpos] by lia.
  - exists EmptyString. by rewrite pretty_N_go_0.
  - rewrite pretty_N_go_step by done.
    destruct (IH (x `div` 10)%N (N.div_lt x 10 Hpos eq_refl)
                (String (pretty_N_char (x `mod` 10)) s)) as (p & -> & Hp).
    exists (p +:+ String (pretty_N_char (x `mod` 10)) EmptyString). split.
    + by rewrite string_app_assoc.
    + rewrite has_char_app, Hp.
      assert (x `mod` 10 < 10)%N as Hlt by (by apply N.mod_lt).
      revert Hlt. generalize (x `mod` 10)%N. intros m Hlt.
      assert (m = 0 \/ m = 1 \/ m = 2 \/ m = 3 \/ m = 4 \/ m = 5 \/ m = 6
              \/ m = 7 \/ m = 8 \/ m = 9)%N as Hm by lia.
      by destruct Hm as [->|[->|[->|[->|[->|[->|[->|[->|[->| ->]]]]]]]]].
Qed.

Lemma pretty_Z_no_underscore (z : Z) : has_char "_" (pretty z) = false.
Proof.
  assert (forall p : positive, has_char "_" (pretty (N.pos p)) = false) as Hpos.
  { intros p. unfold pretty, pretty_N. case_decide; [done|].
    destruct (pretty_N_go_no_underscore (N.pos p) EmptyString) as (q & -> & Hq).
    by rewrite has_char_app, Hq. }
  destruct z as [|p|p]; [done | apply Hpos |].
  unfold pretty, pretty_Z. rewrite has_char_app. simpl. apply Hpos.
Qed.

(** Two strings cut at an underscore that is the last one of each. *)
Lemma underscore_split (a b p q : string) :
  has_char "_" p = false -> has_char "_" q = false ->
  a +:+ String "_" p = b +:+ String "_" q -> a = b /\ p = q.
Proof.
  intros Hp Hq. revert b. induction a as [|c a IH]; intros [|d b] H; simpl in H.
  - by injection H as ->.
  - injection H as <- ->. rewrite has_char_app in Hp. simpl in Hp.
    by rewrite orb_true_r in Hp.
  - injection H as -> <-. rewrite has_char_app in Hq. simpl in Hq.
    by rewrite orb_true_r in Hq.
  - injection H as -> H. by destruct (IH b H) as [-> ->].
Qed.

(** Distinct games never share a key of the store: [key] is one-to-one,
    whatever the sport code holds (underscores included). *)
Theorem key_injective (g1 g2 : GameShort.t) :
  GameShort.key g1 = GameShort.key g2 <-> g1 = g2.
Proof.
  split; [|by intros ->].
  destruct g1 as [i1 s1], g2 as [i2 s2]. unfold GameShort.key. simpl.
  intros H. apply underscore_split in H as [-> Hi];
    [|apply pretty_Z_no_underscore..].
  by apply (inj pretty) in Hi as ->.
Qed.

End KeyOfGame.
(** ** A cycle and the rest of the store *)

Section CycleFrame.
Import InmemoryStorage GameUpdateManager.
Context (ny_to_utc : datetime -> res datetime).
Context (fetch_game : string -> Z -> res json).

Lemma update_games_list_frame (changes : list GameChanges.t) (st : storage) (k : string) :
  (forall gc, gc ∈ changes -> k ≠ GameShort.key (GameChanges.game_short gc)) ->
  (update_games_list ny_to_utc st changes).1 !! k = st !! k.
Proof.
  revert st. induction changes as [|gc changes IH]; intros st Hk; simpl; [done|].
  pose proof (update_game_frame ny_to_utc st gc k) as Hstep.
  destruct (update_game ny_to_utc st gc) as [st1 [u|e]]; simpl in *.
  - rewrite IH; [|intros gc' Hin; apply Hk; by apply list_elem_of_further].
    apply Hstep, Hk, list_elem_of_here.
  - apply Hstep, Hk, list_elem_of_here.
Qed.

(** A delta for a game of the store adds no key. *)
Lemma update_game_dom (st : storage) (gc : GameChanges.t) :
  is_Some (st !! GameShort.key (GameChanges.game_short gc)) ->
  dom (update_game ny_to_utc st gc).1 = dom st.
Proof.
  intros [li Hk].
  assert (last_info_for ny_to_utc st gc = Ok (st, li)) as Hli.
  { unfold last_info_for, get_last_info. by rewrite Hk. }
  rewrite (update_game_after _ _ _ _ _ Hli).
  apply dom_insert_lookup_L. by exists li.
Qed.

Lemma update_games_list_dom (changes : list GameChanges.t) (st : storage) :
  (forall gc, gc ∈ changes -> is_Some (st !! GameShort.key (GameChanges.game_short gc))) ->
  dom (update_games_list ny_to_utc st changes).1 = dom st.
Proof.
  revert st. induction changes as [|gc changes IH]; intros st Hk; simpl; [done|].
  pose proof (update_game_dom st gc (Hk gc (list_elem_of_here _ _))) as Hstep.
  destruct (update_game ny_to_utc st gc) as [st1 [u|e]]; simpl in *; [|done].
  rewrite IH; [done|]. intros gc' Hin.
  apply elem_of_dom. rewrite Hstep. apply elem_of_dom.
  apply Hk. by apply list_elem_of_further.
Qed.

(** The delta computed for a game is the delta of that game. *)
Lemma get_game_changes_game_short (st : storage) (g : GameShort.t) (gc : GameChanges.t) :
  get_game_changes ny_to_utc fetch_game st g = Ok (Some gc) ->
  GameChanges.game_short gc = g.
Proof.
  unfold get_game_changes. intros H. res_inv H.
  destruct (is_none a0); [discriminate|].
  res_inv H. simplify_eq.
  match goal with
  | Hc : GameChangeConvertor.get_game_changes _ _ _ _ = Ok _ |- _ =>
      unfold GameChangeConvertor.get_game_changes in Hc; res_inv Hc; by subst
  end.
Qed.

Lemma elem_of_not_none (changes : list (option GameChanges.t)) (gc : GameChanges.t) :
  gc ∈ not_none changes <-> Some gc ∈ changes.
Proof.
  unfold not_none. rewrite list_elem_of_omap. split.
  - by intros ([x|] & Hin & [= ->]).
  - intros Hin. by exists (Some gc).
Qed.

(** The deltas of a cycle are deltas of the games it polled. *)
Lemma cycle_changes_of_polled (st : storage) (games_short : list GameShort.t)
    (changes : list (option GameChanges.t)) (gc : GameChanges.t) :
  mapM (get_game_changes ny_to_utc fetch_game st) games_short = Ok changes ->
  gc ∈ not_none changes -> GameChanges.game_short gc ∈ games_short.
Proof.
  intros Hm Hin. apply elem_of_not_none in Hin.
  apply (mapM_res_elem _ _ _ _ Hm) in Hin as (g & Hg & Hgc).
  by rewrite (get_game_changes_game_short _ _ _ Hgc).
Qed.

Lemma polled_games_stored (clock : Clock) (game_type : GameType) (st : storage)
    (g : GameShort.t) :
  keyed st -> g ∈ get_games_by_type clock game_type st ->
  is_Some (st !! GameShort.key g).
Proof.
  intros Hst Hin.
  apply (sublist_subseteq _ _ (get_games_by_type_sublist clock game_type st)) in Hin.
  apply list_elem_of_fmap in Hin as (info & -> & Hin).
  apply elem_of_values in Hin as (k & Hk).
  rewrite <- (Hst k info Hk). by exists info.
Qed.

(** The store after a cycle, whatever its outcome. *)
Lemma cycle_store (clock : Clock) (game_type : GameType) (st : storage) :
  (game_details_update ny_to_utc fetch_game clock game_type st).1 = st
  \/ exists changes,
       mapM (get_game_changes ny_to_utc fetch_game st)
            (get_games_by_type clock game_type st) = Ok changes
       /\ (game_details_update ny_to_utc fetch_game clock game_type st).1
          = (update_games_list ny_to_utc st (not_none changes)).1.
Proof.
  unfold game_details_update. cbv zeta.
  destruct (mapM _ _) as [changes|e]; [|by left].
  right. exists changes. split; [done|].
  destruct (update_games_list ny_to_utc st (not_none changes)) as [st1 [u|e]]; [|done].
  by case_bool_decide.
Qed.

(** A polling cycle works inside its bucket: when the store is keyed, a
    cycle of [game_details_update] (also one that raises) neither adds nor
    removes a key, keeps the store keyed, and leaves every entry whose key
    is not the key of a game of the polled bucket as it was. *)
Theorem cycle_touches_only_its_bucket (clock : Clock) (game_type : GameType)
    (st : storage) :
  keyed st ->
  let st' := (game_details_update ny_to_utc fetch_game clock game_type st).1 in
  dom st' = dom st
  /\ keyed st'
  /\ forall k, k ∉ GameShort.key <$> get_games_by_type clock game_type st ->
       st' !! k = st !! k.
Proof.
  intros Hst st'. subst st'.
  destruct (cycle_store clock game_type st) as [-> | (changes & Hm & ->)]; [done|].
  split; [|split].
  - apply update_games_list_dom. intros gc Hin.
    apply (polled_games_stored clock game_type); [done|].
    by apply (cycle_changes_of_polled st _ changes).
  - by apply keyed_update_games_list.
  - intros k Hk. apply update_games_list_frame. intros gc Hin ->.
    apply Hk, list_elem_of_fmap. eexists. split; [done|].
    by apply (cycle_changes_of_polled st _ changes).
Qed.

End CycleFrame.
(** ** Diff, apply, diff again *)

Section Convergence.
Import InmemoryStorage GameChangeConvertor.
Context (ny_to_utc : datetime -> res datetime).

Lemma mapM_res_total {X Y} (f : X -> res Y) (l : list X) :
  (forall x, x ∈ l -> exists y, f x = Ok y) -> exists r, mapM f l = Ok r.
Proof.
  induction l as [|x l IH]; intros Hall; [by exists []|].
  destruct (Hall x (list_elem_of_here _ _)) as (y & Hy).
  destruct IH as (r & Hr); [intros x' Hin; apply Hall; by apply list_elem_of_further|].
  exists (y :: r). apply mapM_res_cons. eauto.
Qed.







(** The new events of a computed delta all carry a readable id. *)
Lemma delta_events_readable (last_info : option GameLastInfo.t) (game_data : json)
    (evs : list json) :
  get_play_by_play_changes last_info game_data = Ok (Some evs) ->
  exists ids, mapM event_id evs = Ok ids.
Proof.
  unfold get_play_by_play_changes.
  destruct (is_none (jmespath_search "stats.playbyplay" game_data)); [done|].
  intros H. res_inv H. simplify_eq.
  apply mapM_res_total. intros ev Hin.
  match goal with
  | Hf : filter_by_id _ _ = Ok evs |- _ =>
      destruct (filter_by_id_elem _ _ _ _ Hf Hin) as (_ & i & Hi & _)
  end.
  by exists i.
Qed.


(** The outcome of applying one delta. *)
Lemma update_game_result (st st0 : storage) (gc : GameChanges.t) (li : GameLastInfo.t) :
  last_info_for ny_to_utc st gc = Ok (st0, li) ->
  (forall evs, GameChanges.playbyplay_changes gc = Some evs ->
               exists ids, mapM event_id evs = Ok ids) ->
  update_game ny_to_utc st gc
  = (<[GameShort.key (GameChanges.game_short gc) := with_incoming gc li]> st0, Ok tt).
Proof.
  intros Hli Hread.
  rewrite <- (update_game_after ny_to_utc st st0 gc li Hli).
  rewrite (surjective_pairing (update_game ny_to_utc st gc)) at 1. f_equal.
  unfold update_game. rewrite Hli. cbv beta iota zeta.
  destruct (GameChanges.playbyplay_changes gc) as [[|item items]|]; [done | | done].
  destruct (Hread _ eq_refl) as (ids & ->). done.
Qed.



End Convergence.

(** ** A cycle completes or leaves the store alone *)

Section CycleOutcome.
Import InmemoryStorage GameUpdateManager.
Context (ny_to_utc : datetime -> res datetime).
Context (fetch_game : string -> Z -> res json).

(** No delta of a list stops [update_games_list] when each is a delta of a
    stored game and its new events carry readable ids. *)
Lemma update_games_list_ok (changes : list GameChanges.t) (st : storage) :
  (forall gc, gc ∈ changes ->
     is_Some (st !! GameShort.key (GameChanges.game_short gc))
     /\ forall evs, GameChanges.playbyplay_changes gc = Some evs ->
                    exists ids, mapM event_id evs = Ok ids) ->
  (update_games_list ny_to_utc st changes).2 = Ok tt.
Proof.
  revert st. induction changes as [|gc changes IH]; intros st Hall; simpl; [done|].
  destruct (Hall gc (list_elem_of_here _ _)) as [[li Hk] Hread].
  assert (last_info_for ny_to_utc st gc = Ok (st, li)) as Hli.
  { unfold last_info_for, get_last_info. by rewrite Hk. }
  pose proof (update_game_dom ny_to_utc st gc (ex_intro _ li Hk)) as Hdom.
  rewrite (update_game_result ny_to_utc st st gc li Hli Hread) in *. simpl in Hdom.
  apply IH. intros gc' Hin.
  destruct (Hall gc' (list_elem_of_further _ _ _ Hin)) as [Hk' Hread'].
  split; [|done]. apply elem_of_dom. rewrite Hdom. by apply elem_of_dom.
Qed.

Lemma get_game_changes_readable (st : storage) (g : GameShort.t) (gc : GameChanges.t)
    (evs : list json) :
  get_game_changes ny_to_utc fetch_game st g = Ok (Some gc) ->
  GameChanges.playbyplay_changes gc = Some evs ->
  exists ids, mapM event_id evs = Ok ids.
Proof.
  unfold get_game_changes. intros H Hevs. res_inv H.
  destruct (is_none a0); [discriminate|].
  res_inv H. simplify_eq.
  match goal with
  | Hc : GameChangeConvertor.get_game_changes _ _ _ _ = Ok _ |- _ =>
      unfold GameChangeConvertor.get_game_changes in Hc; res_inv Hc; subst
  end.
  simpl in Hevs. subst.
  match goal with
  | Hp : GameChangeConvertor.get_play_by_play_changes _ _ = Ok (Some evs) |- _ =>
      apply (delta_events_readable _ _ _ Hp)
  end.
Qed.

Lemma mapM_res_raise {X Y} (f : X -> res Y) (l : list X) (x : X) (e : exn) :
  x ∈ l -> f x = Raise e -> exists e', mapM f l = Raise e'.
Proof.
  induction l as [|x' l IH]; intros Hin Hx; [by apply elem_of_nil in Hin|].
  simpl. destruct (f x') as [y|e'] eqn:Hx'; [|by exists e'].
  apply elem_of_cons in Hin as [-> | Hin]; [congruence|].
  destruct (IH Hin Hx) as (e' & ->). by exists e'.
Qed.

(** A cycle is all or nothing for the store.  When the store is keyed and
    no poll of the bucket raises, [game_details_update] applies every delta
    without raising and reaches the datastore call with all of them; when
    the poll of any game of the bucket raises (the fetch, the envelope
    check or the diff), the cycle raises and the store is left as it was,
    for every game of the bucket. *)
Theorem cycle_all_or_nothing (clock : Clock) (game_type : GameType) (st : storage) :
  keyed st ->
  (forall changes,
     mapM (get_game_changes ny_to_utc fetch_game st)
          (get_games_by_type clock game_type st) = Ok changes ->
     exists st',
       game_details_update ny_to_utc fetch_game clock game_type st
       = (st', Ok (if bool_decide (game_type = early_final)
                   then save_final_games (not_none changes)
                   else upsert_live_games (not_none changes))))
  /\ (forall g e,
        g ∈ get_games_by_type clock game_type st ->
        get_game_changes ny_to_utc fetch_game st g = Raise e ->
        exists e',
          game_details_update ny_to_utc fetch_game clock game_type st
          = (st, Raise e')).
Proof.
  intros Hst. split.
  - intros changes Hm. unfold game_details_update. cbv zeta. rewrite Hm.
    assert ((update_games_list ny_to_utc st (not_none changes)).2 = Ok tt) as Hok.
    { apply update_games_list_ok. intros gc Hin.
      pose proof (cycle_changes_of_polled ny_to_utc fetch_game st _ _ _ Hm Hin) as Hg.
      split; [by apply (polled_games_stored clock game_type)|].
      intros evs Hevs. apply elem_of_not_none in Hin.
      apply (mapM_res_elem _ _ _ _ Hm) in Hin as (g & _ & Hgc).
      by apply (get_game_changes_readable st g gc). }
    destruct (update_games_list ny_to_utc st (not_none changes)) as [st1 [[]|e]];
      [|discriminate Hok].
    exists st1. by case_bool_decide.
  - intros g e Hin Hg. unfold game_details_update. cbv zeta.
    destruct (mapM_res_raise _ _ g e Hin Hg) as (e' & ->). by exists e'.
Qed.

End CycleOutcome.
(** ** The other buckets *)

Section OtherBuckets.
Import InmemoryStorage.
Context (clock : Clock).

Lemma prefix_spec (n s : string) :
  String.prefix n s = true <-> exists post, s = n +:+ post.
Proof.
  revert s. induction n as [|c n IH]; intros [|c' s]; simpl.
  - split; [intros _; by exists EmptyString | done].
  - split; [intros _; by exists (String c' s) | done].
  - split; [done | by intros (post & ?)].
  - destruct (Ascii.ascii_dec c c') as [->|Hne].
    + rewrite IH. split; intros (post & Hpost); exists post.
      * by rewrite Hpost.
      * by injection Hpost.
    + split; [done|]. intros (post & Hpost). by injection Hpost as <-.
Qed.

(** [needle in s] holds exactly when [s] is cut in three around [needle]. *)
Lemma is_substring_spec (n s : string) :
  is_substring n s = true <-> exists pre post, s = pre +:+ n +:+ post.
Proof.
  induction s as [|c s IH]; cbn [is_substring]; rewrite orb_true_iff, prefix_spec.
  - split.
    + intros [(post & Hpost) | ?]; [|done]. by exists EmptyString, post.
    + intros ([|c pre] & post & Hpost); [|done]. left. by exists post.
  - rewrite IH. split.
    + intros [(post & Hpost) | (pre & post & Hpost)].
      * by exists EmptyString, post.
      * exists (String c pre), post. by rewrite Hpost.
    + intros ([|c' pre] & post & Hpost).
      * left. by exists post.
      * right. exists pre, post. by injection Hpost.
Qed.

Lemma same_day (t now : datetime) :
  (day_start now <=? t) && (t <=? day_end now) = true
  <-> t / usec_per_day = now / usec_per_day.
Proof.
  unfold day_end, day_start. rewrite andb_true_iff, Z.leb_le, Z.leb_le.
  assert (0 < usec_per_day) as Hd by done.
  pose proof (Z.div_mod now usec_per_day) as Hnow.
  pose proof (Z.mod_pos_bound now usec_per_day Hd) as Hnm.
  pose proof (Z.div_mod t usec_per_day) as Ht.
  pose proof (Z.mod_pos_bound t usec_per_day Hd) as Htm.
  revert Hd Hnow Hnm Ht Htm.
  generalize (now / usec_per_day) (now mod usec_per_day)
             (t / usec_per_day) (t mod usec_per_day) usec_per_day.
  intros qn rn qt rt d Hd Hnow Hnm Ht Htm. nia.
Qed.

(** The [today] bucket holds the games whose scheduled time falls on the
    current UTC calendar day, whatever their status; the [early_final]
    bucket holds the games whose status contains "final" in any letter
    case, whatever their scheduled time. *)
Theorem today_and_early_final_buckets (st : storage) :
  (forall g,
     g ∈ get_games_by_type clock today st
     <-> exists k info,
           st !! k = Some info /\ GameLastInfo.game_short info = g
           /\ GameLastInfo.gamedatetime info / usec_per_day
              = get_utc_now clock / usec_per_day)
  /\ (forall g,
        g ∈ get_games_by_type clock early_final st
        <-> exists k info,
              st !! k = Some info /\ GameLastInfo.game_short info = g
              /\ exists pre post,
                   lower (GameLastInfo.status info) = pre +:+ "final" +:+ post).
Proof.
  split; intros g; unfold get_games_by_type; simpl.
  - rewrite (elem_of_foldl_append
      (fun info =>
         (day_start (get_utc_now clock) <=? GameLastInfo.gamedatetime info)
         && (GameLastInfo.gamedatetime info <=? day_end (get_utc_now clock)))
      GameLastInfo.game_short).
    split.
    + intros [H | (info & Hin & Hp & Hg)]; [by apply elem_of_nil in H |].
      apply elem_of_values in Hin as (k & Hk). exists k, info.
      split; [done|]. split; [done|]. by apply same_day.
    + intros (k & info & Hk & Hg & Hc). right. exists info.
      split; [apply elem_of_values; eauto |]. split; [|done]. by apply same_day.
  - rewrite (elem_of_foldl_append
      (fun info => is_game_final (GameLastInfo.status info)) GameLastInfo.game_short).
    split.
    + intros [H | (info & Hin & Hp & Hg)]; [by apply elem_of_nil in H |].
      apply elem_of_values in Hin as (k & Hk). exists k, info.
      split; [done|]. split; [done|]. by apply is_substring_spec.
    + intros (k & info & Hk & Hg & Hc). right. exists info.
      split; [apply elem_of_values; eauto |]. split; [|done].
      by apply is_substring_spec.
Qed.

(** Eviction against polling: when the host's local time is at most two
    hours ahead of UTC, [clean_old_records] removes no game of the [live]
    bucket. *)
Theorem live_games_survive_eviction (st : storage) (g : GameShort.t) :
  utc_offset clock <= timedelta_hours 2 ->
  g ∈ get_games_by_type clock live st ->
  g ∈ get_games_by_type clock live (clean_old_records clock st).
Proof.
  intros Hoff. rewrite !elem_of_live_games.
  intros (k & info & Hk & Hg & Hc). exists k, info.
  split; [|done]. apply clean_old_records_lookup. split; [done|].
  unfold datetime_now, get_utc_now in *.
  unfold timedelta_hours, usec_per_hour, usec_per_minute in *. lia.
Qed.

End OtherBuckets.
(** ** The envelope of a fetched game *)

Section Envelope.
Import GameUpdateManager.

(** An envelope that carries a "success" flag other than "0" and a "games"
    value: [response_to_game_data] returns the game of a one-game dict,
    rejects (returns [None] for) a collection of more than one, and raises
    on the others: [IndexError] on an empty dict, [AttributeError] on a
    list or string of at most one element (they pass the length test and
    have no [values]), and [TypeError] on a value that has no length. *)
Theorem response_to_game_data_by_games (fields : list (string * json))
    (success games : json) :
  dict_get "success" fields = Some success ->
  eq_str success "0" = false ->
  dict_get "games" fields = Some games ->
  response_to_game_data (JObj fields)
  = match games with
    | JObj [] => Raise IndexError
    | JObj [(_, game)] => Ok game
    | JObj (_ :: _ :: _) => Ok JNull
    | JArr ([] | [_]) => Raise AttributeError
    | JArr (_ :: _ :: _) => Ok JNull
    | JStr (EmptyString | String _ EmptyString) => Raise AttributeError
    | JStr (String _ (String _ _)) => Ok JNull
    | JNull | JBool _ | JNum _ => Raise TypeError
    end.
Proof.
  intros Hs Hflag Hg. unfold response_to_game_data. simpl.
  rewrite Hs. simpl. rewrite Hflag.
  rewrite bool_decide_eq_true_2 by (rewrite Hg; by eexists). simpl.
  rewrite Hg. simpl.
  destruct games as [| b | n | s | l | d]; cbn [py_len mbind res_bind]; try done.
  - destruct s as [|c [|c' s]]; try done.
    rewrite (proj2 (Z.ltb_lt 1 _)); [done|]. cbn [String.length]. lia.
  - destruct l as [|x [|y l]]; try done.
    rewrite (proj2 (Z.ltb_lt 1 _)); [done|]. cbn [length]. lia.
  - destruct d as [|[k game] [|y d]]; try done.
    rewrite (proj2 (Z.ltb_lt 1 _)); [done|]. cbn [length]. lia.
Qed.

End Envelope.
(** ** More shapes of [gameday] *)

Section MoreShapes.
Context (ny_to_utc : datetime -> res datetime).

(** [strptime] on a date of the right shape: the fields are read, and the
    date is then checked against the calendar. *)
Lemma strptime_date_checked (y m d : Z) :
  1 <= y <= 9999 -> 1 <= m <= 12 -> 1 <= d <= 31 ->
  strptime_date (fmt_gameday y m d) = checked_datetime y m d 0 0.
Proof.
  intros Hy Hm Hd.
  destruct (decimal_digits_4 y) as (Y1 & Y2 & Y3 & Y4 & Yeq); [lia|].
  destruct (decimal_digits_2 m) as (M1 & M2 & Meq); [lia|].
  destruct (decimal_digits_2 d) as (D1 & D2 & Deq); [lia|].
  unfold strptime_date, fmt_gameday.
  rewrite (re_Y_digits _ _ _ _ _ _ _ _ _ _
             (digit_char_val _ Y1) (digit_char_val _ Y2)
             (digit_char_val _ Y3) (digit_char_val _ Y4)).
  rewrite Yeq. unfold re_lit at 1. simpl (Ascii.eqb "-" "-").
  rewrite (re_m_dash _ _ _ _ _
             (fun m s => re_d s (fun d s => Some (y, m, d, s)))
             (digit_char_val _ M1) (digit_char_val _ M2)) by lia.
  rewrite Meq.
  rewrite (re_d_two _ _ _ _ _ _ (digit_char_val _ D1) (digit_char_val _ D2)) by lia.
  rewrite Deq. reflexivity.
Qed.

(** Both ["-00"] of a gameday without month and day are replaced. *)
Lemma replace_unknown_month (y : Z) :
  0 <= y <= 9999 -> replace_00_01 (fmt_gameday y 0 0) = fmt_gameday y 1 1.
Proof.
  intros Hy.
  destruct (decimal_digits_4 y) as (Y1 & Y2 & Y3 & Y4 & _); [lia|].
  unfold fmt_gameday.
  rewrite !(replace_after_digit _ _ _ (digit_char_val _ Y1)).
  rewrite !(replace_after_digit _ _ _ (digit_char_val _ Y2)).
  rewrite !(replace_after_digit _ _ _ (digit_char_val _ Y3)).
  rewrite !(replace_after_digit _ _ _ (digit_char_val _ Y4)).
  reflexivity.
Qed.

(** A gameday "YYYY-00-00" (month and day unknown) is read as the first
    of January of that year: [str.replace] rewrites both "-00", not only
    the day the code's comment speaks of. *)
Theorem get_game_datetime_unknown_month (y H M : Z) (game_data : json)
    (placeholder : list (string * json)) :
  1 <= y <= 9999 -> 0 <= H <= 23 -> 0 <= M <= 59 ->
  py_getitem game_data "gameday" = Ok (JStr (fmt_gameday y 0 0)) ->
  (py_getitem game_data "starttime" = Ok (JObj placeholder) ->
   get_game_datetime ny_to_utc game_data = ny_to_utc (mk_datetime y 1 1 0 0))
  /\ (py_getitem game_data "starttime" = Ok (JStr (fmt_starttime H M)) ->
      get_game_datetime ny_to_utc game_data = ny_to_utc (mk_datetime y 1 1 H M)).
Proof.
  intros Hy HH HM Hday.
  assert (1 <= 1 <= days_in_month y 1) as Hd by (cbn; lia).
  split; intros Hstart; unfold get_game_datetime;
    rewrite Hday; cbn [mbind res_bind]; rewrite Hstart; cbn [mbind res_bind is_dict];
    rewrite endswith_unknown_day, replace_unknown_month by lia.
  - by rewrite strptime_date_fmt by lia.
  - by rewrite strptime_datetime_fmt by lia.
Qed.

(** A gameday of the documented shape whose day does not exist in its
    month (30 February, 31 April, 29 February of a common year) is not
    clamped: with a placeholder start time [get_game_datetime] raises
    [ValueError] before any timezone conversion. *)
Theorem get_game_datetime_rejects_impossible_day (y m d : Z) (game_data : json)
    (placeholder : list (string * json)) :
  1 <= y <= 9999 -> 1 <= m <= 12 -> days_in_month y m < d <= 31 ->
  py_getitem game_data "gameday" = Ok (JStr (fmt_gameday y m d)) ->
  py_getitem game_data "starttime" = Ok (JObj placeholder) ->
  get_game_datetime ny_to_utc game_data = Raise ValueError.
Proof.
  intros Hy Hm Hd Hday Hstart. pose proof (days_in_month_bounds y m) as Hdim.
  unfold get_game_datetime.
  rewrite Hday; cbn [mbind res_bind]; rewrite Hstart; cbn [mbind res_bind is_dict].
  rewrite endswith_known_day by lia.
  rewrite strptime_date_checked by lia.
  unfold checked_datetime.
  rewrite (proj2 (Z.leb_gt d (days_in_month y m))) by lia.
  by rewrite andb_false_r.
Qed.

End MoreShapes.

(** ** The update of future games: batches *)

Section Batches.
Import FutureGamesUpdateRuntime.

Lemma range_from_past (fuel start stop step : nat) :
  (stop <= start)%nat -> range_from fuel start stop step = [].
Proof.
  intros Hle. destruct fuel as [|fuel]; [done|]. simpl.
  by rewrite (proj2 (Nat.ltb_ge start stop)).
Qed.

(** The slices cut at the steps of [range] cover the list from [start]
    on, and none of them is empty or longer than the step. *)
Lemma range_from_slices {X} (l : list X) (step : nat) (fuel start : nat) :
  (0 < step)%nat -> (length l - start <= fuel)%nat ->
  mjoin ((fun s => take step (drop s l)) <$> range_from fuel start (length l) step)
  = drop start l
  /\ Forall (fun s => (s < length l)%nat) (range_from fuel start (length l) step).
Proof.
  intros Hstep. revert start. induction fuel as [|fuel IH]; intros start Hfuel.
  - simpl. split; [|done]. symmetry. apply drop_ge. lia.
  - simpl. destruct (Nat.ltb start (length l)) eqn:Hlt.
    + apply Nat.ltb_lt in Hlt.
      destruct (IH (start + step)%nat) as [Hcat Hall]; [lia|].
      split.
      * rewrite fmap_cons. simpl. rewrite Hcat.
        rewrite <- (take_drop step (drop start l)) at 2.
        by rewrite drop_drop.
      * by constructor.
    + apply Nat.ltb_ge in Hlt. split; [|done]. symmetry. apply drop_ge. lia.
Qed.

Lemma upserted_for_app (sport : string) (calls1 calls2 : list DbCall) :
  upserted_for sport (calls1 ++ calls2)
  = upserted_for sport calls1 ++ upserted_for sport calls2.
Proof. unfold upserted_for. by rewrite omap_app, join_app. Qed.

Lemma upserted_for_batches (sport sport' : string) (batches : list (list json)) :
  upserted_for sport (upsert_games sport' <$> batches)
  = if String.eqb sport' sport then mjoin batches else [].
Proof.
  unfold upserted_for. destruct (String.eqb sport' sport) eqn:E.
  - induction batches as [|b batches IH]; [done|].
    rewrite fmap_cons. cbn [omap list_omap]. rewrite E.
    cbn [mjoin list_join]. f_equal. exact IH.
  - induction batches as [|b batches IH]; [done|].
    rewrite fmap_cons. cbn [omap list_omap]. rewrite E. exact IH.
Qed.

Lemma batches_cover (sport : string) (games : list json) (batch_size : Z) :
  0 < batch_size ->
  exists batches,
    upsert_games_in_batches sport games batch_size = Ok (upsert_games sport <$> batches)
    /\ mjoin batches = games
    /\ Forall (fun batch => batch ≠ [] /\ Z.of_nat (length batch) <= batch_size) batches.
Proof.
  intros Hpos. unfold upsert_games_in_batches, py_range.
  rewrite (proj2 (Z.eqb_neq batch_size 0)), (proj2 (Z.ltb_ge batch_size 0)) by lia.
  cbn [mbind res_bind].
  destruct (range_from_slices games (Z.to_nat batch_size) (length games) 0)
    as [Hcat Hall]; [lia | lia |].
  exists ((fun s => take (Z.to_nat batch_size) (drop s games))
            <$> range_from (length games) 0 (length games) (Z.to_nat batch_size)).
  split; [by rewrite <- list_fmap_compose|]. split; [done|].
  apply Forall_fmap. eapply Forall_impl; [exact Hall|].
  intros s Hs. cbv beta in Hs. simpl. split.
  - intros Hnil. apply (f_equal length) in Hnil.
    rewrite length_take, length_drop in Hnil.
    change (length (@nil json)) with 0%nat in Hnil. lia.
  - rewrite length_take. lia.
Qed.

(** [upsert_games_in_batches] with a positive batch size hands every game
    to the datastore once and in order, in batches for the same sport that
    are never empty and never longer than the batch size; with batch size
    0 it raises [ValueError] before any call, and with a negative batch
    size it makes no call and returns, whatever the games. *)
Theorem upsert_games_in_batches_covers (sport : string) (games : list json)
    (batch_size : Z) :
  (0 < batch_size ->
   exists batches,
     upsert_games_in_batches sport games batch_size = Ok (upsert_games sport <$> batches)
     /\ mjoin batches = games
     /\ Forall (fun batch => batch ≠ [] /\ Z.of_nat (length batch) <= batch_size) batches)
  /\ (batch_size = 0 -> upsert_games_in_batches sport games batch_size = Raise ValueError)
  /\ (batch_size < 0 -> upsert_games_in_batches sport games batch_size = Ok []).
Proof.
  split; [apply batches_cover | split].
  - intros ->. done.
  - intros Hneg. unfold upsert_games_in_batches, py_range.
    rewrite (proj2 (Z.eqb_neq batch_size 0)), (proj2 (Z.ltb_lt batch_size 0)) by lia.
    done.
Qed.

End Batches.
(** ** The update of future games: the run *)

Section FutureGames.
Import FutureGamesUpdateRuntime.
Context (get_games_in_date_range : string -> list Z).
Context (fetch_games_in_range : string -> res json).

Lemma mapM_res_Forall2 {X Y} (f : X -> res Y) (l : list X) (r : list Y) :
  mapM f l = Ok r -> Forall2 (fun x y => f x = Ok y) l r.
Proof.
  revert r. induction l as [|x l IH]; intros r H.
  - simpl in H. injection H as <-. constructor.
  - apply mapM_res_cons in H as (y & r' & Hy & Hr' & ->). constructor; auto.
Qed.

(** What [mark_removed_games] asks for: one call, for the ids of the
    datastore that were not fetched, when there are any. *)
Lemma mark_removed_games_calls (sport : string) (games : list json)
    (marked : list DbCall) (call : DbCall) :
  mark_removed_games get_games_in_date_range sport games = Ok marked ->
  call ∈ marked ->
  exists ids,
    call = mark_games_as_removed sport ids /\ ids ≠ ∅
    /\ forall i, i ∈ ids <-> i ∈ get_games_in_date_range sport
                           /\ forall game, game ∈ games -> event_id game ≠ Ok i.
Proof.
  unfold mark_removed_games. intros H Hin.
  destruct (mapM event_id games) as [fetched|e] eqn:Hf; [|done]. simpl in H.
  case_bool_decide as Hne; injection H as <-; [|by apply elem_of_nil in Hin].
  apply list_elem_of_singleton in Hin as ->.
  eexists. split; [reflexivity|]. split; [done|]. intros i.
  rewrite elem_of_difference, !elem_of_list_to_set.
  rewrite (mapM_res_elem event_id _ _ i Hf). split.
  - intros [Hex Hnot]. split; [done|]. intros game Hgame Hid. apply Hnot. eauto.
  - intros [Hex Hnot]. split; [done|]. intros (game & Hgame & Hid).
    by apply (Hnot game).
Qed.

Lemma upsert_games_in_batches_calls (sport : string) (games : list json)
    (upserted : list DbCall) (call : DbCall) :
  upsert_games_in_batches sport games default_batch_size = Ok upserted ->
  call ∈ upserted -> exists batch, call = upsert_games sport batch.
Proof.
  destruct (batches_cover sport games default_batch_size) as (batches & -> & _);
    [done|].
  intros [= <-] Hin. apply list_elem_of_fmap in Hin as (batch & -> & _). by exists batch.
Qed.

(** Every call of the loop is made for a sport whose fetch succeeded. *)
Lemma upsert_future_games_calls (R : string -> FetchedGamesResult -> Prop)
    (sports : list string) (results : list FetchedGamesResult) (call : DbCall) :
  Forall2 R sports results ->
  call ∈ (upsert_future_games get_games_in_date_range sports results).1 ->
  exists sport r,
    sport ∈ sports /\ R sport r /\ is_successful r = true
    /\ ((exists marked,
           mark_removed_games get_games_in_date_range sport (games_data r) = Ok marked
           /\ call ∈ marked)
        \/ (exists upserted,
              upsert_games_in_batches sport (games_data r) default_batch_size = Ok upserted
              /\ call ∈ upserted)).
Proof.
  intros HR. induction HR as [|sport r sports results Hr HR IH];
    cbn [upsert_future_games].
  { by intros ?%elem_of_nil. }
  assert (call ∈ (upsert_future_games get_games_in_date_range sports results).1 ->
          exists sport0 r0,
            sport0 ∈ sport :: sports /\ R sport0 r0 /\ is_successful r0 = true
            /\ ((exists marked,
                   mark_removed_games get_games_in_date_range sport0 (games_data r0)
                   = Ok marked /\ call ∈ marked)
                \/ (exists upserted,
                      upsert_games_in_batches sport0 (games_data r0) default_batch_size
                      = Ok upserted /\ call ∈ upserted))) as Hrest.
  { intros Hin. destruct (IH Hin) as (sport0 & r0 & Hs & Hrest).
    exists sport0, r0. split; [by apply list_elem_of_further | done]. }
  destruct (is_successful r) eqn:Hok; cbn [negb]; [|exact Hrest].
  destruct (mark_removed_games get_games_in_date_range sport (games_data r))
    as [marked|e] eqn:Hm; [|by intros ?%elem_of_nil].
  destruct (upsert_games_in_batches sport (games_data r) default_batch_size)
    as [upserted|e] eqn:Hu.
  - destruct (upsert_future_games get_games_in_date_range sports results)
      as [calls res0]. simpl in *.
    rewrite !elem_of_app. intros [Hin | [Hin | Hin]].
    + exists sport, r. split; [apply list_elem_of_here|]. split; [done|].
      split; [done|]. left. eauto.
    + exists sport, r. split; [apply list_elem_of_here|]. split; [done|].
      split; [done|]. right. eauto.
    + by apply Hrest.
  - simpl. intros Hin. exists sport, r. split; [apply list_elem_of_here|].
    split; [done|]. split; [done|]. left. eauto.
Qed.

Lemma upsert_future_games_sport (R : string -> FetchedGamesResult -> Prop)
    (sports : list string) (results : list FetchedGamesResult) (call : DbCall) :
  Forall2 R sports results ->
  call ∈ (upsert_future_games get_games_in_date_range sports results).1 ->
  exists r, sport_code_of call ∈ sports /\ R (sport_code_of call) r
            /\ is_successful r = true.
Proof.
  intros HR Hin.
  destruct (upsert_future_games_calls R _ _ _ HR Hin)
    as (sport & r & Hs & Hr & Hok & [(marked & Hm & Hc) | (upserted & Hu & Hc)]).
  - destruct (mark_removed_games_calls _ _ _ _ Hm Hc) as (ids & -> & _).
    by exists r.
  - destruct (upsert_games_in_batches_calls _ _ _ _ Hu Hc) as (batch & ->).
    by exists r.
Qed.

(** A fetch that failed. *)
Lemma failed_fetch_result (sport : string) :
  fetch_games_in_range sport = Ok JNull
  \/ (exists fields,
        fetch_games_in_range sport = Ok (JObj fields)
        /\ dict_get "success" fields = Some (JStr "0")) ->
  get_future_games_by_sport fetch_games_in_range sport
  = Ok {| is_successful := false; games_data := [] |}.
Proof.
  unfold get_future_games_by_sport, parse_games_response.
  intros [-> | (fields & -> & Hs)]; [done|]. simpl. by rewrite Hs.
Qed.

(** A sport whose fetch failed (no response, or an envelope whose
    "success" flag is "0") is left alone by the run: none of its games is
    upserted and none is marked as removed. *)
Theorem failed_fetch_is_skipped (sports : list string) (sport : string) (call : DbCall) :
  fetch_games_in_range sport = Ok JNull
  \/ (exists fields,
        fetch_games_in_range sport = Ok (JObj fields)
        /\ dict_get "success" fields = Some (JStr "0")) ->
  call ∈ (async_run get_games_in_date_range fetch_games_in_range sports).1 ->
  sport_code_of call ≠ sport.
Proof.
  intros Hfail Hin Heq. apply failed_fetch_result in Hfail.
  unfold async_run in Hin.
  destruct (mapM (get_future_games_by_sport fetch_games_in_range) sports)
    as [results|e] eqn:Hm; [|by apply elem_of_nil in Hin].
  apply mapM_res_Forall2 in Hm.
  destruct (upsert_future_games_sport _ _ _ _ Hm Hin) as (r & _ & Hr & Hok).
  rewrite Heq, Hfail in Hr. injection Hr as <-. done.
Qed.

(** The games a run marks as removed for a sport are exactly the games
    of the datastore's ten-day window whose id no fetched game of that
    sport carries; the call is made only when there is such a game, and only
    for a sport whose fetch succeeded. *)
Theorem removed_games_are_the_missing_ones (sports : list string) (sport : string)
    (ids : gset Z) :
  mark_games_as_removed sport ids
    ∈ (async_run get_games_in_date_range fetch_games_in_range sports).1 ->
  exists r,
    get_future_games_by_sport fetch_games_in_range sport = Ok r
    /\ is_successful r = true
    /\ ids ≠ ∅
    /\ forall i, i ∈ ids <-> i ∈ get_games_in_date_range sport
                           /\ forall game, game ∈ games_data r -> event_id game ≠ Ok i.
Proof.
  intros Hin. unfold async_run in Hin.
  destruct (mapM (get_future_games_by_sport fetch_games_in_range) sports)
    as [results|e] eqn:Hm; [|by apply elem_of_nil in Hin].
  apply mapM_res_Forall2 in Hm.
  destruct (upsert_future_games_calls _ _ _ _ Hm Hin)
    as (sport0 & r & Hs & Hr & Hok & [(marked & Hmk & Hc) | (upserted & Hu & Hc)]).
  - destruct (mark_removed_games_calls _ _ _ _ Hmk Hc) as (ids0 & Heq & Hne & Hspec).
    injection Heq as <- <-. by exists r.
  - by destruct (upsert_games_in_batches_calls _ _ _ _ Hu Hc) as (batch & ?).
Qed.

End FutureGames.
(** ** The update of future games: what a completed run upserts *)

Section FutureGamesComplete.
Import FutureGamesUpdateRuntime.
Context (get_games_in_date_range : string -> list Z).
Context (fetch_games_in_range : string -> res json).

Lemma upserted_for_other (sport : string) (calls : list DbCall) :
  (forall call, call ∈ calls -> sport_code_of call ≠ sport) ->
  upserted_for sport calls = [].
Proof.
  unfold upserted_for. induction calls as [|call calls IH]; intros Hall; [done|].
  cbn [omap list_omap].
  assert (sport_code_of call ≠ sport) as Hne by apply Hall, list_elem_of_here.
  destruct call as [s ids | s games]; simpl in Hne.
  - apply IH. intros c Hc. by apply Hall, list_elem_of_further.
  - rewrite (proj2 (String.eqb_neq s sport) Hne).
    apply IH. intros c Hc. by apply Hall, list_elem_of_further.
Qed.

Lemma upserted_for_marked (sport sport' : string) (games : list json)
    (marked : list DbCall) :
  mark_removed_games get_games_in_date_range sport' games = Ok marked ->
  upserted_for sport marked = [].
Proof.
  unfold mark_removed_games. intros H.
  destruct (mapM event_id games) as [fetched|e]; [|done]. simpl in H.
  by case_bool_decide; injection H as <-.
Qed.

(** The result of a fetch that was not successful carries no game. *)
Lemma unsuccessful_result_empty (sport : string) (r : FetchedGamesResult) :
  get_future_games_by_sport fetch_games_in_range sport = Ok r ->
  is_successful r = false -> games_data r = [].
Proof.
  unfold get_future_games_by_sport, parse_games_response. intros H Hno.
  apply bind_Ok in H as (raw & _ & H). apply bind_Ok in H as (bad & _ & H).
  destruct bad; [by injection H as <-|].
  res_inv H. by subst r.
Qed.

Lemma upsert_future_games_upserted (sports : list string)
    (results : list FetchedGamesResult) (calls : list DbCall) :
  Forall2 (fun sport r => get_future_games_by_sport fetch_games_in_range sport = Ok r)
          sports results ->
  NoDup sports ->
  upsert_future_games get_games_in_date_range sports results = (calls, Ok tt) ->
  Forall2 (fun sport r => upserted_for sport calls = games_data r) sports results.
Proof.
  intros HR. revert calls.
  induction HR as [|sport r sports results Hr HR IH]; intros calls Hnd H;
    [constructor|].
  apply NoDup_cons in Hnd as [Hnotin Hnd].
  assert (forall calls',
            calls' = (upsert_future_games get_games_in_date_range sports results).1 ->
            upserted_for sport calls' = []) as Hother.
  { intros calls' ->. apply upserted_for_other. intros call Hin Heq.
    destruct (upsert_future_games_sport get_games_in_date_range _ _ _ _ HR Hin)
      as (r0 & Hs & _). by rewrite Heq in Hs. }
  cbn [upsert_future_games] in H.
  destruct (is_successful r) eqn:Hok; cbn [negb] in H.
  - destruct (mark_removed_games get_games_in_date_range sport (games_data r))
      as [marked|e] eqn:Hm; [|done].
    destruct (batches_cover sport (games_data r) default_batch_size)
      as (batches & Hu & Hcat & _); [done|].
    rewrite Hu in H.
    destruct (upsert_future_games get_games_in_date_range sports results)
      as [calls0 res0] eqn:Hrec.
    injection H as <- ->.
    constructor.
    + rewrite !upserted_for_app, (upserted_for_marked _ _ _ _ Hm).
      rewrite upserted_for_batches, String.eqb_refl, Hcat.
      by rewrite (Hother calls0 eq_refl), app_nil_r.
    + pose proof (IH calls0 Hnd eq_refl) as Hrest.
      apply Forall2_same_length_lookup. split; [by eapply Forall2_length|].
      intros i sport0 r0 Hi Hri.
      pose proof (Forall2_lookup_lr _ _ _ _ _ _ Hrest Hi Hri) as Hup.
      cbv beta in Hup.
      rewrite !upserted_for_app, (upserted_for_marked _ _ _ _ Hm).
      rewrite upserted_for_batches, Hup.
      assert (sport ≠ sport0) as Hne.
      { intros ->. apply Hnotin. by eapply list_elem_of_lookup_2. }
      by rewrite (proj2 (String.eqb_neq sport sport0) Hne).
  - constructor.
    + rewrite (unsuccessful_result_empty _ _ Hr Hok).
      apply Hother. by rewrite H.
    + by apply IH.
Qed.

(** A run that completes, over distinct sport codes, hands to the
    datastore for every sport exactly the games that were fetched for it, in
    the order of the response (and none for a sport whose fetch failed). *)
Theorem completed_run_upserts_what_was_fetched (sports : list string)
    (calls : list DbCall) (sport : string) :
  NoDup sports ->
  async_run get_games_in_date_range fetch_games_in_range sports = (calls, Ok tt) ->
  sport ∈ sports ->
  exists r,
    get_future_games_by_sport fetch_games_in_range sport = Ok r
    /\ upserted_for sport calls = games_data r.
Proof.
  intros Hnd Hrun Hin. unfold async_run in Hrun.
  destruct (mapM (get_future_games_by_sport fetch_games_in_range) sports)
    as [results|e] eqn:Hm; [|done].
  apply mapM_res_Forall2 in Hm.
  pose proof (upsert_future_games_upserted sports results calls Hm Hnd Hrun) as Hup.
  apply list_elem_of_lookup in Hin as (i & Hi).
  destruct (Forall2_lookup_l _ _ _ _ _ Hm Hi) as (r & Hri & Hr).
  exists r. split; [done|].
  exact (Forall2_lookup_lr _ _ _ _ _ _ Hup Hi Hri).
Qed.

End FutureGamesComplete.
(** ** The play sequence *)

Section Sequence.

Lemma string_app_empty (s : string) : s +:+ EmptyString = s.
Proof.
  induction s as [|c s IH]; [done|].
  change (String c (s +:+ EmptyString) = String c s). by rewrite IH.
Qed.

Lemma split_on_nonempty (sep : ascii) (acc s : string) : split_on sep acc s ≠ [].
Proof.
  revert acc. induction s as [|c s IH]; intros acc; cbn [split_on]; [done|].
  destruct (Ascii.eqb c sep); [done | apply IH].
Qed.

(** The last piece of a split: the whole string when it holds no
    separator, and what follows the last separator otherwise. *)
Lemma split_on_last (sep : ascii) (acc s : string) :
  (has_char sep s = false
   /\ List.last (split_on sep acc s) EmptyString = acc +:+ s)
  \/ (has_char sep (List.last (split_on sep acc s) EmptyString) = false
      /\ exists pre,
           s = pre +:+ String sep (List.last (split_on sep acc s) EmptyString)).
Proof.
  revert acc. induction s as [|c s IH]; intros acc; cbn [split_on].
  - left. split; [done|]. by rewrite string_app_empty.
  - destruct (Ascii.eqb c sep) eqn:Hc.
    + apply Ascii.eqb_eq in Hc as ->. right.
      assert (List.last (acc :: split_on sep EmptyString s) EmptyString
              = List.last (split_on sep EmptyString s) EmptyString) as ->.
      { pose proof (split_on_nonempty sep EmptyString s) as Hne.
        by destruct (split_on sep EmptyString s). }
      destruct (IH EmptyString) as [[Hno ->] | [Hno (pre & Hpre)]].
      * split; [done|]. by exists EmptyString.
      * split; [done|]. exists (String sep pre). by rewrite Hpre at 1.
    + assert (Ascii.eqb sep c = false) as Hc' by (by rewrite Ascii.eqb_sym).
      destruct (IH (acc +:+ String c EmptyString)) as [[Hno ->] | [Hno (pre & Hpre)]].
      * left. split; [by simpl; rewrite Hc'|]. by rewrite string_app_assoc.
      * right. split; [done|]. exists (String c pre). by rewrite Hpre at 1.
Qed.

(** [transform_sequence] keeps what follows the last dash of a non-empty
    string (the whole string when it holds no dash), so its result holds
    no dash; it gives [None] for [None] and for the empty string. *)
Theorem transform_sequence_keeps_last_piece (s : string) :
  transform_sequence JNull = Ok JNull
  /\ transform_sequence (JStr EmptyString) = Ok JNull
  /\ (s ≠ EmptyString ->
      exists t,
        transform_sequence (JStr s) = Ok (JStr t)
        /\ has_char "-" t = false
        /\ ((has_char "-" s = false /\ t = s)
            \/ exists pre, s = pre +:+ String "-" t)).
Proof.
  split; [done|]. split; [done|]. intros Hne.
  unfold transform_sequence. simpl.
  rewrite (proj2 (String.eqb_neq s EmptyString) Hne). simpl.
  eexists. split; [reflexivity|].
  destruct (split_on_last "-" EmptyString s) as [[Hno Heq] | [Hno (pre & Hpre)]].
  - rewrite Heq. split; [done|]. by left.
  - split; [done|]. right. by exists pre.
Qed.

End Sequence.

(** ** The row of a live game *)

Section Row.
Import InmemoryStorage.
Context (ny_to_utc : datetime -> res datetime).





End Row.

(** ** The play-by-play rows of a live game *)

Section PlayByPlayRows.
Context (stored_ids : gset Z).

(** A row that was built carries the ids it was built for, and its play
    had a "team" entry. *)
Lemma playbyplay_entry_built (play_data : json) (play_id game_id : Z)
    (sport_code : string) (created_at : datetime) (pbp : GameStatPlayByPlay.t) :
  playbyplay_entry play_data play_id game_id sport_code created_at = Ok pbp ->
  GameStatPlayByPlay.id pbp = play_id
  /\ GameStatPlayByPlay.game_id pbp = game_id
  /\ GameStatPlayByPlay.sport_code pbp = sport_code
  /\ GameStatPlayByPlay.created_at pbp = created_at
  /\ exists team, py_getitem play_data "team" = Ok team.
Proof.
  unfold playbyplay_entry. intros H.
  do 7 (apply bind_Ok in H as (? & _ & H)).
  apply bind_Ok in H as (team & Hteam & H).
  res_inv H. subst pbp. simpl. repeat split. by exists team.
Qed.

Lemma playbyplay_entries_ids (existing_pbp : gset Z) (changes : list json)
    (game_id : Z) (sport_code : string) (created_at : datetime)
    (asked : list Z) (rows : list GameStatPlayByPlay.t) :
  mapM event_id changes = Ok asked ->
  playbyplay_entries existing_pbp changes game_id sport_code created_at = Ok rows ->
  GameStatPlayByPlay.id <$> rows = filter (fun i => i ∉ existing_pbp) asked
  /\ Forall (fun pbp => GameStatPlayByPlay.game_id pbp = game_id
                        /\ GameStatPlayByPlay.sport_code pbp = sport_code
                        /\ GameStatPlayByPlay.created_at pbp = created_at) rows.
Proof.
  revert asked rows. induction changes as [|play changes IH]; intros asked rows Ha H.
  - simpl in *. injection Ha as <-. injection H as <-. split; [done | constructor].
  - apply mapM_res_cons in Ha as (i & asked' & Hi & Ha & ->).
    cbn [playbyplay_entries] in H. rewrite Hi in H. cbn [mbind res_bind] in H.
    destruct (decide (i ∈ existing_pbp)) as [Hin|Hnew].
    + destruct (IH _ _ Ha H) as [Hids Hall]. split; [|done].
      by rewrite filter_cons_False by (intros Hn; by apply Hn).
    + apply bind_Ok in H as (pbp & Hpbp & H). apply bind_Ok in H as (rows' & Hrows & H).
      injection H as <-.
      destruct (IH _ _ Ha Hrows) as [Hids Hall].
      destruct (playbyplay_entry_built _ _ _ _ _ _ Hpbp) as (Hid & Hg & Hs & Hc & _).
      split.
      * rewrite filter_cons_True by done. rewrite fmap_cons, Hid. by f_equal.
      * by constructor.
Qed.

Lemma filter_among {X} (P Q : X -> Prop) `{!forall x, Decision (P x)}
    `{!forall x, Decision (Q x)} (l : list X) :
  (forall x, x ∈ l -> (P x <-> Q x)) -> filter P l = filter Q l.
Proof.
  induction l as [|x l IH]; intros Hall; [done|].
  assert (filter P l = filter Q l) as Hl.
  { apply IH. intros y Hy. by apply Hall, list_elem_of_further. }
  pose proof (Hall x (list_elem_of_here _ _)) as Hx.
  destruct (decide (P x)) as [Hp|Hp].
  - rewrite !filter_cons_True by tauto. by rewrite Hl.
  - rewrite !filter_cons_False by tauto. done.
Qed.

(** The rows that [prepare_playbyplay_entries] returns are, in the order
    of the delta, one row for each new event whose id is not stored yet for
    the game, and they carry the game's id, sport and the creation time it
    was given; a delta without new events gives no row. *)
Theorem prepare_playbyplay_entries_adds_unstored (gc : GameChanges.t) (game_id : Z)
    (sport_code : string) (created_at : datetime) (rows : list GameStatPlayByPlay.t) :
  prepare_playbyplay_entries stored_ids gc game_id sport_code created_at = Ok rows ->
  exists asked,
    mapM event_id (default [] (GameChanges.playbyplay_changes gc)) = Ok asked
    /\ GameStatPlayByPlay.id <$> rows = filter (fun i => i ∉ stored_ids) asked
    /\ Forall (fun pbp => GameStatPlayByPlay.game_id pbp = game_id
                          /\ GameStatPlayByPlay.sport_code pbp = sport_code
                          /\ GameStatPlayByPlay.created_at pbp = created_at) rows.
Proof.
  unfold prepare_playbyplay_entries.
  destruct (GameChanges.playbyplay_changes gc) as [[|play changes]|].
  - intros [= <-]. exists []. by repeat split.
  - intros H. apply bind_Ok in H as (asked & Ha & H).
    exists asked. split; [done|].
    destruct (playbyplay_entries_ids _ _ _ _ _ _ _ Ha H) as [Hids Hall].
    split; [|done]. rewrite Hids. apply filter_among.
    intros i Hi. rewrite elem_of_intersection, elem_of_list_to_set. tauto.
  - intros [= <-]. exists []. by repeat split.
Qed.

Lemma playbyplay_entries_team (existing_pbp : gset Z) (changes : list json)
    (game_id : Z) (sport_code : string) (created_at : datetime)
    (rows : list GameStatPlayByPlay.t) (play : json) (i : Z) :
  playbyplay_entries existing_pbp changes game_id sport_code created_at = Ok rows ->
  play ∈ changes -> event_id play = Ok i -> i ∉ existing_pbp ->
  exists team, py_getitem play "team" = Ok team.
Proof.
  revert rows. induction changes as [|play' changes IH]; intros rows H Hin Hi Hnew.
  { by apply elem_of_nil in Hin. }
  cbn [playbyplay_entries] in H.
  apply bind_Ok in H as (i' & Hi' & H).
  apply elem_of_cons in Hin as [-> | Hin].
  - rewrite Hi in Hi'. injection Hi' as <-.
    destruct (decide (i ∈ existing_pbp)); [done|].
    apply bind_Ok in H as (pbp & Hpbp & _).
    by destruct (playbyplay_entry_built _ _ _ _ _ _ Hpbp) as (_ & _ & _ & _ & ?).
  - destruct (decide (i' ∈ existing_pbp)); [by apply (IH rows)|].
    apply bind_Ok in H as (pbp & _ & H). apply bind_Ok in H as (rows' & Hrows & _).
    by apply (IH rows').
Qed.

Lemma prepare_without_team (gc : GameChanges.t) (game_id : Z)
    (sport_code : string) (created_at : datetime) (evs : list json)
    (play : json) (i : Z) (fields : list (string * json)) :
  GameChanges.playbyplay_changes gc = Some evs ->
  play ∈ evs -> play = JObj fields -> dict_get "team" fields = None ->
  event_id play = Ok i -> i ∉ stored_ids ->
  exists e,
    prepare_playbyplay_entries stored_ids gc game_id sport_code created_at = Raise e.
Proof.
  intros Hevs Hin -> Hteam Hi Hnew.
  destruct (prepare_playbyplay_entries stored_ids gc game_id sport_code created_at)
    as [rows|e] eqn:H; [|by exists e].
  exfalso. unfold prepare_playbyplay_entries in H. rewrite Hevs in H.
  destruct evs as [|play' changes]; [by apply elem_of_nil in Hin|].
  apply bind_Ok in H as (asked & Ha & H).
  destruct (playbyplay_entries_team _ _ _ _ _ _ (JObj fields) i H Hin Hi)
    as (team & Hget).
  - rewrite elem_of_intersection. tauto.
  - simpl in Hget. by rewrite Hteam in Hget.
Qed.

(** A new event without a "team" entry makes [prepare_playbyplay_entries]
    raise, whatever the other events are, although [get_natstat_value]
    reads the team id of such an event as absent. *)
Theorem prepare_playbyplay_entries_needs_team (gc : GameChanges.t) (game_id : Z)
    (sport_code : string) (created_at : datetime) (evs : list json)
    (play : json) (i : Z) (fields : list (string * json)) :
  GameChanges.playbyplay_changes gc = Some evs ->
  play ∈ evs -> play = JObj fields -> dict_get "team" fields = None ->
  event_id play = Ok i -> i ∉ stored_ids ->
  get_natstat_value play "team.id" py_int = Ok None
  /\ exists e,
       prepare_playbyplay_entries stored_ids gc game_id sport_code created_at
       = Raise e.
Proof.
  intros Hevs Hin Hplay Hteam Hi Hnew. split.
  - subst play. unfold get_natstat_value.
    change (jmespath_search "team.id" (JObj fields))
      with (jp_field (jp_field (JObj fields) "team") "id").
    simpl. by rewrite Hteam.
  - by apply (prepare_without_team gc _ _ _ evs play i fields).
Qed.

End PlayByPlayRows.

(** ** A play that the store knows and the datastore never gets *)

Section Unpersisted.
Import InmemoryStorage GameChangeConvertor.
Context (ny_to_utc : datetime -> res datetime).

Lemma get_game_changes_parts (g : GameShort.t) (game_data : json)
    (last_info : option GameLastInfo.t) (d : GameChanges.t) :
  get_game_changes ny_to_utc g game_data last_info = Ok d ->
  GameChanges.game_short d = g
  /\ GameChanges.game_data d = game_data
  /\ get_play_by_play_changes last_info game_data
     = Ok (GameChanges.playbyplay_changes d).
Proof.
  unfold get_game_changes. intros H.
  do 5 (apply bind_Ok in H as (? & _ & H)).
  apply bind_Ok in H as (op & Hp & H). apply bind_Ok in H as (s & _ & H).
  injection H as <-. done.
Qed.

(** The store runs ahead of the datastore.  When the delta computed for a
    stored game holds a new event without a "team" entry, the store accepts
    the delta, while [prepare_playbyplay_entries] raises on it, so that no
    row of the delta is handed to the datastore; and no later diff against
    the updated store returns that event again, whatever the payload. *)
Theorem play_known_to_the_store_only (st : storage) (stored_ids : gset Z)
    (g : GameShort.t) (game_data : json) (d : GameChanges.t) (evs : list json)
    (play : json) (i : Z) (fields : list (string * json))
    (game_id : Z) (sport_code : string) (created_at : datetime) :
  is_Some (st !! GameShort.key g) ->
  get_game_changes ny_to_utc g game_data (get_last_info st (GameShort.key g)) = Ok d ->
  GameChanges.playbyplay_changes d = Some evs ->
  play ∈ evs -> play = JObj fields -> dict_get "team" fields = None ->
  event_id play = Ok i -> i ∉ stored_ids ->
  exists st' e,
    update_game ny_to_utc st d = (st', Ok tt)
    /\ prepare_playbyplay_entries stored_ids d game_id sport_code created_at = Raise e
    /\ forall later_data later_evs,
         get_play_by_play_changes (get_last_info st' (GameShort.key g)) later_data
         = Ok (Some later_evs) ->
         play ∉ later_evs.
Proof.
  intros [li Hk] Hd Hevs Hin Hplay Hteam Hi Hnew.
  destruct (get_game_changes_parts _ _ _ _ Hd) as (Hg & _ & Hp).
  rewrite Hevs in Hp.
  destruct (delta_events_readable _ _ _ Hp) as (new & Hnewids).
  assert (last_info_for ny_to_utc st d = Ok (st, li)) as Hli.
  { unfold last_info_for, get_last_info. by rewrite Hg, Hk. }
  assert (forall evs0, GameChanges.playbyplay_changes d = Some evs0 ->
                       exists ids, mapM event_id evs0 = Ok ids) as Hread.
  { intros evs0 Hevs0. rewrite Hevs in Hevs0. injection Hevs0 as <-. eauto. }
  pose proof (update_game_result ny_to_utc st st d li Hli Hread) as Hupd.
  destruct (prepare_without_team stored_ids d game_id sport_code created_at
              evs play i fields Hevs Hin Hplay Hteam Hi Hnew) as (e & Hprep).
  eexists _, e. split; [exact Hupd|]. split; [exact Hprep|].
  intros later_data later_evs Hlater Hin'.
  unfold get_last_info in Hlater. rewrite Hg, lookup_insert_eq in Hlater.
  pose proof (with_incoming_ids d li) as Hids.
  assert (i ∈ default ∅ (incoming_ids d)) as Hinc.
  { unfold incoming_ids. rewrite Hevs.
    destruct evs as [|ev evs']; [by apply elem_of_nil in Hin|].
    rewrite Hnewids. simpl. apply elem_of_list_to_set.
    apply (mapM_res_elem event_id _ _ _ Hnewids). eauto. }
  destruct (GameLastInfo.playbyplay_ids (with_incoming d li)) as [known|] eqn:Hknown.
  - simpl in Hids.
    apply (new_events_are_unknown _ _ _ _ _ _ Hknown Hlater Hin' Hi).
    rewrite Hids. apply elem_of_union. by right.
  - simpl in Hids. apply (not_elem_of_empty (C := gset Z) i).
    rewrite Hids. apply elem_of_union. by right.
Qed.

End Unpersisted.

(** * The further properties on example data *)

Section MoreOnTheFixture.
Import Examples FutureExamples InmemoryStorage GameUpdateManager.

Lemma keyed_store_of (info : GameLastInfo.t) : keyed (store_of info).
Proof. unfold keyed, store_of. by apply map_Forall_singleton. Qed.


Lemma each_game_polled_once_witness :
  NoDup (get_games_by_type clock_before_tipoff live (store_of scheduled_info)).
Proof.
  apply (each_game_polled_once clock_before_tipoff live (store_of scheduled_info)
           (keyed_store_of scheduled_info)).
Defined.

Lemma cycle_touches_only_its_bucket_witness :
  dom (game_details_update eastern_since_2007 fetch_final clock_before_tipoff live
         (store_of scheduled_info)).1
  = dom (store_of scheduled_info).
Proof.
  apply (cycle_touches_only_its_bucket eastern_since_2007 fetch_final
           clock_before_tipoff live (store_of scheduled_info)
           (keyed_store_of scheduled_info)).
Defined.


Lemma cycle_all_or_nothing_witness :
  exists st',
    game_details_update eastern_since_2007 fetch_final clock_before_tipoff live
      (store_of scheduled_info)
    = (st', Ok (upsert_live_games [final_delta])).
Proof.
  destruct (cycle_all_or_nothing eastern_since_2007 fetch_final clock_before_tipoff
              live (store_of scheduled_info) (keyed_store_of scheduled_info))
    as [Hall _].
  apply (Hall [Some final_delta]). vm_compute. reflexivity.
Defined.

Lemma live_games_survive_eviction_witness :
  nba_game ∈ get_games_by_type clock_before_tipoff live
               (clean_old_records clock_before_tipoff (store_of scheduled_info)).
Proof.
  apply (live_games_survive_eviction clock_before_tipoff (store_of scheduled_info)
           nba_game).
  - vm_compute. discriminate.
  - assert (get_games_by_type clock_before_tipoff live (store_of scheduled_info)
            = [nba_game]) as -> by (vm_compute; reflexivity).
    apply list_elem_of_here.
Defined.

Lemma response_to_game_data_by_games_witness :
  response_to_game_data (envelope final_payload) = Ok final_payload.
Proof.
  apply (response_to_game_data_by_games
           [("success", JStr "1"); ("games", JObj [("1077408", final_payload)])]
           (JStr "1") (JObj [("1077408", final_payload)]));
    reflexivity.
Defined.

Lemma get_game_datetime_unknown_month_witness :
  get_game_datetime eastern_since_2007 (gameday_payload "2014-00-00")
  = eastern_since_2007 (mk_datetime 2014 1 1 0 0).
Proof.
  destruct (get_game_datetime_unknown_month eastern_since_2007 2014 0 0
              (gameday_payload "2014-00-00") []) as [Hdict _];
    [lia | lia | lia | reflexivity |].
  apply Hdict. reflexivity.
Defined.

Lemma get_game_datetime_rejects_impossible_day_witness :
  get_game_datetime eastern_since_2007 (gameday_payload "2023-02-30")
  = Raise ValueError.
Proof.
  apply (get_game_datetime_rejects_impossible_day eastern_since_2007 2023 2 30
           (gameday_payload "2023-02-30") []);
    [lia | lia | | reflexivity | reflexivity].
  assert (days_in_month 2023 2 = 28) as -> by reflexivity. lia.
Defined.

Lemma failed_fetch_is_skipped_witness :
  Forall (fun call => sport_code_of call ≠ "WNBA")
    (FutureGamesUpdateRuntime.async_run rows_in_window fetch_by_sport
       ["NBA"; "WNBA"]).1.
Proof.
  apply Forall_forall. intros call.
  apply (failed_fetch_is_skipped rows_in_window fetch_by_sport ["NBA"; "WNBA"] "WNBA" call).
  left. reflexivity.
Defined.

Lemma future_games_run :
  FutureGamesUpdateRuntime.async_run rows_in_window fetch_by_sport ["NBA"; "WNBA"]
  = ([FutureGamesUpdateRuntime.mark_games_as_removed "NBA" {[13]};
      FutureGamesUpdateRuntime.upsert_games "NBA" [future_game "11"; future_game "12"]],
     Ok tt).
Proof. vm_compute. reflexivity. Qed.

Lemma removed_games_are_the_missing_ones_witness :
  exists r,
    FutureGamesUpdateRuntime.get_future_games_by_sport fetch_by_sport "NBA" = Ok r
    /\ FutureGamesUpdateRuntime.is_successful r = true
    /\ ({[13]} : gset Z) ≠ ∅
    /\ forall i, i ∈ ({[13]} : gset Z)
                 <-> i ∈ rows_in_window "NBA"
                     /\ forall game, game ∈ FutureGamesUpdateRuntime.games_data r ->
                                     event_id game ≠ Ok i.
Proof.
  apply (removed_games_are_the_missing_ones rows_in_window fetch_by_sport
           ["NBA"; "WNBA"] "NBA" {[13]}).
  rewrite future_games_run. apply list_elem_of_here.
Defined.

Lemma completed_run_upserts_what_was_fetched_witness :
  exists r,
    FutureGamesUpdateRuntime.get_future_games_by_sport fetch_by_sport "NBA" = Ok r
    /\ upserted_for "NBA"
         [FutureGamesUpdateRuntime.mark_games_as_removed "NBA" {[13]};
          FutureGamesUpdateRuntime.upsert_games "NBA" [future_game "11"; future_game "12"]]
       = FutureGamesUpdateRuntime.games_data r.
Proof.
  apply (completed_run_upserts_what_was_fetched rows_in_window fetch_by_sport
           ["NBA"; "WNBA"] _ "NBA").
  - apply NoDup_cons. split; [|apply NoDup_singleton].
    intros H%list_elem_of_singleton. discriminate H.
  - apply future_games_run.
  - apply list_elem_of_here.
Defined.

Lemma three_is_new : 3 ∉ ({[1; 2]} : gset Z).
Proof.
  intros H. apply elem_of_union in H as [H|H]; apply elem_of_singleton in H;
    discriminate H.
Qed.

Lemma prepare_playbyplay_entries_adds_unstored_witness :
  exists rows asked,
    prepare_playbyplay_entries {[1; 2; 3]} delta_with_team 1077408 "NBA" tipoff = Ok rows
    /\ mapM event_id [play_of_team "3"; play_of_team "4"] = Ok asked
    /\ GameStatPlayByPlay.id <$> rows
       = filter (fun i => i ∉ ({[1; 2; 3]} : gset Z)) asked.
Proof.
  destruct (prepare_playbyplay_entries {[1; 2; 3]} delta_with_team 1077408 "NBA" tipoff)
    as [rows|e] eqn:Hrows; [|vm_compute in Hrows; discriminate Hrows].
  destruct (prepare_playbyplay_entries_adds_unstored {[1; 2; 3]} delta_with_team
              1077408 "NBA" tipoff rows Hrows) as (asked & Hasked & Hids & _).
  exists rows, asked. done.
Defined.

Lemma prepare_playbyplay_entries_needs_team_witness :
  get_natstat_value (play "3") "team.id" py_int = Ok None
  /\ exists e,
       prepare_playbyplay_entries {[1; 2]} final_delta 1077408 "NBA" tipoff = Raise e.
Proof.
  apply (prepare_playbyplay_entries_needs_team {[1; 2]} final_delta 1077408 "NBA"
           tipoff [play "3"] (play "3") 3
           [("id", JStr "3"); ("text", JStr "play")]).
  - reflexivity.
  - apply list_elem_of_here.
  - reflexivity.
  - reflexivity.
  - vm_compute. reflexivity.
  - apply three_is_new.
Defined.

Lemma play_known_to_the_store_only_witness :
  exists st' e,
    update_game eastern_since_2007 (store_of scheduled_info) final_delta = (st', Ok tt)
    /\ prepare_playbyplay_entries {[1; 2]} final_delta 1077408 "NBA" tipoff = Raise e
    /\ forall later_data later_evs,
         GameChangeConvertor.get_play_by_play_changes
           (get_last_info st' (GameShort.key nba_game)) later_data
         = Ok (Some later_evs) ->
         play "3" ∉ later_evs.
Proof.
  apply (play_known_to_the_store_only eastern_since_2007 (store_of scheduled_info)
           {[1; 2]} nba_game final_payload final_delta [play "3"] (play "3") 3
           [("id", JStr "3"); ("text", JStr "play")] 1077408 "NBA" tipoff).
  - exists scheduled_info. vm_compute. reflexivity.
  - vm_compute. reflexivity.
  - reflexivity.
  - apply list_elem_of_here.
  - reflexivity.
  - reflexivity.
  - vm_compute. reflexivity.
  - apply three_is_new.
Defined.

End MoreOnTheFixture.
